(** * Wayland WSI: format negotiation and swapchain image lifecycle

    A shallow embedding of [src/vulkan/wsi/wsi_common_wayland.c]: the format
    catalog, the dma-buf feedback listeners of a surface, and the
    acquire / present engine of a swapchain, followed by the properties the
    specification states about them.

    Conventions.
    - C integers are [Z]; [uint32_t] bit sets use [Z.lor] / [Z.land].
    - A [u_vector] or [util_dynarray] is the list of its elements, oldest
      first (the order [u_vector_foreach] visits them); [u_vector_add]
      appends.
    - A pointer into a vector is the index of the element.
    - A read through a pointer that is not backed by live storage (outside a
      mapping, or into storage already released) is undefined behaviour; the
      handlers return [None] for it.  So is an insertion into a vector whose
      [u_vector_init] could not allocate.

    The last part embeds [panfrost_set_global_binding] of
    [src/gallium/drivers/panfrost/pan_compute.c] over a memory of bytes. *)

From stdpp Require Import base numbers option list.

Local Open Scope Z_scope.

(** ** Constants of the headers the file includes

    The values that vulkan_core.h, drm_fourcc.h and errno.h give to the names
    the file uses. *)

Definition VkFormat := Z.

Definition VK_FORMAT_UNDEFINED : VkFormat := 0.
Definition VK_FORMAT_R4G4B4A4_UNORM_PACK16 : VkFormat := 2.
Definition VK_FORMAT_B4G4R4A4_UNORM_PACK16 : VkFormat := 3.
Definition VK_FORMAT_R5G6B5_UNORM_PACK16 : VkFormat := 4.
Definition VK_FORMAT_B5G6R5_UNORM_PACK16 : VkFormat := 5.
Definition VK_FORMAT_R5G5B5A1_UNORM_PACK16 : VkFormat := 6.
Definition VK_FORMAT_B5G5R5A1_UNORM_PACK16 : VkFormat := 7.
Definition VK_FORMAT_A1R5G5B5_UNORM_PACK16 : VkFormat := 8.
Definition VK_FORMAT_R8G8B8_UNORM : VkFormat := 23.
Definition VK_FORMAT_R8G8B8_SRGB : VkFormat := 29.
Definition VK_FORMAT_B8G8R8_UNORM : VkFormat := 30.
Definition VK_FORMAT_B8G8R8_SRGB : VkFormat := 36.
Definition VK_FORMAT_R8G8B8A8_UNORM : VkFormat := 37.
Definition VK_FORMAT_R8G8B8A8_SRGB : VkFormat := 43.
Definition VK_FORMAT_B8G8R8A8_UNORM : VkFormat := 44.
Definition VK_FORMAT_B8G8R8A8_SRGB : VkFormat := 50.
Definition VK_FORMAT_A2R10G10B10_UNORM_PACK32 : VkFormat := 58.
Definition VK_FORMAT_A2B10G10R10_UNORM_PACK32 : VkFormat := 64.

Definition VK_FORMAT_FEATURE_COLOR_ATTACHMENT_BIT : Z := 128.

(** [fourcc_code] of drm_fourcc.h, on character codes. *)
Definition fourcc_code (a b c d : Z) : Z :=
  Z.lor (Z.lor a (Z.shiftl b 8)) (Z.lor (Z.shiftl c 16) (Z.shiftl d 24)).

Definition chr_0 : Z := 48.
Definition chr_1 : Z := 49.
Definition chr_2 : Z := 50.
Definition chr_3 : Z := 51.
Definition chr_4 : Z := 52.
Definition chr_5 : Z := 53.
Definition chr_6 : Z := 54.
Definition chr_A : Z := 65.
Definition chr_B : Z := 66.
Definition chr_G : Z := 71.
Definition chr_R : Z := 82.
Definition chr_X : Z := 88.

Definition DRM_FORMAT_RGBA4444 := fourcc_code chr_R chr_A chr_1 chr_2.
Definition DRM_FORMAT_RGBX4444 := fourcc_code chr_R chr_X chr_1 chr_2.
Definition DRM_FORMAT_BGRA4444 := fourcc_code chr_B chr_A chr_1 chr_2.
Definition DRM_FORMAT_BGRX4444 := fourcc_code chr_B chr_X chr_1 chr_2.
Definition DRM_FORMAT_RGB565 := fourcc_code chr_R chr_G chr_1 chr_6.
Definition DRM_FORMAT_BGR565 := fourcc_code chr_B chr_G chr_1 chr_6.
Definition DRM_FORMAT_ARGB1555 := fourcc_code chr_A chr_R chr_1 chr_5.
Definition DRM_FORMAT_XRGB1555 := fourcc_code chr_X chr_R chr_1 chr_5.
Definition DRM_FORMAT_RGBA5551 := fourcc_code chr_R chr_A chr_1 chr_5.
Definition DRM_FORMAT_RGBX5551 := fourcc_code chr_R chr_X chr_1 chr_5.
Definition DRM_FORMAT_BGRA5551 := fourcc_code chr_B chr_A chr_1 chr_5.
Definition DRM_FORMAT_BGRX5551 := fourcc_code chr_B chr_X chr_1 chr_5.
Definition DRM_FORMAT_ARGB2101010 := fourcc_code chr_A chr_R chr_3 chr_0.
Definition DRM_FORMAT_XRGB2101010 := fourcc_code chr_X chr_R chr_3 chr_0.
Definition DRM_FORMAT_ABGR2101010 := fourcc_code chr_A chr_B chr_3 chr_0.
Definition DRM_FORMAT_XBGR2101010 := fourcc_code chr_X chr_B chr_3 chr_0.
Definition DRM_FORMAT_XBGR8888 := fourcc_code chr_X chr_B chr_2 chr_4.
Definition DRM_FORMAT_ABGR8888 := fourcc_code chr_A chr_B chr_2 chr_4.
Definition DRM_FORMAT_XRGB8888 := fourcc_code chr_X chr_R chr_2 chr_4.
Definition DRM_FORMAT_ARGB8888 := fourcc_code chr_A chr_R chr_2 chr_4.

(** [DRM_FORMAT_MOD_INVALID] is [fourcc_mod_code(NONE, 0x00ffffffffffffff)]. *)
Definition DRM_FORMAT_MOD_INVALID : Z := 0x00ffffffffffffff.

(** errno values of Linux. *)
Definition EINTR : Z := 4.
Definition EAGAIN : Z := 11.

Inductive VkResult :=
| VK_SUCCESS
| VK_NOT_READY
| VK_SUBOPTIMAL_KHR
| VK_ERROR_OUT_OF_DATE_KHR
| VK_ERROR_OUT_OF_HOST_MEMORY
| VK_ERROR_SURFACE_LOST_KHR.

Inductive VkPresentModeKHR :=
| VK_PRESENT_MODE_IMMEDIATE_KHR
| VK_PRESENT_MODE_MAILBOX_KHR
| VK_PRESENT_MODE_FIFO_KHR.

#[global] Instance VkResult_eq_dec : EqDecision VkResult.
Proof. solve_decision. Defined.

#[global] Instance VkPresentModeKHR_eq_dec : EqDecision VkPresentModeKHR.
Proof. solve_decision. Defined.

(** ** The allocator

    [u_vector_init], [u_vector_init_pow2] and [u_vector_add] can fail when
    memory is exhausted.  The outcomes of the allocation requests still to
    come are an oracle: a list of booleans consumed front to back, an
    exhausted list meaning that every further request is granted.  Every
    insertion asks the oracle, also one that would find room in the vector:
    what holds for all oracles holds for the allocator. *)

Definition heap := list bool.

Definition M (A : Type) : Type := heap -> A * heap.

#[global] Instance M_ret : MRet M := fun A (a : A) h => (a, h).

#[global] Instance M_bind : MBind M :=
  fun A B (k : A -> M B) (c : M A) h => let (a, h') := c h in k a h'.

Definition malloc : M bool :=
  fun h => match h with
           | [] => (true, [])
           | granted :: h' => (granted, h')
           end.

(** ** Format catalog *)

Abbreviation u_vector A := (list A) (only parsing).

(** Modelled from the spec: [u_vector_add] of util/u_vector.h, which is not
    among the sources.  The vector grows by the element at its head; on
    allocation exhaustion the insertion is not recorded and the result is
    [NULL], here [None]. *)
Definition u_vector_add {A} (v : u_vector A) (x : A) : M (option (u_vector A)) :=
  granted ← malloc;
  mret (if granted : bool then Some (v ++ [x]) else None).

Record wsi_wl_format := {
  vk_format : VkFormat;
  flags : Z;
  modifiers : u_vector Z;
}.

Definition WSI_WL_FMT_ALPHA : Z := Z.shiftl 1 0.
Definition WSI_WL_FMT_OPAQUE : Z := Z.shiftl 1 1.

(** What this file reads of [struct wsi_device]: the
    [optimalTilingFeatures] that [GetPhysicalDeviceFormatProperties] reports
    for a format and the capability flags, with the build's
    [MESA_LITTLE_ENDIAN] and whether [WSI_DEBUG] has [WSI_DEBUG_NOSHM]. *)
Record wsi_device := {
  MESA_LITTLE_ENDIAN : bool;
  optimalTilingFeatures : VkFormat -> Z;
  sw : bool;
  supports_modifiers : bool;
  has_import_memory_host : bool;
  WSI_DEBUG_NOSHM : bool;
}.

(** [find_format]: the first entry of that format, as the pair of its index
    (the pointer the C function returns) and the entry it points to. *)
Definition find_format (formats : u_vector wsi_wl_format) (format : VkFormat)
  : option (nat * wsi_wl_format) :=
  list_find (fun f => vk_format f = format) formats.

Definition or_flags (fl : Z) (f : wsi_wl_format) : wsi_wl_format :=
  {| vk_format := vk_format f;
     flags := Z.lor (flags f) fl;
     modifiers := modifiers f |}.

(** [wsi_wl_display_add_vk_format]: the entry it returns, as an index into
    the catalog it leaves.  Its [assert] on [flags] is a precondition of the
    callers and is not evaluated here. *)
Definition wsi_wl_display_add_vk_format (wsi : wsi_device)
    (formats : u_vector wsi_wl_format) (format : VkFormat) (fl : Z)
  : M (option nat * u_vector wsi_wl_format) :=
  match find_format formats format with
  | Some (i, _) =>
      (* Don't add a format that's already in the list *)
      mret (Some i, alter (or_flags fl) i formats)
  | None =>
      (* Don't add formats that aren't renderable. *)
      if Z.land (optimalTilingFeatures wsi format)
                VK_FORMAT_FEATURE_COLOR_ATTACHMENT_BIT =? 0
      then mret (None, formats)
      else
        init ← malloc;
        if negb init then mret (None, formats)
        else
          added ← u_vector_add formats
                     {| vk_format := format; flags := fl; modifiers := [] |};
          match added with
          | None => mret (None, formats)
          | Some formats' => mret (Some (length formats), formats')
          end
  end.

Definition wsi_wl_format_add_modifier (format : wsi_wl_format) (modifier : Z)
  : M wsi_wl_format :=
  if modifier =? DRM_FORMAT_MOD_INVALID then mret format
  else if existsb (Z.eqb modifier) (modifiers format) then mret format
  else
    added ← u_vector_add (modifiers format) modifier;
    match added with
    | Some mods =>
        mret {| vk_format := vk_format format;
               flags := flags format;
               modifiers := mods |}
    | None => mret format
    end.

Definition wsi_wl_display_add_vk_format_modifier (wsi : wsi_device)
    (formats : u_vector wsi_wl_format) (format : VkFormat) (fl : Z)
    (modifier : Z) : M (u_vector wsi_wl_format) :=
  '(f, formats') ← wsi_wl_display_add_vk_format wsi formats format fl;
  match f with
  | None => mret formats'
  | Some i =>
      match formats' !! i with
      | None => mret formats'
      | Some entry =>
          entry' ← wsi_wl_format_add_modifier entry modifier;
          mret (<[i := entry']> formats')
      end
  end.

(** The [switch] of [wsi_wl_display_add_drm_format_modifier] as a table: for
    each DRM format, the calls of [wsi_wl_display_add_vk_format_modifier] of
    its case, in order.  The cases under [#if 0] are absent; the packed
    formats exist on little-endian builds only. *)
Definition both : Z := Z.lor WSI_WL_FMT_ALPHA WSI_WL_FMT_OPAQUE.

Definition packed_case (drm_format : Z) : list (VkFormat * Z) :=
  if drm_format =? DRM_FORMAT_RGBA4444 then
    [(VK_FORMAT_R4G4B4A4_UNORM_PACK16, WSI_WL_FMT_ALPHA)]
  else if drm_format =? DRM_FORMAT_RGBX4444 then
    [(VK_FORMAT_R4G4B4A4_UNORM_PACK16, WSI_WL_FMT_OPAQUE)]
  else if drm_format =? DRM_FORMAT_BGRA4444 then
    [(VK_FORMAT_B4G4R4A4_UNORM_PACK16, WSI_WL_FMT_ALPHA)]
  else if drm_format =? DRM_FORMAT_BGRX4444 then
    [(VK_FORMAT_B4G4R4A4_UNORM_PACK16, WSI_WL_FMT_OPAQUE)]
  else if drm_format =? DRM_FORMAT_RGB565 then
    [(VK_FORMAT_R5G6B5_UNORM_PACK16, both)]
  else if drm_format =? DRM_FORMAT_BGR565 then
    [(VK_FORMAT_B5G6R5_UNORM_PACK16, both)]
  else if drm_format =? DRM_FORMAT_ARGB1555 then
    [(VK_FORMAT_A1R5G5B5_UNORM_PACK16, WSI_WL_FMT_ALPHA)]
  else if drm_format =? DRM_FORMAT_XRGB1555 then
    [(VK_FORMAT_A1R5G5B5_UNORM_PACK16, WSI_WL_FMT_OPAQUE)]
  else if drm_format =? DRM_FORMAT_RGBA5551 then
    [(VK_FORMAT_R5G5B5A1_UNORM_PACK16, WSI_WL_FMT_ALPHA)]
  else if drm_format =? DRM_FORMAT_RGBX5551 then
    [(VK_FORMAT_R5G5B5A1_UNORM_PACK16, WSI_WL_FMT_OPAQUE)]
  else if drm_format =? DRM_FORMAT_BGRA5551 then
    [(VK_FORMAT_B5G5R5A1_UNORM_PACK16, WSI_WL_FMT_ALPHA)]
  else if drm_format =? DRM_FORMAT_BGRX5551 then
    [(VK_FORMAT_B5G5R5A1_UNORM_PACK16, WSI_WL_FMT_OPAQUE)]
  else if drm_format =? DRM_FORMAT_ARGB2101010 then
    [(VK_FORMAT_A2R10G10B10_UNORM_PACK32, WSI_WL_FMT_ALPHA)]
  else if drm_format =? DRM_FORMAT_XRGB2101010 then
    [(VK_FORMAT_A2R10G10B10_UNORM_PACK32, WSI_WL_FMT_OPAQUE)]
  else if drm_format =? DRM_FORMAT_ABGR2101010 then
    [(VK_FORMAT_A2B10G10R10_UNORM_PACK32, WSI_WL_FMT_ALPHA)]
  else if drm_format =? DRM_FORMAT_XBGR2101010 then
    [(VK_FORMAT_A2B10G10R10_UNORM_PACK32, WSI_WL_FMT_OPAQUE)]
  else [].

Definition unpacked_case (drm_format : Z) : list (VkFormat * Z) :=
  if drm_format =? DRM_FORMAT_XBGR8888 then
    [(VK_FORMAT_R8G8B8_SRGB, both);
     (VK_FORMAT_R8G8B8_UNORM, both);
     (VK_FORMAT_R8G8B8A8_SRGB, WSI_WL_FMT_OPAQUE);
     (VK_FORMAT_R8G8B8A8_UNORM, WSI_WL_FMT_OPAQUE)]
  else if drm_format =? DRM_FORMAT_ABGR8888 then
    [(VK_FORMAT_R8G8B8A8_SRGB, WSI_WL_FMT_ALPHA);
     (VK_FORMAT_R8G8B8A8_UNORM, WSI_WL_FMT_ALPHA)]
  else if drm_format =? DRM_FORMAT_XRGB8888 then
    [(VK_FORMAT_B8G8R8_SRGB, both);
     (VK_FORMAT_B8G8R8_UNORM, both);
     (VK_FORMAT_B8G8R8A8_SRGB, WSI_WL_FMT_OPAQUE);
     (VK_FORMAT_B8G8R8A8_UNORM, WSI_WL_FMT_OPAQUE)]
  else if drm_format =? DRM_FORMAT_ARGB8888 then
    [(VK_FORMAT_B8G8R8A8_SRGB, WSI_WL_FMT_ALPHA);
     (VK_FORMAT_B8G8R8A8_UNORM, WSI_WL_FMT_ALPHA)]
  else [].

Definition drm_format_cases (wsi : wsi_device) (drm_format : Z)
  : list (VkFormat * Z) :=
  match (if MESA_LITTLE_ENDIAN wsi then packed_case drm_format else []) with
  | [] => unpacked_case drm_format
  | calls => calls
  end.

Fixpoint add_vk_format_modifiers (wsi : wsi_device)
    (formats : u_vector wsi_wl_format) (calls : list (VkFormat * Z))
    (modifier : Z) : M (u_vector wsi_wl_format) :=
  match calls with
  | [] => mret formats
  | (format, fl) :: calls' =>
      formats' ← wsi_wl_display_add_vk_format_modifier wsi formats format fl
                    modifier;
      add_vk_format_modifiers wsi formats' calls' modifier
  end.

Definition wsi_wl_display_add_drm_format_modifier (wsi : wsi_device)
    (formats : u_vector wsi_wl_format) (drm_format : Z) (modifier : Z)
  : M (u_vector wsi_wl_format) :=
  add_vk_format_modifiers wsi formats (drm_format_cases wsi drm_format)
    modifier.

(** ** Feedback state *)

(** One record of the format table the compositor shares. *)
Record table_entry := {
  entry_format : Z;
  entry_padding : Z;
  entry_modifier : Z;
}.

(** [format_table.data]: [NULL], [MAP_FAILED], or the address of a mapping,
    given by the records that lie inside the mapped region. *)
Inductive table_ptr :=
| NULL
| MAP_FAILED
| mapped (region : list table_entry).

Record dmabuf_feedback_format_table := {
  table_size : Z;
  table_data : table_ptr;
}.

(** [formats_data] tells whether [formats.data] is set.  It is not when
    the [u_vector_init] of [dmabuf_feedback_tranche_init] could not allocate:
    the vector then counts no element and has room for none. *)
Record dmabuf_feedback_tranche := {
  target_device : Z;
  tranche_flags : Z;
  formats : u_vector wsi_wl_format;
  formats_data : bool;
}.

Record struct_dmabuf_feedback := {
  main_device : Z;
  format_table : dmabuf_feedback_format_table;
  tranches : list dmabuf_feedback_tranche;
  pending_tranche : dmabuf_feedback_tranche;
}.

(** [mmap(NULL, size, PROT_READ, MAP_PRIVATE, fd, 0)]: the file behind [fd]
    is the list of its records ([None] when it cannot be mapped); a mapping
    of [size] bytes holds the records that fit in [size] bytes, 16 bytes
    each.  The region is the [size] bytes asked for: what the kernel maps
    beyond them to fill a page is not part of the table. *)
Definition mmap (size : Z) (fd : option (list table_entry)) : table_ptr :=
  match fd with
  | None => MAP_FAILED
  | Some file =>
      if size <=? 0 then MAP_FAILED
      else mapped (take (Z.to_nat (size `div` 16)) file)
  end.

(** [dmabuf_feedback_format_table_init]: the table is zeroed. *)
Definition dmabuf_feedback_format_table_init : dmabuf_feedback_format_table :=
  {| table_size := 0; table_data := NULL |}.

(** [dmabuf_feedback_tranche_init]: its result, [-1] when [u_vector_init]
    could not allocate, and the tranche it leaves, which the [memset] has
    zeroed in both cases. *)
Definition dmabuf_feedback_tranche_init : M (Z * dmabuf_feedback_tranche) :=
  granted ← malloc;
  mret (if granted : bool then 0 else -1,
        {| target_device := 0; tranche_flags := 0; formats := [];
           formats_data := granted |}).

(** [dmabuf_feedback_init]: its result and the feedback it leaves.  When it
    returns [-1] the array of tranches and the format table are as the
    [memset] left them, which is what their initialisation makes of them. *)
Definition dmabuf_feedback_init : M (Z * struct_dmabuf_feedback) :=
  '(ret, tranche) ← dmabuf_feedback_tranche_init;
  mret (if ret <? 0 then -1 else 0,
        {| main_device := 0;
           format_table := dmabuf_feedback_format_table_init;
           tranches := [];
           pending_tranche := tranche |}).

(** ** Swapchain *)

Inductive wsi_wl_buffer_type :=
| WSI_WL_BUFFER_NATIVE
| WSI_WL_BUFFER_GPU_SHM
| WSI_WL_BUFFER_SHM_MEMCPY.

Record wsi_wl_image := {
  buffer : nat;
  busy : bool;
}.

(** [chain->drm_modifiers] is a borrowed pointer: [u_vector_tail] of the
    modifiers of a catalog entry that the swapchain does not own.  The entry
    lives either in [display->formats], which outlives the swapchain, or in
    the surface's committed feedback, whose vectors [dmabuf_feedback_fini]
    releases at the next commit. *)
Inductive modifiers_ptr :=
| mods_NULL
| mods_of_display (ms : list Z)
| mods_of_feedback (ms : list Z)
| mods_released.

Record wsi_wl_swapchain := {
  frame : option nat;
  chain_vk_format : VkFormat;
  buffer_type : wsi_wl_buffer_type;
  suboptimal : bool;
  num_drm_modifiers : nat;
  drm_modifiers : modifiers_ptr;
  present_mode : VkPresentModeKHR;
  fifo_ready : bool;
  images : list wsi_wl_image;
}.

(** [chain->base.image_count]: the flexible array [images] is allocated with
    exactly that many elements. *)
Definition image_count (c : wsi_wl_swapchain) : nat := length (images c).

(** ** The surface, its swapchain and the connection

    The surface with the swapchain that owns it ([surface->chain] and
    [chain->wsi_wl_surface] point at each other), what the handlers read of
    the display, the allocator oracle, and the requests sent so far, oldest
    first.  [wl_dmabuf] and [wl_dmabuf_feedback] tell whether the pointers
    of these names are set. *)

Inductive wl_request :=
| memcpy_shm (image_index : nat)
| wl_surface_attach (buf : nat) (x y : Z)
| wl_surface_damage_buffer (x y width height : Z)
| wl_surface_damage (x y width height : Z)
| wl_surface_frame (callback : nat)
| wl_surface_commit
| wl_display_flush.

Record world := {
  wsi : wsi_device;
  wl_surface_version : Z;
  wl_dmabuf : bool;
  display_formats : u_vector wsi_wl_format;
  wl_dmabuf_feedback : bool;
  chain : wsi_wl_swapchain;
  dmabuf_feedback : struct_dmabuf_feedback;
  pending_dmabuf_feedback : struct_dmabuf_feedback;
  mem : heap;
  wire : list wl_request;
}.

Definition set_chain (c : wsi_wl_swapchain) (w : world) : world :=
  {| wsi := wsi w; wl_surface_version := wl_surface_version w;
     wl_dmabuf := wl_dmabuf w; display_formats := display_formats w;
     wl_dmabuf_feedback := wl_dmabuf_feedback w;
     chain := c;
     dmabuf_feedback := dmabuf_feedback w;
     pending_dmabuf_feedback := pending_dmabuf_feedback w;
     mem := mem w; wire := wire w |}.

Definition set_dmabuf_feedback (fb : struct_dmabuf_feedback) (w : world)
  : world :=
  {| wsi := wsi w; wl_surface_version := wl_surface_version w;
     wl_dmabuf := wl_dmabuf w; display_formats := display_formats w;
     wl_dmabuf_feedback := wl_dmabuf_feedback w;
     chain := chain w;
     dmabuf_feedback := fb;
     pending_dmabuf_feedback := pending_dmabuf_feedback w;
     mem := mem w; wire := wire w |}.

Definition set_pending_dmabuf_feedback (fb : struct_dmabuf_feedback)
    (w : world) : world :=
  {| wsi := wsi w; wl_surface_version := wl_surface_version w;
     wl_dmabuf := wl_dmabuf w; display_formats := display_formats w;
     wl_dmabuf_feedback := wl_dmabuf_feedback w;
     chain := chain w;
     dmabuf_feedback := dmabuf_feedback w;
     pending_dmabuf_feedback := fb;
     mem := mem w; wire := wire w |}.

Definition set_mem (h : heap) (w : world) : world :=
  {| wsi := wsi w; wl_surface_version := wl_surface_version w;
     wl_dmabuf := wl_dmabuf w; display_formats := display_formats w;
     wl_dmabuf_feedback := wl_dmabuf_feedback w;
     chain := chain w;
     dmabuf_feedback := dmabuf_feedback w;
     pending_dmabuf_feedback := pending_dmabuf_feedback w;
     mem := h; wire := wire w |}.

Definition send (rs : list wl_request) (w : world) : world :=
  {| wsi := wsi w; wl_surface_version := wl_surface_version w;
     wl_dmabuf := wl_dmabuf w; display_formats := display_formats w;
     wl_dmabuf_feedback := wl_dmabuf_feedback w;
     chain := chain w;
     dmabuf_feedback := dmabuf_feedback w;
     pending_dmabuf_feedback := pending_dmabuf_feedback w;
     mem := mem w; wire := wire w ++ rs |}.

Definition set_format_table (t : dmabuf_feedback_format_table)
    (fb : struct_dmabuf_feedback) : struct_dmabuf_feedback :=
  {| main_device := main_device fb;
     format_table := t;
     tranches := tranches fb;
     pending_tranche := pending_tranche fb |}.

Definition set_main_device (d : Z) (fb : struct_dmabuf_feedback)
  : struct_dmabuf_feedback :=
  {| main_device := d;
     format_table := format_table fb;
     tranches := tranches fb;
     pending_tranche := pending_tranche fb |}.

Definition set_tranches (ts : list dmabuf_feedback_tranche)
    (fb : struct_dmabuf_feedback) : struct_dmabuf_feedback :=
  {| main_device := main_device fb;
     format_table := format_table fb;
     tranches := ts;
     pending_tranche := pending_tranche fb |}.

Definition set_pending_tranche (t : dmabuf_feedback_tranche)
    (fb : struct_dmabuf_feedback) : struct_dmabuf_feedback :=
  {| main_device := main_device fb;
     format_table := format_table fb;
     tranches := tranches fb;
     pending_tranche := t |}.

Definition set_suboptimal (b : bool) (c : wsi_wl_swapchain)
  : wsi_wl_swapchain :=
  {| frame := frame c; chain_vk_format := chain_vk_format c;
     buffer_type := buffer_type c; suboptimal := b;
     num_drm_modifiers := num_drm_modifiers c;
     drm_modifiers := drm_modifiers c;
     present_mode := present_mode c; fifo_ready := fifo_ready c;
     images := images c |}.

Definition set_drm_modifiers (p : modifiers_ptr) (c : wsi_wl_swapchain)
  : wsi_wl_swapchain :=
  {| frame := frame c; chain_vk_format := chain_vk_format c;
     buffer_type := buffer_type c; suboptimal := suboptimal c;
     num_drm_modifiers := num_drm_modifiers c;
     drm_modifiers := p;
     present_mode := present_mode c; fifo_ready := fifo_ready c;
     images := images c |}.

Definition set_frame (cb : option nat) (ready : bool) (c : wsi_wl_swapchain)
  : wsi_wl_swapchain :=
  {| frame := cb; chain_vk_format := chain_vk_format c;
     buffer_type := buffer_type c; suboptimal := suboptimal c;
     num_drm_modifiers := num_drm_modifiers c;
     drm_modifiers := drm_modifiers c;
     present_mode := present_mode c; fifo_ready := ready;
     images := images c |}.

Definition set_images (imgs : list wsi_wl_image) (c : wsi_wl_swapchain)
  : wsi_wl_swapchain :=
  {| frame := frame c; chain_vk_format := chain_vk_format c;
     buffer_type := buffer_type c; suboptimal := suboptimal c;
     num_drm_modifiers := num_drm_modifiers c;
     drm_modifiers := drm_modifiers c;
     present_mode := present_mode c; fifo_ready := fifo_ready c;
     images := imgs |}.

Definition set_busy (b : bool) (img : wsi_wl_image) : wsi_wl_image :=
  {| buffer := buffer img; busy := b |}.

Definition set_formats (fs : u_vector wsi_wl_format)
    (t : dmabuf_feedback_tranche) : dmabuf_feedback_tranche :=
  {| target_device := target_device t;
     tranche_flags := tranche_flags t;
     formats := fs;
     formats_data := formats_data t |}.

Definition set_target_device (d : Z) (t : dmabuf_feedback_tranche)
  : dmabuf_feedback_tranche :=
  {| target_device := d;
     tranche_flags := tranche_flags t;
     formats := formats t;
     formats_data := formats_data t |}.

Definition set_tranche_flags (fl : Z) (t : dmabuf_feedback_tranche)
  : dmabuf_feedback_tranche :=
  {| target_device := target_device t;
     tranche_flags := fl;
     formats := formats t;
     formats_data := formats_data t |}.

(** ** Feedback listeners of a surface *)

(** [pick_format_from_surface_dmabuf_feedback]: the entry of the first
    tranche that lists the format. *)
Fixpoint pick_format_from_tranches (ts : list dmabuf_feedback_tranche)
    (format : VkFormat) : option wsi_wl_format :=
  match ts with
  | [] => None
  | tranche :: ts' =>
      match find_format (formats tranche) format with
      | Some (_, f) => Some f
      | None => pick_format_from_tranches ts' format
      end
  end.

Definition pick_format_from_surface_dmabuf_feedback
    (feedback : struct_dmabuf_feedback) (format : VkFormat)
  : option wsi_wl_format :=
  (* If the main_device was not advertised, we don't have valid feedback *)
  if main_device feedback =? 0 then None
  else pick_format_from_tranches (tranches feedback) format.

Definition surface_dmabuf_feedback_format_table (w : world)
    (fd : option (list table_entry)) (size : Z) : world :=
  set_pending_dmabuf_feedback
    (set_format_table {| table_size := size; table_data := mmap size fd |}
       (pending_dmabuf_feedback w)) w.

Definition surface_dmabuf_feedback_main_device (w : world) (device : Z)
  : world :=
  set_pending_dmabuf_feedback
    (set_main_device device (pending_dmabuf_feedback w)) w.

Definition surface_dmabuf_feedback_tranche_target_device (w : world)
    (device : Z) : world :=
  let feedback := pending_dmabuf_feedback w in
  set_pending_dmabuf_feedback
    (set_pending_tranche
       (set_target_device device (pending_tranche feedback)) feedback) w.

Definition surface_dmabuf_feedback_tranche_flags (w : world) (fl : Z)
  : world :=
  let feedback := pending_dmabuf_feedback w in
  set_pending_dmabuf_feedback
    (set_pending_tranche
       (set_tranche_flags fl (pending_tranche feedback)) feedback) w.

(** The body of [wl_array_for_each(index, indices)] in the two
    [tranche_formats] listeners: [data[*index]] is read with the index as it
    came; a record that is not in the mapped region makes the read undefined
    ([None]). *)
Fixpoint resolve_indices (dev : wsi_device) (region : list table_entry)
    (fs : u_vector wsi_wl_format) (indices : list N) (h : heap)
  : option (u_vector wsi_wl_format * heap) :=
  match indices with
  | [] => Some (fs, h)
  | index :: indices' =>
      match region !! N.to_nat index with
      | None => None
      | Some e =>
          let (fs', h') :=
            wsi_wl_display_add_drm_format_modifier dev fs
              (entry_format e) (entry_modifier e) h in
          resolve_indices dev region fs' indices' h'
      end
  end.

(** The calls of a case of [wsi_wl_display_add_drm_format_modifier] when
    the vector [formats] has no [data] (and so no element): [find_format]
    finds nothing; a format that is not renderable is skipped, and so is one
    whose vector of modifiers is refused; the next format reaches
    [u_vector_add] (of util/u_vector.h, which is not among the sources),
    which hands out [data + offset] with [data] being [NULL] and counts an
    element that has no storage: undefined behaviour, [false] here.  [true]
    means that the calls return with the vector untouched. *)
Fixpoint add_vk_format_modifiers_no_data (wsi : wsi_device)
    (calls : list (VkFormat * Z)) : M bool :=
  match calls with
  | [] => mret true
  | (format, _) :: calls' =>
      if Z.land (optimalTilingFeatures wsi format)
                VK_FORMAT_FEATURE_COLOR_ATTACHMENT_BIT =? 0
      then add_vk_format_modifiers_no_data wsi calls'
      else
        init ← malloc;
        if negb init then add_vk_format_modifiers_no_data wsi calls'
        else mret false
  end.

(** The body of [wl_array_for_each(index, indices)] on a pending tranche
    whose vector has no [data]. *)
Fixpoint resolve_indices_no_data (dev : wsi_device)
    (region : list table_entry) (indices : list N) (h : heap)
  : option heap :=
  match indices with
  | [] => Some h
  | index :: indices' =>
      match region !! N.to_nat index with
      | None => None
      | Some e =>
          let (returned, h') :=
            add_vk_format_modifiers_no_data dev
              (drm_format_cases dev (entry_format e)) h in
          if returned : bool
          then resolve_indices_no_data dev region indices' h'
          else None
      end
  end.

(** The first statement of [surface_dmabuf_feedback_tranche_formats]: with no
    table in the pending feedback, steal the one of the committed
    feedback. *)
Definition steal_format_table (w : world) : world :=
  match table_data (format_table (pending_dmabuf_feedback w)) with
  | NULL =>
      set_dmabuf_feedback
        (set_format_table dmabuf_feedback_format_table_init
           (dmabuf_feedback w))
        (set_pending_dmabuf_feedback
           (set_format_table (format_table (dmabuf_feedback w))
              (pending_dmabuf_feedback w)) w)
  | _ => w
  end.

Definition surface_dmabuf_feedback_tranche_formats (w : world)
    (indices : list N) : option world :=
  let w1 := steal_format_table w in
  let feedback := pending_dmabuf_feedback w1 in
  match table_data (format_table feedback) with
  | MAP_FAILED | NULL => Some w1
  | mapped region =>
      if formats_data (pending_tranche feedback) then
        '(fs, h) ← resolve_indices (wsi w1) region
                     (formats (pending_tranche feedback)) indices (mem w1);
        Some (set_mem h
                (set_pending_dmabuf_feedback
                   (set_pending_tranche
                      (set_formats fs (pending_tranche feedback)) feedback)
                   w1))
      else
        h ← resolve_indices_no_data (wsi w1) region indices (mem w1);
        Some (set_mem h w1)
  end.

(** [default_dmabuf_feedback_tranche_formats], the listener of the
    connection-wide feedback, on [display->format_table] and
    [display->formats]. *)
Definition default_dmabuf_feedback_tranche_formats (dev : wsi_device)
    (table : dmabuf_feedback_format_table) (fs : u_vector wsi_wl_format)
    (indices : list N) (h : heap) : option (u_vector wsi_wl_format * heap) :=
  match table_data table with
  | MAP_FAILED | NULL => Some (fs, h)
  | mapped region => resolve_indices dev region fs indices h
  end.

(** The result of [dmabuf_feedback_tranche_init] is not looked at. *)
Definition surface_dmabuf_feedback_tranche_done (w : world) : world :=
  let feedback := pending_dmabuf_feedback w in
  (* Add tranche to array of tranches. *)
  let '(_, tranche, h) := dmabuf_feedback_tranche_init (mem w) in
  set_mem h
    (set_pending_dmabuf_feedback
       (set_pending_tranche tranche
          (set_tranches (tranches feedback ++ [pending_tranche feedback])
             feedback)) w).

(** [modifiers[j]] *)
Definition read_modifier (p : modifiers_ptr) (j : nat) : option Z :=
  match p with
  | mods_of_display ms | mods_of_feedback ms => ms !! j
  | mods_NULL | mods_released => None
  end.

(** The inner loop of [sets_of_modifiers_are_the_same], from [j] with [n]
    elements of [B] left. *)
Fixpoint mod_found (a : Z) (modifiers_B : modifiers_ptr) (j n : nat)
  : option bool :=
  match n with
  | O => Some false
  | S n' =>
      b ← read_modifier modifiers_B j;
      if a =? b then Some true else mod_found a modifiers_B (S j) n'
  end.

(** The outer loop, from [i] with [n] elements of [A] left. *)
Fixpoint all_found (modifiers_A modifiers_B : modifiers_ptr)
    (num_drm_modifiers_B : nat) (i n : nat) : option bool :=
  match n with
  | O => Some true
  | S n' =>
      a ← read_modifier modifiers_A i;
      found ← mod_found a modifiers_B 0 num_drm_modifiers_B;
      if found : bool
      then all_found modifiers_A modifiers_B num_drm_modifiers_B (S i) n'
      else Some false
  end.

Definition sets_of_modifiers_are_the_same
    (num_drm_modifiers_A : nat) (modifiers_A : modifiers_ptr)
    (num_drm_modifiers_B : nat) (modifiers_B : modifiers_ptr)
  : option bool :=
  if bool_decide (num_drm_modifiers_A = num_drm_modifiers_B)
  then all_found modifiers_A modifiers_B num_drm_modifiers_B 0
         num_drm_modifiers_A
  else Some false.

(** What [dmabuf_feedback_fini] on the committed feedback does to a pointer
    the swapchain borrowed from it. *)
Definition after_dmabuf_feedback_fini (p : modifiers_ptr) : modifiers_ptr :=
  match p with
  | mods_of_feedback _ => mods_released
  | _ => p
  end.

(** The result of [dmabuf_feedback_init] is not looked at. *)
Definition surface_dmabuf_feedback_done (w : world) : option world :=
  let c := set_drm_modifiers (after_dmabuf_feedback_fini (drm_modifiers (chain w)))
             (chain w) in
  let '(_, pending, h) := dmabuf_feedback_init (mem w) in
  let w1 :=
    set_chain c
      (set_dmabuf_feedback (pending_dmabuf_feedback w)
         (set_pending_dmabuf_feedback pending (set_mem h w))) in
  match pick_format_from_surface_dmabuf_feedback (dmabuf_feedback w1)
          (chain_vk_format c) with
  | None => Some w1
  | Some f =>
      same ← sets_of_modifiers_are_the_same
               (length (modifiers f)) (mods_of_feedback (modifiers f))
               (num_drm_modifiers c) (drm_modifiers c);
      if same : bool then Some w1
      else Some (set_chain (set_suboptimal true c) w1)
  end.

(** ** Listeners of the swapchain's objects *)

Definition frame_handle_done (w : world) : world :=
  set_chain (set_frame None true (chain w)) w.

Definition buffer_handle_release (w : world) (image : nat) : world :=
  set_chain (set_images (alter (set_busy false) image (images (chain w)))
               (chain w)) w.

(** ** Events and their dispatch *)

Inductive wl_event :=
| format_table_event (fd : option (list table_entry)) (size : Z)
| main_device_event (device : Z)
| tranche_target_device_event (device : Z)
| tranche_flags_event (fl : Z)
| tranche_formats_event (indices : list N)
| tranche_done_event
| done_event
| frame_done_event
| buffer_release_event (image : nat).

Definition dispatch_event (w : world) (e : wl_event) : option world :=
  match e with
  | format_table_event fd size =>
      Some (surface_dmabuf_feedback_format_table w fd size)
  | main_device_event device =>
      Some (surface_dmabuf_feedback_main_device w device)
  | tranche_target_device_event device =>
      Some (surface_dmabuf_feedback_tranche_target_device w device)
  | tranche_flags_event fl =>
      Some (surface_dmabuf_feedback_tranche_flags w fl)
  | tranche_formats_event indices =>
      surface_dmabuf_feedback_tranche_formats w indices
  | tranche_done_event => Some (surface_dmabuf_feedback_tranche_done w)
  | done_event => surface_dmabuf_feedback_done w
  | frame_done_event => Some (frame_handle_done w)
  | buffer_release_event image => Some (buffer_handle_release w image)
  end.

Fixpoint dispatch_events (w : world) (events : list wl_event)
  : option world :=
  match events with
  | [] => Some w
  | e :: events' =>
      w' ← dispatch_event w e;
      dispatch_events w' events'
  end.

(** ** Calls that wait on the connection

    A call that waits is run against what the connection answers, one answer
    per call made on it.  [Returns] is the value of [return]; [Blocked] means
    that the answers given so far leave the call waiting; [Undefined] is a
    read or write outside live storage. *)

Inductive outcome (A : Type) :=
| Returns (a : A)
| Blocked
| Undefined.

Arguments Returns {A} a.
Arguments Blocked {A}.
Arguments Undefined {A}.

(** The result of [wl_display_dispatch_queue] and of
    [wl_display_dispatch_queue_pending]: [-1], or the events whose listeners
    ran. *)
Inductive dispatched :=
| dispatch_error
| dispatch_ok (events : list wl_event).

(** What one turn of the loop of [wsi_wl_swapchain_acquire_next_image]
    observes, in program order; a call the turn does not reach leaves its
    answer unused. *)
Record iteration := {
  dispatch_queue_pending : dispatched;
  clock_gettime : Z;
  prepare_read_queue : Z * Z;   (* ret, errno *)
  ppoll : Z * Z;                (* ret, errno *)
  read_events : Z;              (* ret *)
}.

(** Modelled from the spec: [timespec_after] of util/timespec.h, which is
    not among the sources; times are nanoseconds of the monotonic clock, and
    [timespec_after a b] tells whether [a] has passed [b]. *)
Definition timespec_after (a b : Z) : bool := b <? a.

(** The scan for a free image: the lowest index whose image is not busy. *)
Definition find_free_image (c : wsi_wl_swapchain)
  : option (nat * wsi_wl_image) :=
  list_find (fun img => busy img = false) (images c).

Definition acquire_result := (VkResult * option nat * world)%type.

Fixpoint acquire_loop (w : world) (end_time : Z) (its : list iteration)
  : outcome acquire_result :=
  match its with
  | [] => Blocked
  | it :: its' =>
      (* Try to dispatch potential events. *)
      match dispatch_queue_pending it with
      | dispatch_error => Returns (VK_ERROR_OUT_OF_DATE_KHR, None, w)
      | dispatch_ok events =>
          match dispatch_events w events with
          | None => Undefined
          | Some w1 =>
              (* Try to find a free image. *)
              match find_free_image (chain w1) with
              | Some (i, _) =>
                  let c := chain w1 in
                  Returns
                    (if suboptimal c then VK_SUBOPTIMAL_KHR else VK_SUCCESS,
                     Some i,
                     set_chain
                       (set_images (alter (set_busy true) i (images c)) c)
                       w1)
              | None =>
                  (* Check for timeout. *)
                  if timespec_after (clock_gettime it) end_time
                  then Returns (VK_NOT_READY, None, w1)
                  else
                    (* Try to read events from the server. *)
                    let '(ret, errno) := prepare_read_queue it in
                    if ret <? 0 then
                      if errno =? EAGAIN then acquire_loop w1 end_time its'
                      else Returns (VK_ERROR_OUT_OF_DATE_KHR, None, w1)
                    else
                      let '(ret, lerrno) := ppoll it in
                      if ret <=? 0 then
                        if ret <? 0 then
                          (* If ppoll() was interrupted, try again. *)
                          if (lerrno =? EINTR) || (lerrno =? EAGAIN)
                          then acquire_loop w1 end_time its'
                          else Returns (VK_ERROR_OUT_OF_DATE_KHR, None, w1)
                        else acquire_loop w1 end_time its'
                      else
                        if read_events it <? 0
                        then Returns (VK_ERROR_OUT_OF_DATE_KHR, None, w1)
                        else acquire_loop w1 end_time its'
              end
          end
      end
  end.

(** [start_time] is the clock read at entry; [timeout] is [info->timeout]. *)
Definition wsi_wl_swapchain_acquire_next_image (w : world) (timeout : Z)
    (start_time : Z) (its : list iteration) : outcome acquire_result :=
  acquire_loop w (timeout + start_time) its.

Record VkRectLayerKHR := {
  offset_x : Z;
  offset_y : Z;
  extent_width : Z;
  extent_height : Z;
  layer : Z;
}.

Definition INT32_MAX : Z := 2147483647.

(** The loop [while (!chain->fifo_ready)] of [wsi_wl_swapchain_queue_present]:
    the state when it ends, with [None] when the loop is left with
    [fifo_ready] set and [Some result] for its [return result]. *)
Fixpoint wait_fifo_ready (w : world) (answers : list dispatched)
  : outcome (option VkResult * world) :=
  if fifo_ready (chain w) then Returns (None, w)
  else
    match answers with
    | [] => Blocked
    | dispatch_error :: _ => Returns (Some VK_ERROR_OUT_OF_DATE_KHR, w)
    | dispatch_ok events :: answers' =>
        match dispatch_events w events with
        | None => Undefined
        | Some w' => wait_fifo_ready w' answers'
        end
    end.

(** The value a [uint32_t] takes when it is passed for an [int32_t]
    parameter: the value itself up to [INT32_MAX], and 2^32 less beyond. *)
Definition int32_of_uint32 (u : Z) : Z :=
  (u + 2 ^ 31) `mod` 2 ^ 32 - 2 ^ 31.

(** The damage sent.  [rect->offset] is a pair of [int32_t];
    [rect->extent] is a pair of [uint32_t], which the [int32_t] parameters
    of [wl_surface_damage_buffer] receive converted. *)
Definition damage_requests (version : Z)
    (damage : option (list VkRectLayerKHR)) : list wl_request :=
  match damage with
  | Some (rect :: rects) =>
      if 4 <=? version then
        map (fun r => wl_surface_damage_buffer (offset_x r) (offset_y r)
                        (int32_of_uint32 (extent_width r))
                        (int32_of_uint32 (extent_height r)))
            (rect :: rects)
      else [wl_surface_damage 0 0 INT32_MAX INT32_MAX]
  | _ => [wl_surface_damage 0 0 INT32_MAX INT32_MAX]
  end.

(** The part of [wsi_wl_swapchain_queue_present] after the wait. *)
Definition submit (w : world) (image_index : nat)
    (damage : option (list VkRectLayerKHR)) : outcome (VkResult * world) :=
  match images (chain w) !! image_index with
  | None => Undefined
  | Some image =>
      let w1 :=
        send (wl_surface_attach (buffer image) 0 0
                :: damage_requests (wl_surface_version w) damage) w in
      let w2 :=
        if bool_decide (present_mode (chain w1) = VK_PRESENT_MODE_FIFO_KHR)
        then
          let callback := length (wire w1) in
          set_chain (set_frame (Some callback) false (chain w1))
            (send [wl_surface_frame callback] w1)
        else w1 in
      let c := chain w2 in
      Returns
        (VK_SUCCESS,
         send [wl_surface_commit; wl_display_flush]
           (set_chain
              (set_images (alter (set_busy true) image_index (images c)) c)
              w2))
  end.

(** The copy into the shared-memory buffer that opens
    [wsi_wl_swapchain_queue_present] for [WSI_WL_BUFFER_SHM_MEMCPY]; it reads
    [chain->images[image_index]]. *)
Definition copy_to_shm (w : world) (image_index : nat) : option world :=
  match buffer_type (chain w) with
  | WSI_WL_BUFFER_SHM_MEMCPY =>
      match images (chain w) !! image_index with
      | None => None
      | Some _ => Some (send [memcpy_shm image_index] w)
      end
  | _ => Some w
  end.

Definition wsi_wl_swapchain_queue_present (w : world) (image_index : nat)
    (damage : option (list VkRectLayerKHR)) (answers : list dispatched)
  : outcome (VkResult * world) :=
  match copy_to_shm w image_index with
  | None => Undefined
  | Some w0 =>
      if bool_decide (present_mode (chain w0) = VK_PRESENT_MODE_FIFO_KHR)
      then
        match wait_fifo_ready w0 answers with
        | Returns (None, w1) => submit w1 image_index damage
        | Returns (Some result, w1) => Returns (result, w1)
        | Blocked => Blocked
        | Undefined => Undefined
        end
      else submit w0 image_index damage
  end.

(** ** Surface queries *)

(** [wsi_wl_surface_get_support]: the value stored through [pSupported] and
    the result. *)
Definition wsi_wl_surface_get_support {Surface Device : Type}
    (surface : Surface) (wsi_device : Device) (queueFamilyIndex : Z)
  : VkResult * bool :=
  (VK_SUCCESS, true).

(** ** Swapchain creation *)

Record VkSwapchainCreateInfoKHR := {
  minImageCount : nat;
  imageFormat : VkFormat;
}.

(** What [wsi_wl_surface_init] does: nothing for a surface that has its
    display already; otherwise it fails, or it creates the display (learning
    whether [wl_dmabuf] exists and the display's formats), binds the surface
    feedback when the protocol version has it, and makes a round trip that
    runs the listeners on the events named. *)
Inductive surface_init_answer :=
| already_initialized
| init_failed (result : VkResult)
| initialized (has_dmabuf : bool) (fs : u_vector wsi_wl_format)
    (bound : bool) (roundtrip : list wl_event).

(** What the surroundings answer during [wsi_wl_surface_create_swapchain]. *)
Record create_answers := {
  surface_init : surface_init_answer;
  swapchain_init : VkResult;              (* wsi_swapchain_init *)
  get_present_mode : VkPresentModeKHR;    (* wsi_swapchain_get_present_mode *)
  image_init : nat -> VkResult * nat;     (* wsi_wl_image_init: result, wl_buffer *)
}.

(** The swapchain as [vk_zalloc] returns it. *)
Definition zeroed_chain : wsi_wl_swapchain :=
  {| frame := None; chain_vk_format := 0;
     buffer_type := WSI_WL_BUFFER_NATIVE; suboptimal := false;
     num_drm_modifiers := 0%nat; drm_modifiers := mods_NULL;
     present_mode := VK_PRESENT_MODE_IMMEDIATE_KHR; fifo_ready := false;
     images := [] |}.

(** [wsi_wl_surface_bind_to_dmabuf_feedback]: the two feedbacks are
    initialised, and a failure of either initialisation is returned, with no
    feedback object left. *)
Definition wsi_wl_surface_bind_to_dmabuf_feedback (w : world)
  : VkResult * world :=
  let '(ret, committed, h1) := dmabuf_feedback_init (mem w) in
  let w1 :=
    {| wsi := wsi w; wl_surface_version := wl_surface_version w;
       wl_dmabuf := wl_dmabuf w; display_formats := display_formats w;
       wl_dmabuf_feedback := false;
       chain := chain w;
       dmabuf_feedback := committed;
       pending_dmabuf_feedback := pending_dmabuf_feedback w;
       mem := h1; wire := wire w |} in
  if ret <? 0 then (VK_ERROR_OUT_OF_HOST_MEMORY, w1)
  else
    let '(ret, pending, h2) := dmabuf_feedback_init h1 in
    if ret <? 0
    then (VK_ERROR_OUT_OF_HOST_MEMORY,
          set_pending_dmabuf_feedback pending (set_mem h2 w1))
    else
      (VK_SUCCESS,
       {| wsi := wsi w; wl_surface_version := wl_surface_version w;
          wl_dmabuf := wl_dmabuf w; display_formats := display_formats w;
          wl_dmabuf_feedback := true;
          chain := chain w;
          dmabuf_feedback := committed;
          pending_dmabuf_feedback := pending;
          mem := h2; wire := wire w |}).

Definition wsi_wl_surface_init (w : world) (a : surface_init_answer)
  : option (VkResult * world) :=
  match a with
  | already_initialized => Some (VK_SUCCESS, w)
  | init_failed result => Some (result, w)
  | initialized has_dmabuf fs bound roundtrip =>
      let w1 :=
        {| wsi := wsi w; wl_surface_version := wl_surface_version w;
           wl_dmabuf := has_dmabuf; display_formats := fs;
           wl_dmabuf_feedback := false;
           chain := chain w;
           dmabuf_feedback := dmabuf_feedback w;
           pending_dmabuf_feedback := pending_dmabuf_feedback w;
           mem := mem w; wire := wire w |} in
      (* Bind wsi_wl_surface to dma-buf feedback. *)
      if bound then
        let '(result, w2) := wsi_wl_surface_bind_to_dmabuf_feedback w1 in
        if bool_decide (result ≠ VK_SUCCESS) then Some (result, w2)
        else
          w3 ← dispatch_events w2 roundtrip;
          Some (VK_SUCCESS, w3)
      else Some (VK_SUCCESS, w1)
  end.

(** The loop over the images at the end of creation: the images initialised
    so far, or the result of the [wsi_wl_image_init] that failed. *)
Fixpoint init_images (image_init : nat -> VkResult * nat) (i n : nat)
  : VkResult + list wsi_wl_image :=
  match n with
  | O => inr []
  | S n' =>
      match image_init i with
      | (VK_SUCCESS, buf) =>
          match init_images image_init (S i) n' with
          | inr imgs => inr ({| buffer := buf; busy := false |} :: imgs)
          | inl result => inl result
          end
      | (result, _) => inl result
      end
  end.

(** Which modifiers the swapchain allocates with, and where they live. *)
Definition select_modifiers (w : world) (format : VkFormat)
  : nat * modifiers_ptr :=
  if sw (wsi w) then (0%nat, mods_NULL)
  else if wl_dmabuf w && supports_modifiers (wsi w) then
    let from_feedback :=
      if wl_dmabuf_feedback w
      then pick_format_from_surface_dmabuf_feedback (dmabuf_feedback w) format
      else None in
    match from_feedback with
    | Some f => (length (modifiers f), mods_of_feedback (modifiers f))
    | None =>
        match find_format (display_formats w) format with
        | Some (_, f) => (length (modifiers f), mods_of_display (modifiers f))
        | None => (0%nat, mods_NULL)
        end
    end
  else (0%nat, mods_NULL).

Definition select_buffer_type (dev : wsi_device) : wsi_wl_buffer_type :=
  if sw dev then
    if has_import_memory_host dev && negb (WSI_DEBUG_NOSHM dev)
    then WSI_WL_BUFFER_GPU_SHM
    else WSI_WL_BUFFER_SHM_MEMCPY
  else WSI_WL_BUFFER_NATIVE.

(** [wsi_wl_surface_create_swapchain] on the surface of [w] (the swapchain
    [w] holds is the one losing the surface, if any).  [None] is undefined
    behaviour in a listener of the round trip; otherwise the result, and the
    new state when the result is [VK_SUCCESS]. *)
Definition wsi_wl_surface_create_swapchain (w : world)
    (pCreateInfo : VkSwapchainCreateInfoKHR) (a : create_answers)
  : option (VkResult * option world) :=
  let '(granted, h) := malloc (mem w) in
  if negb granted then Some (VK_ERROR_OUT_OF_HOST_MEMORY, None)
  else
    (* Take ownership of the wsi_wl_surface *)
    let w0 := set_chain zeroed_chain (set_mem h w) in
    '(result, w1) ← wsi_wl_surface_init w0 (surface_init a);
    if bool_decide (result ≠ VK_SUCCESS) then Some (result, None)
    else
      let '(num, mods) := select_modifiers w1 (imageFormat pCreateInfo) in
      if bool_decide (swapchain_init a ≠ VK_SUCCESS)
      then Some (swapchain_init a, None)
      else
        match init_images (image_init a) 0 (minImageCount pCreateInfo) with
        | inl result => Some (result, None)
        | inr imgs =>
            let c :=
              {| frame := frame (chain w1);
                 chain_vk_format := imageFormat pCreateInfo;
                 buffer_type := select_buffer_type (wsi w1);
                 suboptimal := suboptimal (chain w1);
                 num_drm_modifiers := num;
                 drm_modifiers := mods;
                 present_mode := get_present_mode a;
                 fifo_ready := true;
                 images := imgs |} in
            Some (VK_SUCCESS, Some (set_chain c w1))
        end.

(** ** Vocabulary of the properties *)

(** The invariant of a catalog: one entry per pixel format, no modifier twice
    in an entry, and the invalid modifier in none. *)
Definition catalog_ok (fs : u_vector wsi_wl_format) : Prop :=
  NoDup (vk_format <$> fs) /\
  Forall (fun f => NoDup (modifiers f) /\
                   DRM_FORMAT_MOD_INVALID ∉ modifiers f) fs.

(** The entries of a catalog for a pixel format. *)
Definition entries_of (format : VkFormat) (fs : u_vector wsi_wl_format)
  : list wsi_wl_format :=
  filter (fun f => vk_format f = format) fs.

(** The flags a catalog holds for a pixel format, none when it has no
    entry. *)
Definition flags_of (format : VkFormat) (fs : u_vector wsi_wl_format) : Z :=
  match find_format fs format with
  | Some (_, f) => flags f
  | None => 0
  end.

Definition renderable (dev : wsi_device) (format : VkFormat) : Prop :=
  Z.land (optimalTilingFeatures dev format)
         VK_FORMAT_FEATURE_COLOR_ATTACHMENT_BIT <> 0.

(** The allocator grants every request. *)
Definition plentiful (h : heap) : Prop := Forall (fun granted => granted = true) h.

(** The modifiers of an entry once [wsi_wl_format_add_modifier] has run on
    it with an allocator that grants its request. *)
Definition with_modifier (modifier : Z) (mods : list Z) : list Z :=
  if (modifier =? DRM_FORMAT_MOD_INVALID) || existsb (Z.eqb modifier) mods
  then mods else mods ++ [modifier].

(** The tranches closed by a [tranche_done] event while [events] run from
    [w]: each is the pending tranche at the moment its event arrives. *)
Fixpoint closed_tranches (w : world) (events : list wl_event)
  : list dmabuf_feedback_tranche :=
  match events with
  | [] => []
  | e :: events' =>
      match dispatch_event w e with
      | None => []
      | Some w' =>
          match e with
          | tranche_done_event =>
              pending_tranche (pending_dmabuf_feedback w)
                :: closed_tranches w' events'
          | _ => closed_tranches w' events'
          end
      end
  end.

(** Events inside a feedback cycle that has no format table: any event but
    [format_table], and [done], which ends the cycle. *)
Definition cycle_event (e : wl_event) : Prop :=
  match e with
  | format_table_event _ _ | done_event => False
  | _ => True
  end.

(** Where the format table of the last commit is during a cycle that has
    delivered none: still in the committed feedback, or already stolen. *)
Definition table_kept_or_stolen (stolen : dmabuf_feedback_format_table)
    (w : world) : Prop :=
  (table_data (format_table (pending_dmabuf_feedback w)) = NULL /\
   format_table (dmabuf_feedback w) = stolen)
  \/
  (format_table (dmabuf_feedback w) = dmabuf_feedback_format_table_init /\
   table_data (format_table (pending_dmabuf_feedback w)) = table_data stolen
   /\
   (table_data stolen <> NULL ->
    format_table (pending_dmabuf_feedback w) = stolen)).

(** The invariant of a feedback: each of its catalogs is as [catalog_ok]
    asks. *)
Definition feedback_ok (fb : struct_dmabuf_feedback) : Prop :=
  Forall (fun t => catalog_ok (formats t)) (tranches fb) /\
  catalog_ok (formats (pending_tranche fb)).

(** A feedback in which a tranche whose vector could not be allocated
    lists no format. *)
Definition feedback_allocated (fb : struct_dmabuf_feedback) : Prop :=
  Forall (fun t => formats_data t = false -> formats t = []) (tranches fb) /\
  (formats_data (pending_tranche fb) = false ->
   formats (pending_tranche fb) = []).

(** The modifiers [chain->drm_modifiers] gives access to once
    [dmabuf_feedback_fini] has run on the committed feedback, when the
    pointer and the count agree. *)
Definition modifiers_at_commit (c : wsi_wl_swapchain) : option (list Z) :=
  match drm_modifiers c with
  | mods_of_display ms =>
      if bool_decide (num_drm_modifiers c = length ms) then Some ms else None
  | mods_NULL =>
      if bool_decide (num_drm_modifiers c = 0%nat) then Some [] else None
  | mods_of_feedback _ | mods_released => None
  end.

(** What a rectangle of damage goes out as: a [wl_surface_damage_buffer]
    with the offset of the rectangle and, for each extent, the [int32_t] it
    converts to, which is the value between -2^31 and 2^31 - 1 that differs
    from the extent by a multiple of 2^32. *)
Definition damage_of_rect (r : VkRectLayerKHR) (request : wl_request)
  : Prop :=
  exists width height,
    request = wl_surface_damage_buffer (offset_x r) (offset_y r) width height
    /\ - 2 ^ 31 <= width < 2 ^ 31
    /\ (width - extent_width r) `mod` 2 ^ 32 = 0
    /\ - 2 ^ 31 <= height < 2 ^ 31
    /\ (height - extent_height r) `mod` 2 ^ 32 = 0.

(** The damage a present sends: one request per rectangle when the surface
    has version 4 and rectangles were given, the whole surface otherwise. *)
Definition damage_sent (version : Z) (damage : option (list VkRectLayerKHR))
    (requests : list wl_request) : Prop :=
  (4 <= version ->
   forall rects, damage = Some rects -> rects <> [] ->
                 Forall2 damage_of_rect rects requests) /\
  (version < 4 \/ damage = None \/ damage = Some [] ->
   requests = [wl_surface_damage 0 0 INT32_MAX INT32_MAX]).

(** Answers of the connection under which a wait makes no progress towards
    [fifo_ready]: dispatches that succeed and deliver no frame completion. *)
Definition quiet (a : dispatched) : Prop :=
  match a with
  | dispatch_error => False
  | dispatch_ok events => frame_done_event ∉ events
  end.

(** The state after the listeners ran for a list of successful
    dispatches. *)
Fixpoint dispatch_all (w : world) (answers : list dispatched)
  : option world :=
  match answers with
  | [] => Some w
  | dispatch_error :: _ => None
  | dispatch_ok events :: answers' =>
      w' ← dispatch_events w events;
      dispatch_all w' answers'
  end.

(** How one turn of the acquire loop that found no image and no timeout
    ends, by what the connection answered. *)
Definition prepare_read_raced (it : iteration) : Prop :=
  (prepare_read_queue it).1 < 0 /\ (prepare_read_queue it).2 = EAGAIN.

Definition poll_interrupted (it : iteration) : Prop :=
  0 <= (prepare_read_queue it).1 /\ (ppoll it).1 < 0 /\
  ((ppoll it).2 = EINTR \/ (ppoll it).2 = EAGAIN).

Definition poll_timed_out (it : iteration) : Prop :=
  0 <= (prepare_read_queue it).1 /\ (ppoll it).1 = 0.

Definition prepare_read_failed (it : iteration) : Prop :=
  (prepare_read_queue it).1 < 0 /\ (prepare_read_queue it).2 <> EAGAIN.

Definition poll_failed (it : iteration) : Prop :=
  0 <= (prepare_read_queue it).1 /\ (ppoll it).1 < 0 /\
  (ppoll it).2 <> EINTR /\ (ppoll it).2 <> EAGAIN.

Definition read_events_failed (it : iteration) : Prop :=
  0 <= (prepare_read_queue it).1 /\ 0 < (ppoll it).1 /\ read_events it < 0.

(** What happens to a swapchain between two presents: listeners run and
    images are acquired. *)
Inductive without_present : world -> world -> Prop :=
| without_present_refl w : without_present w w
| without_present_dispatch w events w1 w2 :
    dispatch_events w events = Some w1 ->
    without_present w1 w2 ->
    without_present w w2
| without_present_acquire w end_time its r idx w1 w2 :
    acquire_loop w end_time its = Returns (r, idx, w1) ->
    without_present w1 w2 ->
    without_present w w2.

(** ** Sample data *)

Definition sample_device : wsi_device :=
  {| MESA_LITTLE_ENDIAN := true;
     optimalTilingFeatures := fun _ => VK_FORMAT_FEATURE_COLOR_ATTACHMENT_BIT;
     sw := false;
     supports_modifiers := true;
     has_import_memory_host := false;
     WSI_DEBUG_NOSHM := false |}.

Definition sample_chain : wsi_wl_swapchain :=
  {| frame := Some 3%nat;
     chain_vk_format := VK_FORMAT_B8G8R8A8_UNORM;
     buffer_type := WSI_WL_BUFFER_NATIVE;
     suboptimal := false;
     num_drm_modifiers := 2%nat;
     drm_modifiers := mods_of_display [1; 2];
     present_mode := VK_PRESENT_MODE_FIFO_KHR;
     fifo_ready := false;
     images := [ {| buffer := 10%nat; busy := true |};
                 {| buffer := 11%nat; busy := false |};
                 {| buffer := 12%nat; busy := false |} ] |}.

Definition sample_world : world :=
  {| wsi := sample_device;
     wl_surface_version := 4;
     wl_dmabuf := true;
     display_formats :=
       [ {| vk_format := VK_FORMAT_B8G8R8A8_UNORM;
            flags := both; modifiers := [1; 2] |} ];
     wl_dmabuf_feedback := true;
     chain := sample_chain;
     dmabuf_feedback := (dmabuf_feedback_init []).1.2;
     pending_dmabuf_feedback := (dmabuf_feedback_init []).1.2;
     mem := [];
     wire := [] |}.

Definition sample_iteration (d : dispatched) : iteration :=
  {| dispatch_queue_pending := d;
     clock_gettime := 0;
     prepare_read_queue := (0, 0);
     ppoll := (1, 0);
     read_events := 0 |}.

Definition sample_create_info : VkSwapchainCreateInfoKHR :=
  {| minImageCount := 4; imageFormat := VK_FORMAT_B8G8R8A8_UNORM |}.

Definition sample_create_answers : create_answers :=
  {| surface_init := already_initialized;
     swapchain_init := VK_SUCCESS;
     get_present_mode := VK_PRESENT_MODE_FIFO_KHR;
     image_init := fun i => (VK_SUCCESS, i) |}.

(** The state [wsi_wl_surface_create_swapchain] reaches from [sample_world]
    with [sample_create_info]. *)
Definition sample_new_world : world :=
  set_chain
    {| frame := None;
       chain_vk_format := VK_FORMAT_B8G8R8A8_UNORM;
       buffer_type := WSI_WL_BUFFER_NATIVE;
       suboptimal := false;
       num_drm_modifiers := 2%nat;
       drm_modifiers := mods_of_display [1; 2];
       present_mode := VK_PRESENT_MODE_FIFO_KHR;
       fifo_ready := true;
       images := [ {| buffer := 0%nat; busy := false |};
                   {| buffer := 1%nat; busy := false |};
                   {| buffer := 2%nat; busy := false |};
                   {| buffer := 3%nat; busy := false |} ] |}
    sample_world.

(** A table of two records, and a surface whose committed feedback holds
    it while the pending feedback has none. *)
Definition sample_table : dmabuf_feedback_format_table :=
  {| table_size := 32;
     table_data :=
       mmap 32
         (Some [ {| entry_format := DRM_FORMAT_ARGB8888;
                    entry_padding := 0; entry_modifier := 7 |};
                 {| entry_format := DRM_FORMAT_XRGB8888;
                    entry_padding := 0; entry_modifier := 7 |} ]) |}.

Definition sample_committed : struct_dmabuf_feedback :=
  {| main_device := 1;
     format_table := sample_table;
     tranches :=
       [ {| target_device := 1; tranche_flags := 0;
            formats := [ {| vk_format := VK_FORMAT_B8G8R8A8_UNORM;
                            flags := both; modifiers := [1; 2] |} ];
            formats_data := true |} ];
     pending_tranche := (dmabuf_feedback_tranche_init []).1.2 |}.

Definition sample_surface : world :=
  set_dmabuf_feedback sample_committed sample_world.

(** A feedback cycle with one tranche, from table to commit. *)
Definition sample_cycle : list wl_event :=
  [ format_table_event
      (Some [ {| entry_format := DRM_FORMAT_ARGB8888;
                 entry_padding := 0; entry_modifier := 7 |} ]) 16;
    main_device_event 1;
    tranche_target_device_event 1;
    tranche_formats_event [0%N];
    tranche_done_event;
    done_event ].

(** A surface about to commit a feedback without main device, whose only
    tranche offers the swapchain's format with modifier 7; the swapchain was
    allocated with modifiers 1 and 2. *)
Definition sample_without_main_device : world :=
  set_pending_dmabuf_feedback
    {| main_device := 0;
       format_table := dmabuf_feedback_format_table_init;
       tranches :=
         [ {| target_device := 1; tranche_flags := 0;
              formats := [ {| vk_format := VK_FORMAT_B8G8R8A8_UNORM;
                              flags := both; modifiers := [7] |} ];
              formats_data := true |} ];
       pending_tranche := (dmabuf_feedback_tranche_init []).1.2 |}
    (set_chain (set_frame None true sample_chain) sample_world).

(** The same with main device 1. *)
Definition sample_with_main_device : world :=
  set_pending_dmabuf_feedback
    (set_main_device 1 (pending_dmabuf_feedback sample_without_main_device))
    sample_without_main_device.

(** A device that can render to no format. *)
Definition blind_device : wsi_device :=
  {| MESA_LITTLE_ENDIAN := true;
     optimalTilingFeatures := fun _ => 0;
     sw := false;
     supports_modifiers := true;
     has_import_memory_host := false;
     WSI_DEBUG_NOSHM := false |}.

(** The catalog after two insertions of the same format and modifier. *)
Definition add_twice (dev : wsi_device) (fs : u_vector wsi_wl_format)
    (format : VkFormat) (fl1 fl2 : Z) (modifier : Z)
  : M (u_vector wsi_wl_format) :=
  fs1 ← wsi_wl_display_add_vk_format_modifier dev fs format fl1 modifier;
  wsi_wl_display_add_vk_format_modifier dev fs1 format fl2 modifier.

(** ** Formats on the wire

    The conversions between the three numberings of pixel formats the file
    deals with: Vulkan's, DRM's and [wl_shm]'s. *)

Definition DRM_FORMAT_INVALID : Z := 0.
Definition DRM_FORMAT_BGRX8888 := fourcc_code chr_B chr_X chr_2 chr_4.

(** The two [wl_shm] formats whose code is not the DRM code
    (wayland-client-protocol.h). *)
Definition WL_SHM_FORMAT_ARGB8888 : Z := 0.
Definition WL_SHM_FORMAT_XRGB8888 : Z := 1.

Definition drm_format_for_wl_shm_format (shm_format : Z) : Z :=
  (* wl_shm formats are identical to DRM, except ARGB8888 and XRGB8888 *)
  if shm_format =? WL_SHM_FORMAT_ARGB8888 then DRM_FORMAT_ARGB8888
  else if shm_format =? WL_SHM_FORMAT_XRGB8888 then DRM_FORMAT_XRGB8888
  else shm_format.

Definition wsi_wl_display_add_wl_shm_format (wsi : wsi_device)
    (formats : u_vector wsi_wl_format) (shm_format : Z)
  : M (u_vector wsi_wl_format) :=
  let drm_format := drm_format_for_wl_shm_format shm_format in
  wsi_wl_display_add_drm_format_modifier wsi formats drm_format
    DRM_FORMAT_MOD_INVALID.

(** The [switch] of [wl_drm_format_for_vk_format], in two parts as the
    catalog's: the cases that exist on little-endian builds only, and the
    others.  The cases under [#if 0] are absent. *)
Definition packed_drm_format (vk_format : VkFormat) (alpha : bool)
  : option Z :=
  if vk_format =? VK_FORMAT_R4G4B4A4_UNORM_PACK16 then
    Some (if alpha then DRM_FORMAT_RGBA4444 else DRM_FORMAT_RGBX4444)
  else if vk_format =? VK_FORMAT_B4G4R4A4_UNORM_PACK16 then
    Some (if alpha then DRM_FORMAT_BGRA4444 else DRM_FORMAT_BGRX4444)
  else if vk_format =? VK_FORMAT_R5G6B5_UNORM_PACK16 then
    Some DRM_FORMAT_RGB565
  else if vk_format =? VK_FORMAT_B5G6R5_UNORM_PACK16 then
    Some DRM_FORMAT_BGR565
  else if vk_format =? VK_FORMAT_A1R5G5B5_UNORM_PACK16 then
    Some (if alpha then DRM_FORMAT_ARGB1555 else DRM_FORMAT_XRGB1555)
  else if vk_format =? VK_FORMAT_R5G5B5A1_UNORM_PACK16 then
    Some (if alpha then DRM_FORMAT_RGBA5551 else DRM_FORMAT_RGBX5551)
  else if vk_format =? VK_FORMAT_B5G5R5A1_UNORM_PACK16 then
    Some (if alpha then DRM_FORMAT_BGRA5551 else DRM_FORMAT_BGRX5551)
  else if vk_format =? VK_FORMAT_A2R10G10B10_UNORM_PACK32 then
    Some (if alpha then DRM_FORMAT_ARGB2101010 else DRM_FORMAT_XRGB2101010)
  else if vk_format =? VK_FORMAT_A2B10G10R10_UNORM_PACK32 then
    Some (if alpha then DRM_FORMAT_ABGR2101010 else DRM_FORMAT_XBGR2101010)
  else None.

Definition unpacked_drm_format (vk_format : VkFormat) (alpha : bool) : Z :=
  if (vk_format =? VK_FORMAT_R8G8B8_UNORM)
     || (vk_format =? VK_FORMAT_R8G8B8_SRGB) then
    DRM_FORMAT_XBGR8888
  else if (vk_format =? VK_FORMAT_R8G8B8A8_UNORM)
          || (vk_format =? VK_FORMAT_R8G8B8A8_SRGB) then
    (if alpha then DRM_FORMAT_ABGR8888 else DRM_FORMAT_XBGR8888)
  else if (vk_format =? VK_FORMAT_B8G8R8_UNORM)
          || (vk_format =? VK_FORMAT_B8G8R8_SRGB) then
    DRM_FORMAT_BGRX8888
  else if (vk_format =? VK_FORMAT_B8G8R8A8_UNORM)
          || (vk_format =? VK_FORMAT_B8G8R8A8_SRGB) then
    (if alpha then DRM_FORMAT_ARGB8888 else DRM_FORMAT_XRGB8888)
  else DRM_FORMAT_INVALID.

(** [wl_drm_format_for_vk_format]; [little_endian] is the build's
    [MESA_LITTLE_ENDIAN].  The [assert] of the default case is not
    evaluated: the case returns [DRM_FORMAT_INVALID]. *)
Definition wl_drm_format_for_vk_format (little_endian : bool)
    (vk_format : VkFormat) (alpha : bool) : Z :=
  match (if little_endian then packed_drm_format vk_format alpha
         else None) with
  | Some drm_format => drm_format
  | None => unpacked_drm_format vk_format alpha
  end.

Definition wl_shm_format_for_vk_format (little_endian : bool)
    (vk_format : VkFormat) (alpha : bool) : Z :=
  let drm_format := wl_drm_format_for_vk_format little_endian vk_format alpha in
  if drm_format =? DRM_FORMAT_INVALID then 0
  else
    (* wl_shm formats are identical to DRM, except ARGB8888 and XRGB8888 *)
    if drm_format =? DRM_FORMAT_ARGB8888 then WL_SHM_FORMAT_ARGB8888
    else if drm_format =? DRM_FORMAT_XRGB8888 then WL_SHM_FORMAT_XRGB8888
    else drm_format.

(** The modifier arguments of [zwp_linux_buffer_params_v1_add] in
    [wsi_wl_image_init]: the two halves of [image->base.drm_modifier]. *)
Definition buffer_params_modifier (drm_modifier : Z) : Z * Z :=
  (Z.shiftr drm_modifier 32, Z.land drm_modifier 0xffffffff).

(** ** The display and its listeners *)

(** The interface name of a global, as far as the [strcmp]s of
    [registry_handle_global] tell names apart. *)
Inductive wl_interface :=
| wl_shm_interface
| zwp_linux_dmabuf_v1_interface
| other_interface.

(** Of linux-dmabuf-unstable-v1-client-protocol.h. *)
Definition ZWP_LINUX_DMABUF_V1_GET_DEFAULT_FEEDBACK_SINCE_VERSION : Z := 4.

(** [struct wsi_wl_display], without the handles of the connection.
    [wl_shm] and [wl_dmabuf_feedback] tell whether the pointers are set;
    [wl_dmabuf] is the version the object was bound with, which is what
    [zwp_linux_dmabuf_v1_get_version] returns.  [wl_registry_bind] is taken
    to give an object. *)
Module display.

Record wsi_wl_display := {
  wl_shm : bool;
  wl_dmabuf : option Z;
  wl_dmabuf_feedback : bool;
  format_table : dmabuf_feedback_format_table;
  wsi : wsi_device;
  formats : u_vector wsi_wl_format;
  sw : bool;
}.

Definition set_wl_shm (b : bool) (d : wsi_wl_display) : wsi_wl_display :=
  {| wl_shm := b; wl_dmabuf := wl_dmabuf d;
     wl_dmabuf_feedback := wl_dmabuf_feedback d;
     format_table := format_table d; wsi := wsi d;
     formats := formats d; sw := sw d |}.

Definition set_wl_dmabuf (v : option Z) (d : wsi_wl_display)
  : wsi_wl_display :=
  {| wl_shm := wl_shm d; wl_dmabuf := v;
     wl_dmabuf_feedback := wl_dmabuf_feedback d;
     format_table := format_table d; wsi := wsi d;
     formats := formats d; sw := sw d |}.

Definition set_wl_dmabuf_feedback (b : bool) (d : wsi_wl_display)
  : wsi_wl_display :=
  {| wl_shm := wl_shm d; wl_dmabuf := wl_dmabuf d;
     wl_dmabuf_feedback := b;
     format_table := format_table d; wsi := wsi d;
     formats := formats d; sw := sw d |}.

Definition set_format_table (t : dmabuf_feedback_format_table)
    (d : wsi_wl_display) : wsi_wl_display :=
  {| wl_shm := wl_shm d; wl_dmabuf := wl_dmabuf d;
     wl_dmabuf_feedback := wl_dmabuf_feedback d;
     format_table := t; wsi := wsi d;
     formats := formats d; sw := sw d |}.

Definition set_formats (fs : u_vector wsi_wl_format) (d : wsi_wl_display)
  : wsi_wl_display :=
  {| wl_shm := wl_shm d; wl_dmabuf := wl_dmabuf d;
     wl_dmabuf_feedback := wl_dmabuf_feedback d;
     format_table := format_table d; wsi := wsi d;
     formats := fs; sw := sw d |}.

End display.

Abbreviation wsi_wl_display := display.wsi_wl_display (only parsing).

Definition dmabuf_handle_format (d : wsi_wl_display) (format : Z)
  : wsi_wl_display :=
  (* Formats are implicitly advertised by the modifier event, so we ignore
     them here. *)
  d.

(** [dmabuf_handle_modifier]; the arguments are [uint32_t]. *)
Definition dmabuf_handle_modifier (d : wsi_wl_display)
    (format modifier_hi modifier_lo : Z) : M wsi_wl_display :=
  (* Ignore this if the compositor advertised dma-buf feedback. *)
  if display.wl_dmabuf_feedback d then mret d
  else
    let modifier := Z.lor (Z.shiftl modifier_hi 32) modifier_lo in
    fs ← wsi_wl_display_add_drm_format_modifier (display.wsi d)
           (display.formats d) format modifier;
    mret (display.set_formats fs d).

Definition default_dmabuf_feedback_format_table (d : wsi_wl_display)
    (fd : option (list table_entry)) (size : Z) : wsi_wl_display :=
  display.set_format_table {| table_size := size; table_data := mmap size fd |}
    d.

Definition shm_handle_format (d : wsi_wl_display) (format : Z)
  : M wsi_wl_display :=
  fs ← wsi_wl_display_add_wl_shm_format (display.wsi d) (display.formats d)
         format;
  mret (display.set_formats fs d).

Definition registry_handle_global (d : wsi_wl_display)
    (interface : wl_interface) (version : Z) : wsi_wl_display :=
  if display.sw d then
    match interface with
    | wl_shm_interface => display.set_wl_shm true d
    | _ => d
    end
  else
    match interface with
    | zwp_linux_dmabuf_v1_interface =>
        if 3 <=? version then
          display.set_wl_dmabuf
            (Some (Z.min version
                     ZWP_LINUX_DMABUF_V1_GET_DEFAULT_FEEDBACK_SINCE_VERSION))
            d
        else d
    | _ => d
    end.

(** The events of the display's queue while [wsi_wl_display_init] runs:
    those of the registry, of [wl_shm], of [zwp_linux_dmabuf_v1] and of the
    default feedback. *)
Inductive display_event :=
| global_event (interface : wl_interface) (version : Z)
| global_remove_event
| shm_format_event (format : Z)
| dmabuf_format_event (format : Z)
| dmabuf_modifier_event (format modifier_hi modifier_lo : Z)
| default_format_table_event (fd : option (list table_entry)) (size : Z)
| default_main_device_event
| default_tranche_target_device_event
| default_tranche_flags_event
| default_tranche_formats_event (indices : list N)
| default_tranche_done_event
| default_done_event.

(** The listener of an event.  An object that was not bound has no listener
    and receives no event: such an event leaves the display as it is.
    [None] is undefined behaviour in a listener. *)
Definition display_dispatch_event (d : wsi_wl_display) (e : display_event)
    (h : heap) : option (wsi_wl_display * heap) :=
  match e with
  | global_event interface version =>
      Some (registry_handle_global d interface version, h)
  | shm_format_event format =>
      if display.wl_shm d then Some (shm_handle_format d format h)
      else Some (d, h)
  | dmabuf_format_event format => Some (dmabuf_handle_format d format, h)
  | dmabuf_modifier_event format modifier_hi modifier_lo =>
      match display.wl_dmabuf d with
      | Some _ =>
          Some (dmabuf_handle_modifier d format modifier_hi modifier_lo h)
      | None => Some (d, h)
      end
  | default_format_table_event fd size =>
      if display.wl_dmabuf_feedback d
      then Some (default_dmabuf_feedback_format_table d fd size, h)
      else Some (d, h)
  | default_tranche_formats_event indices =>
      if display.wl_dmabuf_feedback d then
        '(fs, h') ← default_dmabuf_feedback_tranche_formats (display.wsi d)
                      (display.format_table d) (display.formats d) indices h;
        Some (display.set_formats fs d, h')
      else Some (d, h)
  | global_remove_event
  | default_main_device_event
  | default_tranche_target_device_event
  | default_tranche_flags_event
  | default_tranche_done_event
  | default_done_event => Some (d, h)
  end.

Fixpoint display_dispatch_events (d : wsi_wl_display)
    (events : list display_event) (h : heap)
  : option (wsi_wl_display * heap) :=
  match events with
  | [] => Some (d, h)
  | e :: events' =>
      '(d', h') ← display_dispatch_event d e h;
      display_dispatch_events d' events' h'
  end.

(** What the connection answers during [wsi_wl_display_init]. *)
Record display_init_answers := {
  create_queue : bool;            (* wl_display_create_queue gave a queue *)
  create_wrapper : bool;          (* wl_proxy_create_wrapper gave a wrapper *)
  get_registry : bool;            (* wl_display_get_registry gave one *)
  roundtrip_globals : list display_event;
  roundtrip_formats : list display_event;
}.

(** The display after the [memset] and the assignments that open
    [wsi_wl_display_init]. *)
Definition zeroed_display (wsi : wsi_device) (sw : bool) : wsi_wl_display :=
  {| display.wl_shm := false; display.wl_dmabuf := None;
     display.wl_dmabuf_feedback := false;
     display.format_table := {| table_size := 0; table_data := NULL |};
     display.wsi := wsi; display.formats := []; display.sw := sw |}.

(** The statements after the label [out]: the default feedback is
    destroyed and its table unmapped; nothing reads the table afterwards. *)
Definition display_init_out (d : wsi_wl_display) : wsi_wl_display :=
  if display.wl_dmabuf_feedback d
  then display.set_wl_dmabuf_feedback false d
  else d.

(** The statement under [Get the default dma-buf feedback]. *)
Definition get_default_feedback (d : wsi_wl_display) : wsi_wl_display :=
  match display.wl_dmabuf d with
  | Some version =>
      if ZWP_LINUX_DMABUF_V1_GET_DEFAULT_FEEDBACK_SINCE_VERSION <=? version
      then display.set_wl_dmabuf_feedback true
             (display.set_format_table dmabuf_feedback_format_table_init d)
      else d
  | None => d
  end.

Section display_init.

(** [u_vector_head] of util/u_vector.h is not among the sources: which
    element of a vector it designates is left open here, as the index
    [u_vector_head] gives for the vector; it is an element of the vector
    when the vector has one. *)
Context (u_vector_head : u_vector wsi_wl_format -> nat).

(** The body of [if (wsi_wl->wsi->force_bgra8_unorm_first)].  An entry
    that [find_format] finds is in the vector, so that the vector has an
    element and [first_fmt] is one: the case of a [first_fmt] outside the
    vector is there for the index to be total only. *)
Definition swap_bgra8_unorm (formats : u_vector wsi_wl_format)
  : u_vector wsi_wl_format :=
  let first_fmt := u_vector_head formats in
  match find_format formats VK_FORMAT_B8G8R8A8_UNORM with
  | Some (f, tmp_fmt) =>
      match formats !! first_fmt with
      | Some first => <[first_fmt := tmp_fmt]> (<[f := first]> formats)
      | None => formats
      end
  | None => formats
  end.

(** [wsi_wl_display_init]: the result, the display when the result is
    [VK_SUCCESS], and the allocator; [None] is undefined behaviour in a
    listener.  [force_bgra8_unorm_first] is the field of [wsi_wl->wsi]. *)
Definition wsi_wl_display_init (wsi : wsi_device)
    (force_bgra8_unorm_first : bool) (get_format_list sw : bool)
    (a : display_init_answers) (h : heap)
  : option (VkResult * option wsi_wl_display * heap) :=
  let '(granted, h0) := malloc h in
  if negb granted then Some (VK_ERROR_OUT_OF_HOST_MEMORY, None, h0)
  else
    let d := zeroed_display wsi sw in
    if negb (create_queue a) then Some (VK_ERROR_OUT_OF_HOST_MEMORY, None, h0)
    else if negb (create_wrapper a)
    then Some (VK_ERROR_OUT_OF_HOST_MEMORY, None, h0)
    else if negb (get_registry a)
    then Some (VK_ERROR_OUT_OF_HOST_MEMORY, None, h0)
    else
      (* Round-trip to get wl_shm and zwp_linux_dmabuf_v1 globals *)
      '(d1, h1) ← display_dispatch_events d (roundtrip_globals a) h0;
      if negb (bool_decide (is_Some (display.wl_dmabuf d1)))
         && negb (display.wl_shm d1)
      then Some (VK_ERROR_SURFACE_LOST_KHR, None, h1)
      else if negb get_format_list
      then Some (VK_SUCCESS, Some (display_init_out d1), h1)
      else
        (* Get the default dma-buf feedback *)
        let d2 := get_default_feedback d1 in
        (* Round-trip again to get formats and modifiers *)
        '(d3, h3) ← display_dispatch_events d2 (roundtrip_formats a) h1;
        let d4 :=
          if force_bgra8_unorm_first
          then display.set_formats (swap_bgra8_unorm (display.formats d3)) d3
          else d3 in
        Some (VK_SUCCESS, Some (display_init_out d4), h3).

(** [wsi_GetPhysicalDeviceWaylandPresentationSupportKHR] on the device
    whose [wsi_device] is [wsi]. *)
Definition wsi_GetPhysicalDeviceWaylandPresentationSupportKHR
    (wsi : wsi_device) (force_bgra8_unorm_first : bool)
    (a : display_init_answers) (h : heap) : option (bool * heap) :=
  '(ret, _, h') ← wsi_wl_display_init wsi force_bgra8_unorm_first false
                    (sw wsi) a h;
  Some (bool_decide (ret = VK_SUCCESS), h').

End display_init.

(** ** Present modes of a surface *)

Definition present_modes : list VkPresentModeKHR :=
  [VK_PRESENT_MODE_MAILBOX_KHR; VK_PRESENT_MODE_FIFO_KHR].

(** The integer of a [VkResult] (vulkan_core.h), and [VK_INCOMPLETE], which
    the swapchain engine never returns. *)
Definition VkResult_value (r : VkResult) : Z :=
  match r with
  | VK_SUCCESS => 0
  | VK_NOT_READY => 1
  | VK_SUBOPTIMAL_KHR => 1000001003
  | VK_ERROR_OUT_OF_DATE_KHR => -1000001004
  | VK_ERROR_OUT_OF_HOST_MEMORY => -1
  | VK_ERROR_SURFACE_LOST_KHR => -1000000000
  end.

Definition VK_INCOMPLETE : Z := 5.

(** [wsi_wl_surface_get_present_modes]: the result, the count it stores and
    the array it leaves, from the count and the array it is given ([None]
    for [NULL]).  A copy beyond the end of the array is undefined
    behaviour, [None]. *)
Definition wsi_wl_surface_get_present_modes (pPresentModeCount : nat)
    (pPresentModes : option (list VkPresentModeKHR))
  : option (Z * nat * option (list VkPresentModeKHR)) :=
  match pPresentModes with
  | None => Some (VkResult_value VK_SUCCESS, length present_modes, None)
  | Some array =>
      let count := (pPresentModeCount `min` length present_modes)%nat in
      if bool_decide (count <= length array)%nat then
        Some (if bool_decide (count < length present_modes)%nat
              then VK_INCOMPLETE else VkResult_value VK_SUCCESS,
              count,
              Some (take count present_modes ++ drop count array))
      else None
  end.

(** ** Vocabulary of the further properties *)

(** An entry that kept its format, lost no flag and lost no modifier. *)
Definition entry_grows (e e' : wsi_wl_format) : Prop :=
  vk_format e' = vk_format e /\
  Z.land (flags e) (flags e') = flags e /\
  modifiers e `prefix_of` modifiers e'.

(** A catalog in which every entry of an earlier one is still at its place,
    grown at most. *)
Definition catalog_grows (fs fs' : u_vector wsi_wl_format) : Prop :=
  forall i e, fs !! i = Some e ->
              exists e', fs' !! i = Some e' /\ entry_grows e e'.

(** A catalog that has an entry for the format [vk] with the flags [fl]
    and, unless [m] is the invalid modifier, with the modifier [m]. *)
Definition lists (fs : u_vector wsi_wl_format) (vk : VkFormat) (fl m : Z)
  : Prop :=
  exists i e,
    fs !! i = Some e /\ vk_format e = vk /\ Z.land fl (flags e) = fl /\
    (m <> DRM_FORMAT_MOD_INVALID -> m ∈ modifiers e).

(** In a catalog grown by insertions of the modifier [m], no entry holds a
    modifier besides [m] that it did not hold before. *)
Definition only_new_modifier (m : Z) (fs fs' : list wsi_wl_format) : Prop :=
  forall i e' x,
    fs' !! i = Some e' -> x ∈ modifiers e' ->
    x = m \/ exists e, fs !! i = Some e /\ x ∈ modifiers e.

(** A catalog grown from [fs] whose entries beyond those of [fs] have a
    format for which [Q] holds. *)
Definition grown_by (Q : VkFormat -> Prop) (fs fs' : list wsi_wl_format)
  : Prop :=
  catalog_grows fs fs' /\
  forall i e', fs' !! i = Some e' -> fs !! i = None -> Q (vk_format e').

(** A catalog with the entries of [fs] and possibly more, in which every
    entry has the modifiers it had in [fs], and none if it is new. *)
Definition keeps_modifiers (fs fs' : list wsi_wl_format) : Prop :=
  (length fs <= length fs')%nat /\
  forall i e', fs' !! i = Some e' ->
               modifiers e' = from_option modifiers [] (fs !! i).

(** A feedback none of whose tranches lists a format. *)
Definition empty_tranches (fb : struct_dmabuf_feedback) : Prop :=
  Forall (fun t => formats t = []) (tranches fb) /\
  formats (pending_tranche fb) = [].

(** A catalog that has no entry for [VK_FORMAT_UNDEFINED]. *)
Definition defined_formats (fs : u_vector wsi_wl_format) : Prop :=
  Forall (fun f => vk_format f <> VK_FORMAT_UNDEFINED) fs.

Definition feedback_defined (fb : struct_dmabuf_feedback) : Prop :=
  Forall (fun t => defined_formats (formats t)) (tranches fb) /\
  defined_formats (formats (pending_tranche fb)).

(** A display that has bound one of the two globals. *)
Definition has_global (d : wsi_wl_display) : Prop :=
  display.wl_shm d = true \/ is_Some (display.wl_dmabuf d).

(** A turn of the acquire loop whose dispatch delivers no release of a
    buffer. *)
Definition no_release (it : iteration) : Prop :=
  match dispatch_queue_pending it with
  | dispatch_error => True
  | dispatch_ok events => forall image, buffer_release_event image ∉ events
  end.

(** What no listener, acquisition or present changes about a swapchain and
    its surface: the buffers of the images, the format, the number of
    modifiers, the present mode, the kind of buffers and the version of the
    surface; requests sent stay sent, and a [suboptimal] flag that is set
    stays set. *)
Definition same_swapchain (w w' : world) : Prop :=
  buffer <$> images (chain w') = buffer <$> images (chain w) /\
  chain_vk_format (chain w') = chain_vk_format (chain w) /\
  num_drm_modifiers (chain w') = num_drm_modifiers (chain w) /\
  present_mode (chain w') = present_mode (chain w) /\
  buffer_type (chain w') = buffer_type (chain w) /\
  wl_surface_version w' = wl_surface_version w /\
  wire w `prefix_of` wire w' /\
  (suboptimal (chain w) = true -> suboptimal (chain w') = true).

(** A global that [registry_handle_global] binds on a display in mode
    [sw]. *)
Definition usable_global (sw : bool) (e : display_event) : Prop :=
  match e with
  | global_event wl_shm_interface _ => sw = true
  | global_event zwp_linux_dmabuf_v1_interface version =>
      sw = false /\ 3 <= version
  | _ => False
  end.

(** A run of a swapchain: listeners, acquisitions and presents, in any
    order. *)
Inductive swapchain_run : world -> world -> Prop :=
| run_done w : swapchain_run w w
| run_dispatch w events w1 w2 :
    dispatch_events w events = Some w1 ->
    swapchain_run w1 w2 ->
    swapchain_run w w2
| run_acquire w end_time its r idx w1 w2 :
    acquire_loop w end_time its = Returns (r, idx, w1) ->
    swapchain_run w1 w2 ->
    swapchain_run w w2
| run_present w image_index damage answers r w1 w2 :
    wsi_wl_swapchain_queue_present w image_index damage answers
    = Returns (r, w1) ->
    swapchain_run w1 w2 ->
    swapchain_run w w2.

(** ** Global bindings of a Panfrost compute context

    [panfrost_set_global_binding] of
    [src/gallium/drivers/panfrost/pan_compute.c]: for each resource bound,
    the handle of the binding is relocated by the GPU address of the
    resource. *)

(** What the function reads of a [struct panfrost_resource]: [base.width0]
    and the GPU address of its buffer object, [image.data.bo->ptr.gpu]. *)
Record panfrost_resource := {
  width0 : Z;
  ptr_gpu : Z;
}.

(** The calls the function makes on the context, the batch and the
    resources, which are not among the sources: they are recorded in the
    order they are made. *)
Inductive pan_call :=
| panfrost_get_batch_for_fbo
| panfrost_batch_write_rsrc (rsrc : panfrost_resource)
| util_range_add (rsrc : panfrost_resource) (start finish : Z).

(** The memory the handles point into: the byte at each address. *)
Definition memory := Z -> Z.

(** The [n] bytes from address [p] on, and the memory once the bytes [bs]
    are stored from address [p] on: what [memcpy] reads and writes. *)
Definition read_bytes (m : memory) (p : Z) (n : nat) : list Z :=
  (fun k => m (p + Z.of_nat k)) <$> seq 0 n.

Definition write_bytes (m : memory) (p : Z) (bs : list Z) : memory :=
  fun q =>
    if bool_decide (p <= q)
    then default (m q) (bs !! Z.to_nat (q - p))
    else m q.

(** The object representation of a [uint64_t]: its 8 bytes, the least
    significant first on a little-endian build and last on a big-endian
    one. *)
Fixpoint le_bytes (n : nat) (v : Z) : list Z :=
  match n with
  | O => []
  | S n' => v `mod` 256 :: le_bytes n' (v `div` 256)
  end.

Fixpoint le_value (bs : list Z) : Z :=
  match bs with
  | [] => 0
  | b :: bs' => b + 256 * le_value bs'
  end.

Definition bytes_of_u64 (little_endian : bool) (v : Z) : list Z :=
  if little_endian then le_bytes 8 v else reverse (le_bytes 8 v).

Definition u64_of_bytes (little_endian : bool) (bs : list Z) : Z :=
  le_value (if little_endian then bs else reverse bs).

(** The [uint64_t] that [memcpy(&addr, p, sizeof(addr))] leaves in [addr],
    and the memory after [memcpy(p, &addr, sizeof(addr))]. *)
Definition load_u64 (little_endian : bool) (m : memory) (p : Z) : Z :=
  u64_of_bytes little_endian (read_bytes m p 8).

Definition store_u64 (little_endian : bool) (m : memory) (p : Z) (v : Z)
  : memory :=
  write_bytes m p (bytes_of_u64 little_endian v).

(** The loop [for (unsigned i = first; i < first + count; ++i)], with [n]
    turns left at index [i].  An array is the list of its elements, a
    pointer that is [NULL] is [None]; reading an array past its end or
    through [NULL] is undefined behaviour, [None]. *)
Fixpoint global_binding_loop (little_endian : bool)
    (resources : list (option panfrost_resource)) (handles : list (option Z))
    (i n : nat) (m : memory) (calls : list pan_call)
  : option (memory * list pan_call) :=
  match n with
  | O => Some (m, calls)
  | S n' =>
      match resources !! i, handles !! i with
      | Some (Some rsrc), Some (Some handle) =>
          let addr := load_u64 little_endian m handle in
          let addr := (addr + ptr_gpu rsrc) `mod` 2 ^ 64 in
          global_binding_loop little_endian resources handles (S i) n'
            (store_u64 little_endian m handle addr)
            (calls ++ [panfrost_batch_write_rsrc rsrc;
                       util_range_add rsrc 0 (width0 rsrc)])
      | _, _ => None
      end
  end.

(** [first] and [count] are [unsigned]: the bound [first + count] of the
    loop wraps at 32 bits.  [little_endian] is the byte order of the
    build. *)
Definition panfrost_set_global_binding (little_endian : bool)
    (first count : Z)
    (resources : option (list (option panfrost_resource)))
    (handles : list (option Z)) (m : memory)
  : option (memory * list pan_call) :=
  match resources with
  | None => Some (m, [])
  | Some resources =>
      global_binding_loop little_endian resources handles (Z.to_nat first)
        (Z.to_nat ((first + count) `mod` 2 ^ 32 - first)) m
        [panfrost_get_batch_for_fbo]
  end.

(** By how much the turns [i], ..., [i + n - 1] of the loop relocate the
    8 bytes at [p]: the sum of the GPU addresses of the resources whose
    handle is [p]. *)
Fixpoint relocation (resources : list (option panfrost_resource))
    (handles : list (option Z)) (p : Z) (i n : nat) : Z :=
  match n with
  | O => 0
  | S n' =>
      match resources !! i, handles !! i with
      | Some (Some rsrc), Some (Some handle) =>
          (if handle =? p then ptr_gpu rsrc else 0)
          + relocation resources handles p (S i) n'
      | _, _ => relocation resources handles p (S i) n'
      end
  end.

(** Two addresses at which 8 bytes are the same 8 bytes or have no byte
    in common. *)
Definition apart (p q : Z) : Prop := p = q \/ p + 8 <= q \/ q + 8 <= p.

(** The calls the turns [i], ..., [i + n - 1] of the loop make: for each
    resource, the write by the batch and the extension of its valid
    range. *)
Fixpoint binding_calls (resources : list (option panfrost_resource))
    (i n : nat) : list pan_call :=
  match n with
  | O => []
  | S n' =>
      match resources !! i with
      | Some (Some rsrc) =>
          panfrost_batch_write_rsrc rsrc
            :: util_range_add rsrc 0 (width0 rsrc)
            :: binding_calls resources (S i) n'
      | _ => binding_calls resources (S i) n'
      end
  end.

(** ** Further sample data *)

(** A [u_vector_head] that designates the element added last. *)
Definition sample_u_vector_head (v : list wsi_wl_format) : nat :=
  (length v - 1)%nat.

(** A compositor that offers linux-dmabuf version 5 and, in its default
    feedback, a table of two formats. *)
Definition sample_display_answers : display_init_answers :=
  {| create_queue := true;
     create_wrapper := true;
     get_registry := true;
     roundtrip_globals :=
       [ global_event other_interface 1;
         global_event zwp_linux_dmabuf_v1_interface 5 ];
     roundtrip_formats :=
       [ default_format_table_event
           (Some [ {| entry_format := DRM_FORMAT_ARGB8888;
                      entry_padding := 0; entry_modifier := 7 |};
                   {| entry_format := DRM_FORMAT_XRGB8888;
                      entry_padding := 0; entry_modifier := 7 |} ]) 32;
         default_main_device_event;
         default_tranche_formats_event [0%N; 1%N];
         default_tranche_done_event;
         default_done_event ] |}.

(** * Properties *)

(** ** Event dispatch *)

Lemma dispatch_events_app w evs1 evs2 :
  dispatch_events w (evs1 ++ evs2) =
  w' ← dispatch_events w evs1; dispatch_events w' evs2.
Proof.
  revert w. induction evs1 as [|e evs1 IH]; intros w; simpl; [done|].
  destruct (dispatch_event w e) as [w'|]; simpl; [apply IH|done].
Qed.

Lemma steal_format_table_frame w :
  chain (steal_format_table w) = chain w /\
  wire (steal_format_table w) = wire w /\
  wl_surface_version (steal_format_table w) = wl_surface_version w /\
  mem (steal_format_table w) = mem w /\
  wsi (steal_format_table w) = wsi w.
Proof.
  unfold steal_format_table.
  by destruct (table_data (format_table (pending_dmabuf_feedback w))).
Qed.

(** The two listeners that can fail, by the shape of what they leave. *)
Lemma tranche_formats_inv w indices w' :
  surface_dmabuf_feedback_tranche_formats w indices = Some w' ->
  (exists h, w' = set_mem h (steal_format_table w)) \/
  exists region fs h,
    formats_data (pending_tranche
                    (pending_dmabuf_feedback (steal_format_table w)))
    = true /\
    table_data (format_table
                  (pending_dmabuf_feedback (steal_format_table w)))
    = mapped region /\
    resolve_indices (wsi (steal_format_table w)) region
      (formats (pending_tranche
                  (pending_dmabuf_feedback (steal_format_table w))))
      indices (mem (steal_format_table w)) = Some (fs, h) /\
    w' = set_mem h
           (set_pending_dmabuf_feedback
              (set_pending_tranche
                 (set_formats fs
                    (pending_tranche
                       (pending_dmabuf_feedback (steal_format_table w))))
                 (pending_dmabuf_feedback (steal_format_table w)))
              (steal_format_table w)).
Proof.
  unfold surface_dmabuf_feedback_tranche_formats.
  generalize (steal_format_table w). intros w1 Hd.
  assert (Hsame : w1 = set_mem (mem w1) w1) by (by destruct w1).
  destruct (table_data (format_table (pending_dmabuf_feedback w1)))
    as [| |region] eqn:Hp; simplify_eq; eauto.
  destruct (formats_data (pending_tranche (pending_dmabuf_feedback w1)))
    eqn:Hdata.
  - destruct (resolve_indices _ _ _ _ _) as [[fs h]|] eqn:Hr;
      simpl in Hd; simplify_eq.
    right. by exists region, fs, h.
  - destruct (resolve_indices_no_data _ _ _ _) as [h|] eqn:Hr;
      simpl in Hd; simplify_eq.
    left. by exists h.
Qed.

(** What the initialisations leave, whatever the allocator answers. *)
Lemma dmabuf_feedback_tranche_init_spec h :
  exists ret h',
    dmabuf_feedback_tranche_init h
    = (ret, {| target_device := 0; tranche_flags := 0; formats := [];
               formats_data := (malloc h).1 |}, h').
Proof.
  unfold dmabuf_feedback_tranche_init, mbind, M_bind, mret, M_ret.
  destruct (malloc h) as [granted h']. simpl. eauto.
Qed.

Lemma dmabuf_feedback_init_spec h :
  exists ret h',
    dmabuf_feedback_init h
    = (ret,
       {| main_device := 0;
          format_table := dmabuf_feedback_format_table_init;
          tranches := [];
          pending_tranche :=
            {| target_device := 0; tranche_flags := 0; formats := [];
               formats_data := (malloc h).1 |} |}, h').
Proof.
  unfold dmabuf_feedback_init, mbind, M_bind, mret, M_ret.
  destruct (dmabuf_feedback_tranche_init_spec h) as (ret & h' & ->).
  simpl. eauto.
Qed.

Lemma tranche_done_eq w :
  surface_dmabuf_feedback_tranche_done w
  = set_mem (dmabuf_feedback_tranche_init (mem w)).2
      (set_pending_dmabuf_feedback
         (set_pending_tranche (dmabuf_feedback_tranche_init (mem w)).1.2
            (set_tranches
               (tranches (pending_dmabuf_feedback w)
                ++ [pending_tranche (pending_dmabuf_feedback w)])
               (pending_dmabuf_feedback w))) w).
Proof.
  unfold surface_dmabuf_feedback_tranche_done.
  by destruct (dmabuf_feedback_tranche_init (mem w)) as [[ret tranche] h].
Qed.

(** The state a commit leaves, the [suboptimal] flag aside. *)
Lemma done_inv w w' :
  surface_dmabuf_feedback_done w = Some w' ->
  exists w1,
    w1 = set_chain
           (set_drm_modifiers
              (after_dmabuf_feedback_fini (drm_modifiers (chain w)))
              (chain w))
           (set_dmabuf_feedback (pending_dmabuf_feedback w)
              (set_pending_dmabuf_feedback (dmabuf_feedback_init (mem w)).1.2
                 (set_mem (dmabuf_feedback_init (mem w)).2 w))) /\
    (w' = w1 \/ w' = set_chain (set_suboptimal true (chain w1)) w1).
Proof.
  unfold surface_dmabuf_feedback_done. simpl. intros Hd.
  destruct (dmabuf_feedback_init (mem w)) as [[ret pending] h].
  eexists. split; [reflexivity|]. simpl in *.
  destruct (pick_format_from_surface_dmabuf_feedback _ _) as [f|];
    simplify_eq; auto.
  destruct (sets_of_modifiers_are_the_same _ _ _ _) as [[]|];
    simpl in Hd; simplify_eq; auto.
Qed.

(** No listener clears [suboptimal], changes the present mode or the number
    of images; only the frame listener touches [fifo_ready]. *)
Lemma dispatch_event_chain w e w' :
  dispatch_event w e = Some w' ->
  (suboptimal (chain w) = true -> suboptimal (chain w') = true) /\
  present_mode (chain w') = present_mode (chain w) /\
  buffer_type (chain w') = buffer_type (chain w) /\
  length (images (chain w')) = length (images (chain w)) /\
  wire w' = wire w /\
  wl_surface_version w' = wl_surface_version w /\
  (fifo_ready (chain w) = true -> fifo_ready (chain w') = true) /\
  (e <> frame_done_event -> fifo_ready (chain w') = fifo_ready (chain w)) /\
  (e = frame_done_event -> fifo_ready (chain w') = true).
Proof.
  destruct e; simpl; intros Hd; simplify_eq; rewrite ?tranche_done_eq; simpl;
    try by rewrite ?length_alter.
  - destruct (steal_format_table_frame w) as (Hc & Hw & Hv & _).
    apply tranche_formats_inv in Hd as [[? ->] | (? & ? & ? & _ & _ & _ & ->)];
      simpl; by rewrite Hc, Hw, Hv.
  - apply done_inv in Hd as (w1 & -> & [-> | ->]); simpl;
      intuition congruence.
Qed.

Lemma dispatch_events_chain w evs w' :
  dispatch_events w evs = Some w' ->
  (suboptimal (chain w) = true -> suboptimal (chain w') = true) /\
  present_mode (chain w') = present_mode (chain w) /\
  buffer_type (chain w') = buffer_type (chain w) /\
  length (images (chain w')) = length (images (chain w)) /\
  wire w' = wire w /\
  wl_surface_version w' = wl_surface_version w /\
  (fifo_ready (chain w) = true -> fifo_ready (chain w') = true) /\
  (frame_done_event ∉ evs -> fifo_ready (chain w') = fifo_ready (chain w)) /\
  (frame_done_event ∈ evs -> fifo_ready (chain w') = true).
Proof.
  revert w. induction evs as [|e evs IH]; intros w; simpl.
  - intros; simplify_eq. split_and!; try done. by intros ?%elem_of_nil.
  - destruct (dispatch_event w e) as [w1|] eqn:He; simpl; [|done].
    intros Hd. apply IH in Hd.
    apply dispatch_event_chain in He.
    destruct He as (s1 & p1 & b1 & l1 & wi1 & v1 & f1 & n1 & y1).
    destruct Hd as (s2 & p2 & b2 & l2 & wi2 & v2 & f2 & n2 & y2).
    split_and!; try congruence; try tauto.
    + intros Hn. apply not_elem_of_cons in Hn as [Hne Hn].
      rewrite n2, n1; done.
    + intros [<-|Hin]%elem_of_cons; [apply f2, y1; done | by apply y2].
Qed.

(** ** Acquire *)

Lemma acquire_loop_keeps_suboptimal end_time its : forall w r idx w',
  acquire_loop w end_time its = Returns (r, idx, w') ->
  suboptimal (chain w) = true -> suboptimal (chain w') = true.
Proof.
  induction its as [|it its IH]; intros w r idx w'; simpl; [done|].
  destruct (dispatch_queue_pending it) as [|evs]; [by intros; simplify_eq|].
  destruct (dispatch_events w evs) as [w1|] eqn:Hd; [|done].
  apply dispatch_events_chain in Hd. destruct Hd as (Hs & _).
  destruct (find_free_image (chain w1)) as [[i img]|].
  { intros; simplify_eq. simpl. auto. }
  destruct (timespec_after _ _); [by intros; simplify_eq; auto|].
  destruct (prepare_read_queue it) as [ret errno].
  destruct (ppoll it) as [pret perrno].
  repeat case_match; intros Hret Hsub; simplify_eq; eauto.
Qed.

(** What the assignment [images[i].busy = b] leaves: the image at [i] has
    the flag [b] and the buffer it had, and the other images are as they
    were. *)
Lemma alter_set_busy_lookup i b img (imgs : list wsi_wl_image) :
  imgs !! i = Some img ->
  (exists img',
     alter (set_busy b) i imgs !! i = Some img' /\
     busy img' = b /\ buffer img' = buffer img) /\
  (forall k, k <> i -> alter (set_busy b) i imgs !! k = imgs !! k).
Proof.
  intros Hi. split.
  - exists (set_busy b img). by rewrite list_lookup_alter, decide_True, Hi.
  - intros k Hne. by rewrite list_lookup_alter, decide_False by done.
Qed.

(** C4.  In a turn of the acquire loop whose dispatch of pending events
    leaves some image not busy, the call returns the lowest index whose
    image is not busy; when it returns, the image of that index is busy,
    with the buffer it had, and every other image is as the dispatch left
    it; the result is [VK_SUBOPTIMAL_KHR] when the swapchain's [suboptimal]
    flag is set and [VK_SUCCESS] otherwise; the flag is as it was after the
    dispatch, and no run of acquire, however long, clears a flag that was
    set at entry. *)
Theorem acquire_returns_lowest_free_image w end_time it its events w1 :
  dispatch_queue_pending it = dispatch_ok events ->
  dispatch_events w events = Some w1 ->
  (exists j img, images (chain w1) !! j = Some img /\ busy img = false) ->
  exists i img w',
    images (chain w1) !! i = Some img /\ busy img = false /\
    (forall k img', (k < i)%nat ->
       images (chain w1) !! k = Some img' -> busy img' = true) /\
    acquire_loop w end_time (it :: its) =
      Returns (if suboptimal (chain w1) then VK_SUBOPTIMAL_KHR
               else VK_SUCCESS, Some i, w') /\
    (exists img',
       images (chain w') !! i = Some img' /\
       busy img' = true /\ buffer img' = buffer img) /\
    (forall k, k <> i ->
       images (chain w') !! k = images (chain w1) !! k) /\
    suboptimal (chain w') = suboptimal (chain w1) /\
    (forall its0 r idx w0,
       acquire_loop w end_time its0 = Returns (r, idx, w0) ->
       suboptimal (chain w) = true -> suboptimal (chain w0) = true).
Proof.
  intros Hit Hd (j & imgj & Hj & Hfree).
  destruct (find_free_image (chain w1)) as [[i img]|] eqn:Hfind.
  - unfold find_free_image in Hfind.
    apply list_find_Some in Hfind as (Hi & Hb & Hleast).
    exists i, img,
      (set_chain
         (set_images (alter (set_busy true) i (images (chain w1))) (chain w1))
         w1).
    split_and!; try done.
    + intros k img' Hk Hl. specialize (Hleast k img' Hl Hk).
      by destruct (busy img').
    + simpl. rewrite Hit, Hd. unfold find_free_image.
      assert (Hfind : list_find (fun img => busy img = false)
                        (images (chain w1)) = Some (i, img))
        by (apply list_find_Some; done).
      rewrite Hfind. reflexivity.
    + exact (proj1 (alter_set_busy_lookup i true img _ Hi)).
    + exact (proj2 (alter_set_busy_lookup i true img _ Hi)).
    + intros its0 r idx w0. apply acquire_loop_keeps_suboptimal.
  - exfalso. unfold find_free_image in Hfind.
    apply list_find_None in Hfind.
    eapply Forall_lookup_1 in Hfind; [|exact Hj]. done.
Qed.

(** C5.  In a turn of the acquire loop: a failed dispatch returns
    [VK_ERROR_OUT_OF_DATE_KHR]; after a dispatch that found no free image
    before the deadline, a prepare-read that lost the race ([EAGAIN]), a poll
    interrupted ([EINTR], [EAGAIN]) and a poll that timed out all start the
    next turn, so that the call returns whatever the rest of the loop
    returns, while any other failure of prepare-read, poll or read-events
    returns [VK_ERROR_OUT_OF_DATE_KHR]. *)
Theorem acquire_retries_or_out_of_date w end_time it its :
  (dispatch_queue_pending it = dispatch_error ->
   acquire_loop w end_time (it :: its)
   = Returns (VK_ERROR_OUT_OF_DATE_KHR, None, w)) /\
  (forall events w1,
     dispatch_queue_pending it = dispatch_ok events ->
     dispatch_events w events = Some w1 ->
     find_free_image (chain w1) = None ->
     timespec_after (clock_gettime it) end_time = false ->
     (prepare_read_raced it \/ poll_interrupted it \/ poll_timed_out it ->
      acquire_loop w end_time (it :: its) = acquire_loop w1 end_time its) /\
     (prepare_read_failed it \/ poll_failed it \/ read_events_failed it ->
      acquire_loop w end_time (it :: its)
      = Returns (VK_ERROR_OUT_OF_DATE_KHR, None, w1))).
Proof.
  split.
  - intros Hit. simpl. by rewrite Hit.
  - intros events w1 Hit Hd Hfree Htime. simpl.
    rewrite Hit, Hd, Hfree, Htime.
    unfold prepare_read_raced, poll_interrupted, poll_timed_out,
      prepare_read_failed, poll_failed, read_events_failed, EINTR, EAGAIN.
    destruct (prepare_read_queue it) as [ret errno].
    destruct (ppoll it) as [pret perrno]. simpl.
    split; intros H;
      repeat match goal with
        | |- context [ ?a <? ?b ] => destruct (Z.ltb_spec a b)
        | |- context [ ?a <=? ?b ] => destruct (Z.leb_spec a b)
        | |- context [ ?a =? ?b ] => destruct (Z.eqb_spec a b)
        end; simpl; try reflexivity; exfalso; lia.
Qed.

Lemma acquire_returns_lowest_free_image_witness :
  dispatch_queue_pending (sample_iteration (dispatch_ok [])) = dispatch_ok []
  /\ dispatch_events sample_world [] = Some sample_world
  /\ (exists j img,
        images (chain sample_world) !! j = Some img /\ busy img = false)
  /\ exists i w',
       acquire_loop sample_world 0 [sample_iteration (dispatch_ok [])]
       = Returns (VK_SUCCESS, Some i, w').
Proof.
  assert (H1 : dispatch_queue_pending (sample_iteration (dispatch_ok []))
               = dispatch_ok []) by reflexivity.
  assert (H2 : dispatch_events sample_world [] = Some sample_world)
    by reflexivity.
  assert (H3 : exists j img,
             images (chain sample_world) !! j = Some img /\ busy img = false)
    by (exists 1%nat; eexists; split; reflexivity).
  refine (conj H1 (conj H2 (conj H3 _))).
  destruct (acquire_returns_lowest_free_image sample_world 0
              (sample_iteration (dispatch_ok [])) [] [] sample_world
              H1 H2 H3) as (i & img & w' & _ & _ & _ & Hr & _).
  exists i, w'. exact Hr.
Defined.

Lemma acquire_retries_or_out_of_date_witness :
  let it := {| dispatch_queue_pending := dispatch_ok [];
               clock_gettime := 5;
               prepare_read_queue := (-1, EAGAIN);
               ppoll := (0, 0);
               read_events := 0 |} in
  let w := set_chain
             (set_images [ {| buffer := 10%nat; busy := true |} ] sample_chain)
             sample_world in
  dispatch_queue_pending it = dispatch_ok []
  /\ dispatch_events w [] = Some w
  /\ find_free_image (chain w) = None
  /\ timespec_after (clock_gettime it) 7 = false
  /\ prepare_read_raced it
  /\ acquire_loop w 7 [it; sample_iteration dispatch_error]
     = Returns (VK_ERROR_OUT_OF_DATE_KHR, None, w).
Proof.
  intros it w.
  assert (H1 : dispatch_queue_pending it = dispatch_ok []) by reflexivity.
  assert (H2 : dispatch_events w [] = Some w) by reflexivity.
  assert (H3 : find_free_image (chain w) = None) by reflexivity.
  assert (H4 : timespec_after (clock_gettime it) 7 = false) by reflexivity.
  assert (H5 : prepare_read_raced it) by (split; [simpl; lia | reflexivity]).
  refine (conj H1 (conj H2 (conj H3 (conj H4 (conj H5 _))))).
  rewrite (proj1 (proj2 (acquire_retries_or_out_of_date w 7 it
                           [sample_iteration dispatch_error])
                    [] w H1 H2 H3 H4) (or_introl H5)).
  reflexivity.
Defined.

(** ** Present *)

Lemma wait_fifo_ready_ready w answers :
  fifo_ready (chain w) = true -> wait_fifo_ready w answers = Returns (None, w).
Proof. intros H. destruct answers; simpl; by rewrite H. Qed.

(** While the answers are quiet the wait goes on, and it resumes from the
    state they leave. *)
Lemma wait_fifo_ready_quiet waiting : forall w wq,
  fifo_ready (chain w) = false ->
  Forall quiet waiting ->
  dispatch_all w waiting = Some wq ->
  fifo_ready (chain wq) = false /\
  wait_fifo_ready w waiting = Blocked /\
  forall more, wait_fifo_ready w (waiting ++ more) = wait_fifo_ready wq more.
Proof.
  induction waiting as [|a waiting IH]; intros w wq Hf Hq Hd; simpl in *.
  - simplify_eq. rewrite Hf. done.
  - apply Forall_cons_1 in Hq as [Ha Hq].
    destruct a as [|events]; [done|]. simpl in Ha.
    destruct (dispatch_events w events) as [w1|] eqn:He; simpl in Hd; [|done].
    pose proof (dispatch_events_chain _ _ _ He) as (_&_&_&_&_&_&_& Hn & _).
    specialize (Hn Ha).
    destruct (IH w1 wq) as (Hfq & Hb & Hmore); [congruence|done|done|].
    rewrite Hf. split_and!; try done.
Qed.

(** What the wait leaves when it ends. *)
Lemma wait_fifo_ready_returns answers : forall w r w1,
  wait_fifo_ready w answers = Returns (r, w1) ->
  present_mode (chain w1) = present_mode (chain w) /\
  length (images (chain w1)) = length (images (chain w)) /\
  wl_surface_version w1 = wl_surface_version w /\
  wire w1 = wire w /\
  (r = None -> fifo_ready (chain w1) = true) /\
  (r <> None -> r = Some VK_ERROR_OUT_OF_DATE_KHR).
Proof.
  induction answers as [|a answers IH]; intros w r w1; simpl.
  - destruct (fifo_ready (chain w)) eqn:Hf; [|done].
    intros; simplify_eq. done.
  - destruct (fifo_ready (chain w)) eqn:Hf; [by intros; simplify_eq|].
    destruct a as [|events]; [by intros; simplify_eq|].
    destruct (dispatch_events w events) as [w'|] eqn:He; [|done].
    intros Hr. apply IH in Hr as (p & l & v & wi & f & o).
    apply dispatch_events_chain in He as (_ & p' & _ & l' & wi' & v' & _).
    split_and!; try congruence; done.
Qed.

Lemma copy_to_shm_chain w image_index w0 :
  copy_to_shm w image_index = Some w0 ->
  chain w0 = chain w /\ wl_surface_version w0 = wl_surface_version w.
Proof.
  unfold copy_to_shm. intros H.
  repeat case_match; by simplify_eq.
Qed.

Lemma int32_of_uint32_spec u :
  - 2 ^ 31 <= int32_of_uint32 u < 2 ^ 31 /\
  (int32_of_uint32 u - u) `mod` 2 ^ 32 = 0.
Proof.
  unfold int32_of_uint32.
  pose proof (Z.mod_pos_bound (u + 2 ^ 31) (2 ^ 32) ltac:(lia)) as Hr.
  split; [lia|].
  pose proof (Z.div_mod (u + 2 ^ 31) (2 ^ 32) ltac:(lia)) as Hdm.
  replace ((u + 2 ^ 31) `mod` 2 ^ 32 - 2 ^ 31 - u)
    with (- ((u + 2 ^ 31) `div` 2 ^ 32) * 2 ^ 32) by lia.
  apply Z.mod_mul. lia.
Qed.

(** An extent up to [INT32_MAX] goes out as it is, a larger one as a
    negative number. *)
Lemma int32_of_uint32_values u :
  0 <= u < 2 ^ 32 ->
  int32_of_uint32 u = if u <? 2 ^ 31 then u else u - 2 ^ 32.
Proof.
  intros Hu. unfold int32_of_uint32.
  destruct (Z.ltb_spec u (2 ^ 31)).
  - rewrite Z.mod_small by lia. lia.
  - replace ((u + 2 ^ 31) `mod` 2 ^ 32) with (u + 2 ^ 31 - 2 ^ 32); [lia|].
    apply Z.mod_unique with (q := 1); lia.
Qed.

Lemma damage_requests_sent version damage :
  damage_sent version damage (damage_requests version damage).
Proof.
  unfold damage_requests. split.
  - intros Hv rects -> Hne. destruct rects as [|rect rects]; [done|].
    rewrite (proj2 (Z.leb_le _ _) Hv).
    apply Forall2_fmap_r, Forall_Forall2_diag, Forall_forall.
    intros r _. eexists _, _. split; [done|].
    destruct (int32_of_uint32_spec (extent_width r)).
    destruct (int32_of_uint32_spec (extent_height r)). done.
  - intros [Hv | [-> | ->]]; [|done..].
    destruct damage as [[|rect rects]|]; [done| |done].
    by rewrite (proj2 (Z.leb_gt _ _) Hv).
Qed.

(** A successful submit under FIFO has asked for a frame callback and
    cleared [fifo_ready] before the commit. *)
Lemma submit_fifo w image_index damage r w2 :
  present_mode (chain w) = VK_PRESENT_MODE_FIFO_KHR ->
  submit w image_index damage = Returns (r, w2) ->
  exists img,
    images (chain w) !! image_index = Some img /\
    r = VK_SUCCESS /\
    fifo_ready (chain w2) = false /\
    frame (chain w2) = Some (S (length (wire w ++ damage_requests
                                          (wl_surface_version w) damage))) /\
    ((exists img',
        images (chain w2) !! image_index = Some img' /\
        busy img' = true /\ buffer img' = buffer img) /\
     (forall k, k <> image_index ->
        images (chain w2) !! k = images (chain w) !! k)) /\
    wire w2 = wire w
              ++ wl_surface_attach (buffer img) 0 0
                 :: damage_requests (wl_surface_version w) damage
              ++ [wl_surface_frame
                    (S (length (wire w ++ damage_requests
                                  (wl_surface_version w) damage)));
                  wl_surface_commit; wl_display_flush].
Proof.
  intros Hp. unfold submit.
  destruct (images (chain w) !! image_index) as [img|] eqn:Hi; [|done].
  simpl. rewrite Hp. rewrite bool_decide_eq_true_2 by done. simpl.
  intros Hr. simplify_eq. simpl.
  exists img. split; [done|]. split; [done|]. split; [done|].
  split; [|split].
  - f_equal. rewrite !length_app. simpl. lia.
  - exact (alter_set_busy_lookup image_index true img _ Hi).
  - assert (Hlen : forall a : wl_request,
              length (wire w ++ a :: damage_requests (wl_surface_version w)
                                     damage)
              = S (length (wire w ++ damage_requests (wl_surface_version w)
                                       damage)))
      by (intros a; rewrite !length_app; simpl; lia).
    rewrite Hlen. by rewrite <- !app_assoc.
Qed.


Lemma present_fifo_success v idx dmg answers v' :
  present_mode (chain v) = VK_PRESENT_MODE_FIFO_KHR ->
  wsi_wl_swapchain_queue_present v idx dmg answers
  = Returns (VK_SUCCESS, v') ->
  fifo_ready (chain v') = false /\
  exists callback sent,
    frame (chain v') = Some callback /\
    wire v' = sent ++ [wl_surface_frame callback;
                       wl_surface_commit; wl_display_flush].
Proof.
  intros Hp. unfold wsi_wl_swapchain_queue_present.
  destruct (copy_to_shm v idx) as [v0|] eqn:Hcopy; [|done].
  destruct (copy_to_shm_chain _ _ _ Hcopy) as [Hc0 _].
  rewrite Hc0, Hp, bool_decide_eq_true_2 by done.
  destruct (wait_fifo_ready v0 answers) as [[[r|] v1]| |] eqn:Hw; try done.
  - apply wait_fifo_ready_returns in Hw as (_ & _ & _ & _ & _ & Hr).
    intros; simplify_eq. by specialize (Hr ltac:(done)).
  - apply wait_fifo_ready_returns in Hw as (p & _).
    intros Hs. apply submit_fifo in Hs as (img & _ & _ & Hf & Hfr & _ & Hwire);
      [|congruence].
    split; [done|]. eexists _, _. split; [exact Hfr|].
    rewrite Hwire. rewrite app_comm_cons, app_assoc. reflexivity.
Qed.



(** ** A new swapchain *)

Lemma dispatch_event_fresh w e w' :
  dispatch_event w e = Some w' ->
  (frame (chain w) = None -> frame (chain w') = None) /\
  (Forall (fun img => busy img = false) (images (chain w)) ->
   Forall (fun img => busy img = false) (images (chain w'))).
Proof.
  destruct e; simpl; intros Hd; simplify_eq; rewrite ?tranche_done_eq; simpl; try done.
  - destruct (steal_format_table_frame w) as (Hc & _).
    apply tranche_formats_inv in Hd as [[? ->] | (? & ? & ? & _ & _ & _ & ->)];
      simpl; by rewrite Hc.
  - by apply done_inv in Hd as (w1 & -> & [-> | ->]).
  - split; [done|]. intros Hall.
    apply Forall_lookup. intros k img. rewrite list_lookup_alter.
    case_decide as Hk.
    + destruct (images (chain w) !! image); simpl; intros Hi; by simplify_eq.
    + intros Hi. by eapply Forall_lookup_1 in Hall.
Qed.

Lemma dispatch_events_fresh evs : forall w w',
  dispatch_events w evs = Some w' ->
  (frame (chain w) = None -> frame (chain w') = None) /\
  (Forall (fun img => busy img = false) (images (chain w)) ->
   Forall (fun img => busy img = false) (images (chain w'))).
Proof.
  induction evs as [|e evs IH]; intros w w'; simpl.
  - by intros; simplify_eq.
  - destruct (dispatch_event w e) as [w1|] eqn:He; simpl; [|done].
    intros Hd. apply IH in Hd as [f2 b2].
    apply dispatch_event_fresh in He as [f1 b1]. auto.
Qed.

Lemma init_images_spec image_init n : forall i imgs,
  init_images image_init i n = inr imgs ->
  length imgs = n /\ Forall (fun img => busy img = false) imgs.
Proof.
  induction n as [|n IH]; intros i imgs; simpl.
  - by intros; simplify_eq.
  - destruct (image_init i) as [[] buf]; try done.
    destruct (init_images image_init (S i) n) as [|imgs'] eqn:Hrec; [done|].
    intros; simplify_eq. apply IH in Hrec as [Hl Hf].
    split; [simpl; congruence | by constructor].
Qed.

Lemma acquire_loop_keeps_fifo_ready end_time its : forall w r idx w',
  acquire_loop w end_time its = Returns (r, idx, w') ->
  fifo_ready (chain w) = true -> fifo_ready (chain w') = true.
Proof.
  induction its as [|it its IH]; intros w r idx w'; simpl; [done|].
  destruct (dispatch_queue_pending it) as [|evs]; [by intros; simplify_eq|].
  destruct (dispatch_events w evs) as [w1|] eqn:Hd; [|done].
  apply dispatch_events_chain in Hd. destruct Hd as (_&_&_&_&_&_& Hs & _).
  destruct (find_free_image (chain w1)) as [[i img]|].
  { intros; simplify_eq. simpl. auto. }
  destruct (timespec_after _ _); [by intros; simplify_eq; auto|].
  destruct (prepare_read_queue it) as [ret errno].
  destruct (ppoll it) as [pret perrno].
  repeat case_match; intros Hret Hsub; simplify_eq; eauto.
Qed.

Lemma without_present_keeps_fifo_ready w w1 :
  without_present w w1 ->
  fifo_ready (chain w) = true -> fifo_ready (chain w1) = true.
Proof.
  induction 1 as [w|w events w1 w2 Hd _ IH|w end_time its r idx w1 w2 Ha _ IH];
    intros Hf; [done| |].
  - apply IH.
    apply dispatch_events_chain in Hd as (_&_&_&_&_&_& Hkeep & _). auto.
  - apply IH. by eapply acquire_loop_keeps_fifo_ready.
Qed.

(** A present that finds [fifo_ready] set does not look at the connection
    before it submits. *)
Lemma present_does_not_wait w image_index damage answers :
  fifo_ready (chain w) = true ->
  wsi_wl_swapchain_queue_present w image_index damage answers =
  match copy_to_shm w image_index with
  | Some w0 => submit w0 image_index damage
  | None => Undefined
  end.
Proof.
  intros Hf. unfold wsi_wl_swapchain_queue_present.
  destruct (copy_to_shm w image_index) as [w0|] eqn:Hcopy; [|done].
  destruct (copy_to_shm_chain _ _ _ Hcopy) as [Hc0 _].
  case_bool_decide; [|done].
  rewrite wait_fifo_ready_ready; [done|congruence].
Qed.

(** How a surface comes out of a successful [wsi_wl_surface_init]: either
    no listener ran and its swapchain and feedbacks are as they were, or the
    listeners of the round trip ran from two feedbacks just initialised. *)
Lemma surface_init_inv w a w1 :
  wsi_wl_surface_init w a = Some (VK_SUCCESS, w1) ->
  (chain w1 = chain w /\ dmabuf_feedback w1 = dmabuf_feedback w /\
   pending_dmabuf_feedback w1 = pending_dmabuf_feedback w) \/
  exists w2 roundtrip h1 h2,
    dispatch_events w2 roundtrip = Some w1 /\
    chain w2 = chain w /\
    dmabuf_feedback w2 = (dmabuf_feedback_init h1).1.2 /\
    pending_dmabuf_feedback w2 = (dmabuf_feedback_init h2).1.2.
Proof.
  unfold wsi_wl_surface_init.
  destruct a as [| |has_dmabuf fs bound roundtrip]; intros Hinit;
    simplify_eq; auto.
  destruct bound; simplify_eq; auto.
  unfold wsi_wl_surface_bind_to_dmabuf_feedback in Hinit. simpl in Hinit.
  destruct (dmabuf_feedback_init (mem w)) as [[ret1 committed] h1] eqn:H1.
  destruct (ret1 <? 0); [done|].
  destruct (dmabuf_feedback_init h1) as [[ret2 pending] h2] eqn:H2.
  destruct (ret2 <? 0); [done|].
  rewrite bool_decide_eq_false_2 in Hinit by (by intros []).
  destruct (dispatch_events _ roundtrip) as [w3|] eqn:Hd;
    simpl in Hinit; simplify_eq.
  right. eexists _, roundtrip, (mem w), h1.
  split; [exact Hd|]. simpl. by rewrite H1, H2.
Qed.

Lemma create_swapchain_chain w pCreateInfo a w' :
  wsi_wl_surface_create_swapchain w pCreateInfo a
  = Some (VK_SUCCESS, Some w') ->
  fifo_ready (chain w') = true /\
  frame (chain w') = None /\
  length (images (chain w')) = minImageCount pCreateInfo /\
  Forall (fun img => busy img = false) (images (chain w')).
Proof.
  unfold wsi_wl_surface_create_swapchain.
  destruct (malloc (mem w)) as [granted h].
  destruct granted; simpl; [|done].
  destruct (wsi_wl_surface_init _ _) as [[result w1]|] eqn:Hinit;
    simpl; [|done].
  case_bool_decide; [done|].
  destruct (select_modifiers w1 _) as [num mods].
  case_bool_decide; [done|].
  destruct (init_images _ _ _) as [|imgs] eqn:Himgs; [done|].
  intros Hw. simplify_eq. simpl.
  apply init_images_spec in Himgs as [Hl Hfree].
  split_and!; try done.
  apply surface_init_inv in Hinit
    as [(Hc & _) | (w2 & roundtrip & h1 & h2 & Hd & Hc & _)].
  - by rewrite Hc.
  - apply dispatch_events_fresh in Hd as [Hfr _]. apply Hfr. by rewrite Hc.
Qed.

(** C10, as the code has it.  A swapchain that creation returns has
    [fifo_ready] set, no frame callback, and as many images as asked for,
    none of them busy.  Whatever listeners run and whatever is acquired
    before the first present, that present does not wait.  The first
    acquire, when its first dispatch of pending events does not fail and the
    swapchain has an image, returns image 0 in its first turn, with
    [VK_SUCCESS], or [VK_SUBOPTIMAL_KHR] when a feedback commit of that
    dispatch set the flag. *)
Theorem new_swapchain_is_ready w pCreateInfo a w' :
  wsi_wl_surface_create_swapchain w pCreateInfo a
  = Some (VK_SUCCESS, Some w') ->
  (fifo_ready (chain w') = true /\
   frame (chain w') = None /\
   image_count (chain w') = minImageCount pCreateInfo /\
   Forall (fun img => busy img = false) (images (chain w'))) /\
  (forall w1 image_index damage answers,
     without_present w' w1 ->
     wsi_wl_swapchain_queue_present w1 image_index damage answers =
     match copy_to_shm w1 image_index with
     | Some w0 => submit w0 image_index damage
     | None => Undefined
     end) /\
  (forall end_time it its events w1,
     (0 < minImageCount pCreateInfo)%nat ->
     dispatch_queue_pending it = dispatch_ok events ->
     dispatch_events w' events = Some w1 ->
     exists w2,
       acquire_loop w' end_time (it :: its) =
       Returns (if suboptimal (chain w1) then VK_SUBOPTIMAL_KHR
                else VK_SUCCESS, Some 0%nat, w2)).
Proof.
  intros Hc. pose proof (create_swapchain_chain _ _ _ _ Hc)
    as (Hf & Hfr & Hl & Hfree).
  split_and!; try done.
  - intros w1 image_index damage answers Hwp.
    apply present_does_not_wait.
    by eapply without_present_keeps_fifo_ready.
  - intros end_time it its events w1 Hn Hit Hd.
    pose proof (dispatch_events_fresh _ _ _ Hd) as [_ Hfree1].
    specialize (Hfree1 Hfree).
    pose proof (dispatch_events_chain _ _ _ Hd) as (_ & _ & _ & Hl1 & _).
    destruct (images (chain w1)) as [|img0 imgs] eqn:Himgs.
    { simpl in Hl1. lia. }
    apply Forall_cons_1 in Hfree1 as [Hb0 _].
    simpl. rewrite Hit, Hd. unfold find_free_image. rewrite Himgs. simpl.
    rewrite decide_True by done. simpl. eauto.
Qed.

Lemma new_swapchain_is_ready_witness :
  wsi_wl_surface_create_swapchain sample_world sample_create_info
    sample_create_answers = Some (VK_SUCCESS, Some sample_new_world)
  /\ fifo_ready (chain sample_new_world) = true
  /\ Forall (fun img => busy img = false) (images (chain sample_new_world)).
Proof.
  assert (H : wsi_wl_surface_create_swapchain sample_world sample_create_info
                sample_create_answers = Some (VK_SUCCESS, Some sample_new_world))
    by reflexivity.
  refine (conj H _).
  destruct (new_swapchain_is_ready _ _ _ _ H) as ((H1 & _ & _ & H4) & _).
  exact (conj H1 H4).
Defined.

(** C10, as stated, fails: the first acquire on a new swapchain does not
    succeed when its dispatch of pending events fails; and a swapchain
    created with no image has no image 0 to return. *)
Lemma first_acquire_on_broken_connection :
  wsi_wl_surface_create_swapchain sample_world sample_create_info
    sample_create_answers = Some (VK_SUCCESS, Some sample_new_world)
  /\ wsi_wl_swapchain_acquire_next_image sample_new_world 1000 0
       [sample_iteration dispatch_error]
     = Returns (VK_ERROR_OUT_OF_DATE_KHR, None, sample_new_world)
  /\ wsi_wl_surface_create_swapchain sample_world
       {| minImageCount := 0; imageFormat := VK_FORMAT_B8G8R8A8_UNORM |}
       sample_create_answers
     = Some (VK_SUCCESS,
             Some (set_chain (set_images [] (chain sample_new_world))
                     sample_new_world))
  /\ wsi_wl_swapchain_acquire_next_image
       (set_chain (set_images [] (chain sample_new_world)) sample_new_world)
       0 0
       [ {| dispatch_queue_pending := dispatch_ok [];
            clock_gettime := 1;
            prepare_read_queue := (0, 0);
            ppoll := (1, 0);
            read_events := 0 |} ]
     = Returns (VK_NOT_READY, None,
                set_chain (set_images [] (chain sample_new_world))
                  sample_new_world).
Proof. split_and!; reflexivity. Qed.

(** ** Surface support *)

(** C9.  The support query stores [true] and returns [VK_SUCCESS] for every
    surface, device and queue family index: two calls agree whatever their
    arguments. *)
Theorem surface_support_is_constant (Surface Device : Type)
    (s1 s2 : Surface) (d1 d2 : Device) (q1 q2 : Z) :
  wsi_wl_surface_get_support s1 d1 q1 = (VK_SUCCESS, true) /\
  wsi_wl_surface_get_support s1 d1 q1 = wsi_wl_surface_get_support s2 d2 q2.
Proof. split; reflexivity. Qed.

(** ** Reads of the format table *)

Lemma resolve_indices_undefined dev region indices : forall fs h,
  resolve_indices dev region fs indices h = None <->
  Exists (fun index => (length region <= N.to_nat index)%nat) indices.
Proof.
  induction indices as [|index indices IH]; intros fs h; simpl.
  - split; [done|]. by intros ?%Exists_nil.
  - rewrite Exists_cons.
    destruct (region !! N.to_nat index) as [e|] eqn:He.
    + apply lookup_lt_Some in He.
      destruct (wsi_wl_display_add_drm_format_modifier _ _ _ _ _)
        as [fs' h'].
      rewrite IH. split; [auto|]. intros [?|?]; [lia|done].
    + apply lookup_ge_None in He. split; auto.
Qed.

Lemma resolve_indices_no_data_undefined dev region indices : forall h,
  Exists (fun index => (length region <= N.to_nat index)%nat) indices ->
  resolve_indices_no_data dev region indices h = None.
Proof.
  induction indices as [|index indices IH]; intros h; simpl.
  - by intros ?%Exists_nil.
  - rewrite Exists_cons.
    destruct (region !! N.to_nat index) as [e|] eqn:He; [|done].
    apply lookup_lt_Some in He.
    destruct (add_vk_format_modifiers_no_data _ _ _) as [[] h']; [|done].
    intros [?|?]; [lia|by apply IH].
Qed.

Lemma steal_format_table_pending_tranche w :
  pending_tranche (pending_dmabuf_feedback (steal_format_table w))
  = pending_tranche (pending_dmabuf_feedback w).
Proof.
  unfold steal_format_table.
  by destruct (table_data (format_table (pending_dmabuf_feedback w))).
Qed.

(** C8, as the code has it.  With a mapped format table, the two
    [tranche_formats] listeners read the record at each index they receive
    without comparing the index to the size of the table: an index that is
    not below the number of records in the region makes the run undefined,
    and the run reads outside the mapped region exactly when there is such
    an index.  (For the listener of the surface, "exactly" is for a pending
    tranche whose vector is allocated: an insertion into a vector that is
    not is undefined too.) *)
Theorem tranche_formats_reads_unchecked w table region fs indices h :
  format_table (pending_dmabuf_feedback (steal_format_table w)) = table ->
  table_data table = mapped region ->
  (Exists (fun index => (length region <= N.to_nat index)%nat) indices ->
   surface_dmabuf_feedback_tranche_formats w indices = None) /\
  (formats_data (pending_tranche (pending_dmabuf_feedback w)) = true ->
   (surface_dmabuf_feedback_tranche_formats w indices = None <->
    Exists (fun index => (length region <= N.to_nat index)%nat) indices)) /\
  (default_dmabuf_feedback_tranche_formats (wsi w) table fs indices h = None
   <-> Exists (fun index => (length region <= N.to_nat index)%nat) indices).
Proof.
  intros Ht Hr.
  assert (Hdata : forall b,
    formats_data (pending_tranche (pending_dmabuf_feedback w)) = b ->
    b = true \/
    Exists (fun index => (length region <= N.to_nat index)%nat) indices ->
    (surface_dmabuf_feedback_tranche_formats w indices = None <->
     Exists (fun index => (length region <= N.to_nat index)%nat) indices)
    \/ surface_dmabuf_feedback_tranche_formats w indices = None).
  { intros b Hb Hcase.
    unfold surface_dmabuf_feedback_tranche_formats.
    rewrite Ht, Hr, steal_format_table_pending_tranche, Hb.
    destruct b.
    - left.
      rewrite <- (resolve_indices_undefined
                    (wsi (steal_format_table w)) region indices
                    (formats (pending_tranche (pending_dmabuf_feedback w)))
                    (mem (steal_format_table w))).
      destruct (resolve_indices _ _ _ _ _) as [[fs' h']|]; simpl; done.
    - right. destruct Hcase as [?|Hout]; [done|].
      by rewrite resolve_indices_no_data_undefined. }
  split_and!.
  - intros Hout.
    destruct (Hdata _ eq_refl (or_intror Hout)) as [Hiff|Hnone]; [|done].
    by apply Hiff.
  - intros Hb.
    destruct (Hdata true Hb (or_introl eq_refl)) as [Hiff|Hnone]; [done|].
    revert Hnone. unfold surface_dmabuf_feedback_tranche_formats.
    rewrite Ht, Hr, steal_format_table_pending_tranche, Hb.
    rewrite <- (resolve_indices_undefined
                  (wsi (steal_format_table w)) region indices
                  (formats (pending_tranche (pending_dmabuf_feedback w)))
                  (mem (steal_format_table w))).
    destruct (resolve_indices _ _ _ _ _) as [[fs' h']|]; simpl; done.
  - unfold default_dmabuf_feedback_tranche_formats. rewrite Hr.
    apply resolve_indices_undefined.
Qed.

Lemma tranche_formats_reads_unchecked_witness :
  let w := set_pending_dmabuf_feedback sample_committed sample_world in
  format_table (pending_dmabuf_feedback (steal_format_table w)) = sample_table
  /\ table_data sample_table
     = mapped [ {| entry_format := DRM_FORMAT_ARGB8888;
                   entry_padding := 0; entry_modifier := 7 |};
                {| entry_format := DRM_FORMAT_XRGB8888;
                   entry_padding := 0; entry_modifier := 7 |} ]
  /\ (surface_dmabuf_feedback_tranche_formats w [1%N; 40000%N; 0%N] = None <->
      Exists (fun index => (2 <= N.to_nat index)%nat) [1%N; 40000%N; 0%N]).
Proof.
  intros w.
  assert (H1 : format_table
                 (pending_dmabuf_feedback (steal_format_table w))
               = sample_table) by reflexivity.
  assert (H2 : table_data sample_table
               = mapped [ {| entry_format := DRM_FORMAT_ARGB8888;
                             entry_padding := 0; entry_modifier := 7 |};
                          {| entry_format := DRM_FORMAT_XRGB8888;
                             entry_padding := 0; entry_modifier := 7 |} ])
    by reflexivity.
  refine (conj H1 (conj H2 _)).
  exact (proj1 (proj2 (tranche_formats_reads_unchecked w sample_table _ []
                         [1%N; 40000%N; 0%N] [] H1 H2)) eq_refl).
Defined.

(** C8, as stated, fails: index 40000 into a table of two records (32 bytes
    mapped) is not checked, and the record it names, 640000 bytes into a
    region of 32, is read, by the listener of the surface and by the listener
    of the display. *)
Lemma tranche_formats_reads_outside_the_table :
  table_data sample_table
  = mapped [ {| entry_format := DRM_FORMAT_ARGB8888;
                entry_padding := 0; entry_modifier := 7 |};
             {| entry_format := DRM_FORMAT_XRGB8888;
                entry_padding := 0; entry_modifier := 7 |} ]
  /\ surface_dmabuf_feedback_tranche_formats
       (set_pending_dmabuf_feedback sample_committed sample_world)
       [40000%N] = None
  /\ default_dmabuf_feedback_tranche_formats sample_device sample_table []
       [40000%N] [] = None.
Proof. split_and!; reflexivity. Qed.

(** ** The feedback cycle *)

Lemma steal_format_table_tables stolen w :
  table_kept_or_stolen stolen w ->
  format_table (dmabuf_feedback (steal_format_table w))
  = dmabuf_feedback_format_table_init /\
  table_data (format_table (pending_dmabuf_feedback (steal_format_table w)))
  = table_data stolen /\
  (table_data stolen <> NULL ->
   format_table (pending_dmabuf_feedback (steal_format_table w)) = stolen) /\
  pending_tranche (pending_dmabuf_feedback (steal_format_table w))
  = pending_tranche (pending_dmabuf_feedback w).
Proof.
  unfold steal_format_table.
  intros [[Hnull Hcur] | (Hcur & Hdata & Hfull)].
  - rewrite Hnull. simpl. by rewrite Hcur.
  - destruct (table_data (format_table (pending_dmabuf_feedback w)))
      eqn:Hp; simpl; rewrite ?Hcur; split_and!; try done;
      congruence.
Qed.

Lemma cycle_event_tables stolen w e w' :
  cycle_event e ->
  dispatch_event w e = Some w' ->
  table_kept_or_stolen stolen w ->
  table_kept_or_stolen stolen w' /\ wsi w' = wsi w.
Proof.
  destruct e; simpl; intros Hc Hd Hinv; simplify_eq;
    rewrite ?tranche_done_eq; try done.
  destruct (steal_format_table_tables _ _ Hinv) as (Hcur & Hdata & Hfull & _).
  destruct (steal_format_table_frame w) as (_ & _ & _ & _ & Hwsi).
  assert (Hstolen : table_kept_or_stolen stolen (steal_format_table w))
    by (right; done).
  by apply tranche_formats_inv in Hd as [[? ->] | (? & ? & ? & _ & _ & _ & ->)].
Qed.

Lemma cycle_events_tables stolen events : forall w w',
  Forall cycle_event events ->
  dispatch_events w events = Some w' ->
  table_kept_or_stolen stolen w ->
  table_kept_or_stolen stolen w' /\ wsi w' = wsi w.
Proof.
  induction events as [|e events IH]; intros w w' Hc; simpl.
  - by intros; simplify_eq.
  - apply Forall_cons_1 in Hc as [He Hc].
    destruct (dispatch_event w e) as [w1|] eqn:Hd; simpl; [|done].
    intros Hds Hinv.
    destruct (cycle_event_tables stolen _ _ _ He Hd Hinv) as [Hinv1 Hwsi1].
    destruct (IH _ _ Hc Hds Hinv1) as [Hinv' Hwsi'].
    split; [done|congruence].
Qed.

(** The records that indices 1 and 0 select in the stolen table reach the
    pending tranche. *)
Example stolen_table_resolves :
  (fun w => formats (pending_tranche (pending_dmabuf_feedback w))) <$>
    surface_dmabuf_feedback_tranche_formats sample_surface [1%N; 0%N]
  = Some [ {| vk_format := VK_FORMAT_B8G8R8_SRGB;
              flags := both; modifiers := [7] |};
           {| vk_format := VK_FORMAT_B8G8R8_UNORM;
              flags := both; modifiers := [7] |};
           {| vk_format := VK_FORMAT_B8G8R8A8_SRGB;
              flags := both; modifiers := [7] |};
           {| vk_format := VK_FORMAT_B8G8R8A8_UNORM;
              flags := both; modifiers := [7] |} ].
Proof. reflexivity. Qed.

Lemma dispatch_event_tranches w e w' :
  dispatch_event w e = Some w' ->
  match e with
  | done_event =>
      dmabuf_feedback w' = pending_dmabuf_feedback w /\
      pending_dmabuf_feedback w' = (dmabuf_feedback_init (mem w)).1.2
  | tranche_done_event =>
      dmabuf_feedback w' = dmabuf_feedback w /\
      tranches (pending_dmabuf_feedback w')
      = tranches (pending_dmabuf_feedback w)
        ++ [pending_tranche (pending_dmabuf_feedback w)]
  | tranche_formats_event _ =>
      main_device (dmabuf_feedback w') = main_device (dmabuf_feedback w) /\
      tranches (dmabuf_feedback w') = tranches (dmabuf_feedback w) /\
      pending_tranche (dmabuf_feedback w')
      = pending_tranche (dmabuf_feedback w) /\
      tranches (pending_dmabuf_feedback w')
      = tranches (pending_dmabuf_feedback w) /\
      (format_table (dmabuf_feedback w') = format_table (dmabuf_feedback w)
       \/ table_data (format_table (pending_dmabuf_feedback w)) = NULL /\
          format_table (dmabuf_feedback w')
          = dmabuf_feedback_format_table_init /\
          format_table (pending_dmabuf_feedback w')
          = format_table (dmabuf_feedback w))
  | _ =>
      dmabuf_feedback w' = dmabuf_feedback w /\
      tranches (pending_dmabuf_feedback w')
      = tranches (pending_dmabuf_feedback w)
  end.
Proof.
  destruct e; simpl; intros Hd; simplify_eq; rewrite ?tranche_done_eq; simpl; try done.
  - assert (Hs :
      main_device (dmabuf_feedback (steal_format_table w))
      = main_device (dmabuf_feedback w) /\
      tranches (dmabuf_feedback (steal_format_table w))
      = tranches (dmabuf_feedback w) /\
      pending_tranche (dmabuf_feedback (steal_format_table w))
      = pending_tranche (dmabuf_feedback w) /\
      tranches (pending_dmabuf_feedback (steal_format_table w))
      = tranches (pending_dmabuf_feedback w) /\
      (format_table (dmabuf_feedback (steal_format_table w))
       = format_table (dmabuf_feedback w)
       \/ table_data (format_table (pending_dmabuf_feedback w)) = NULL /\
          format_table (dmabuf_feedback (steal_format_table w))
          = dmabuf_feedback_format_table_init /\
          format_table (pending_dmabuf_feedback (steal_format_table w))
          = format_table (dmabuf_feedback w))).
    { unfold steal_format_table.
      destruct (table_data (format_table (pending_dmabuf_feedback w)));
        simpl; auto 10. }
    by apply tranche_formats_inv in Hd as [[? ->] | (? & ? & ? & _ & _ & _ & ->)].
  - by apply done_inv in Hd as (w1 & -> & [-> | ->]).
Qed.

(** Every tranche of either feedback was there at the start or has been
    closed since. *)
Lemma tranches_are_closed events : forall w w',
  dispatch_events w events = Some w' ->
  forall t,
    t ∈ tranches (dmabuf_feedback w')
        ++ tranches (pending_dmabuf_feedback w') ->
    t ∈ tranches (dmabuf_feedback w) ++ tranches (pending_dmabuf_feedback w)
        ++ closed_tranches w events.
Proof.
  induction events as [|e events IH]; intros w w'; simpl.
  - intros; simplify_eq. by rewrite app_nil_r.
  - destruct (dispatch_event w e) as [w1|] eqn:He; simpl; [|done].
    intros Hd t Ht. specialize (IH _ _ Hd t Ht).
    apply dispatch_event_tranches in He.
    rewrite !elem_of_app in IH. rewrite !elem_of_app.
    destruct e; simpl in *;
      try (destruct He as [E1 E2]; rewrite E1, E2 in IH; tauto).
    + destruct He as (_ & E1 & _ & E2 & _). rewrite E1, E2 in IH. tauto.
    + destruct He as [E1 E2]. rewrite E1, E2 in IH. rewrite elem_of_cons.
      rewrite elem_of_app, list_elem_of_singleton in IH. tauto.
    + destruct He as [E1 E2]. rewrite E1, E2 in IH.
      destruct (dmabuf_feedback_init_spec (mem w)) as (ret & h' & Hinit).
      rewrite Hinit in IH. simpl in IH.
      rewrite elem_of_nil in IH. tauto.
Qed.

(** C1, as the code has it.  An event other than [done] leaves the main
    device and the tranches of the committed feedback as they were; its
    format table is left alone too, except that a [tranche_formats] event
    arriving while the pending feedback has no table moves it to the pending
    feedback and zeroes the committed slot.  The [done] event replaces the
    committed feedback by the pending one, whole, and starts an empty
    pending feedback, the one [dmabuf_feedback_init] makes with the
    allocator as it is: no main device, no table, no tranche, and a pending
    tranche without formats.  From a surface whose feedbacks hold no
    tranche, every tranche the committed feedback ever lists was closed by a
    [tranche_done] event. *)
Theorem feedback_commit_is_atomic :
  (forall w e w',
     dispatch_event w e = Some w' -> e <> done_event ->
     main_device (dmabuf_feedback w') = main_device (dmabuf_feedback w) /\
     tranches (dmabuf_feedback w') = tranches (dmabuf_feedback w) /\
     pending_tranche (dmabuf_feedback w')
     = pending_tranche (dmabuf_feedback w) /\
     (format_table (dmabuf_feedback w') = format_table (dmabuf_feedback w)
      \/ (exists indices, e = tranche_formats_event indices) /\
         table_data (format_table (pending_dmabuf_feedback w)) = NULL /\
         format_table (dmabuf_feedback w')
         = dmabuf_feedback_format_table_init /\
         format_table (pending_dmabuf_feedback w')
         = format_table (dmabuf_feedback w))) /\
  (forall w w',
     dispatch_event w done_event = Some w' ->
     dmabuf_feedback w' = pending_dmabuf_feedback w /\
     pending_dmabuf_feedback w' = (dmabuf_feedback_init (mem w)).1.2 /\
     main_device (pending_dmabuf_feedback w') = 0 /\
     format_table (pending_dmabuf_feedback w')
     = dmabuf_feedback_format_table_init /\
     tranches (pending_dmabuf_feedback w') = [] /\
     formats (pending_tranche (pending_dmabuf_feedback w')) = []) /\
  (forall w events w' t,
     tranches (dmabuf_feedback w) = [] ->
     tranches (pending_dmabuf_feedback w) = [] ->
     dispatch_events w events = Some w' ->
     t ∈ tranches (dmabuf_feedback w') ->
     t ∈ closed_tranches w events).
Proof.
  split_and!.
  - intros w e w' Hd Hne. apply dispatch_event_tranches in Hd.
    destruct e; try done;
      try (destruct Hd as [E _]; rewrite E; by auto).
    destruct Hd as (? & ? & ? & _ & [?|?]); split_and!; eauto.
  - intros w w' Hd. apply dispatch_event_tranches in Hd as [Hcur Hpend].
    split; [done|]. split; [done|]. rewrite Hpend.
    by destruct (dmabuf_feedback_init_spec (mem w)) as (ret & h' & ->).
  - intros w events w' t Hc Hp Hd Ht.
    pose proof (tranches_are_closed _ _ _ Hd t) as Hin.
    rewrite Hc, Hp in Hin. simpl in Hin. apply Hin.
    apply elem_of_app. by left.
Qed.

Lemma feedback_commit_is_atomic_witness :
  tranches (dmabuf_feedback sample_world) = []
  /\ tranches (pending_dmabuf_feedback sample_world) = []
  /\ exists w' t,
       dispatch_events sample_world sample_cycle = Some w'
       /\ t ∈ tranches (dmabuf_feedback w')
       /\ t ∈ closed_tranches sample_world sample_cycle.
Proof.
  assert (H1 : tranches (dmabuf_feedback sample_world) = []) by reflexivity.
  assert (H2 : tranches (pending_dmabuf_feedback sample_world) = [])
    by reflexivity.
  refine (conj H1 (conj H2 _)).
  destruct (dispatch_events sample_world sample_cycle) as [w'|] eqn:Hd;
    [|discriminate Hd].
  assert (Ht : exists t, tranches (dmabuf_feedback w') = [t]).
  { vm_compute in Hd. injection Hd as <-. simpl. eauto. }
  destruct Ht as [t Ht].
  assert (Hin : t ∈ tranches (dmabuf_feedback w'))
    by (rewrite Ht; by left).
  exists w', t. refine (conj eq_refl (conj Hin _)).
  exact (proj2 (proj2 feedback_commit_is_atomic) sample_world sample_cycle
           w' t H1 H2 Hd Hin).
Defined.

(** C1, as stated, fails: a [tranche_formats] event, which is not [done],
    changes the committed feedback, whose format table it takes. *)
Lemma committed_feedback_changes_before_done :
  exists w',
    dispatch_event sample_surface (tranche_formats_event [0%N]) = Some w'
    /\ format_table (dmabuf_feedback sample_surface) = sample_table
    /\ format_table (dmabuf_feedback w') = dmabuf_feedback_format_table_init
    /\ dmabuf_feedback w' <> dmabuf_feedback sample_surface.
Proof.
  eexists. split; [reflexivity|]. split; [reflexivity|].
  split; [reflexivity|]. intros H. discriminate H.
Qed.

(** ** The suboptimal trigger *)

Lemma mod_found_spec a B ms : forall n j,
  (forall k, read_modifier B k = ms !! k) ->
  (j + n)%nat = length ms ->
  mod_found a B j n = Some (bool_decide (a ∈ drop j ms)).
Proof.
  intros n j Hread. revert j.
  induction n as [|n IH]; intros j Hlen; simpl.
  - by rewrite drop_ge by lia.
  - rewrite Hread.
    destruct (ms !! j) as [b|] eqn:Hb.
    2:{ apply lookup_ge_None in Hb. lia. }
    simpl. rewrite (drop_S _ _ _ Hb).
    destruct (Z.eqb_spec a b) as [->|Hne].
    + f_equal. symmetry. apply bool_decide_eq_true_2. by left.
    + rewrite IH by lia. f_equal. apply bool_decide_ext.
      rewrite elem_of_cons. tauto.
Qed.

Lemma all_found_spec A B ms num_B : forall n i,
  (forall k, read_modifier B k = ms !! k) ->
  num_B = length ms ->
  (i + n)%nat = length A ->
  all_found (mods_of_feedback A) B num_B i n
  = Some (bool_decide (Forall (fun a => a ∈ ms) (drop i A))).
Proof.
  intros n i Hread ->. revert i.
  induction n as [|n IH]; intros i Hlen; simpl.
  - by rewrite drop_ge by lia.
  - destruct (A !! i) as [a|] eqn:Ha.
    2:{ apply lookup_ge_None in Ha. lia. }
    simpl. rewrite (mod_found_spec a B ms) by (done || lia).
    simpl. rewrite drop_0, (drop_S _ _ _ Ha).
    case_bool_decide as Hin.
    + rewrite IH by lia. f_equal. apply bool_decide_ext.
      split; [by constructor | by intros [_ ?]%Forall_cons_1].
    + f_equal. symmetry. apply bool_decide_eq_false_2.
      by intros [? _]%Forall_cons_1.
Qed.

(** On arrays that can be read, [sets_of_modifiers_are_the_same] holds when
    the counts agree and every modifier of A occurs in B. *)
Lemma sets_of_modifiers_are_the_same_spec A B ms num_B :
  (forall k, read_modifier B k = ms !! k) ->
  num_B = length ms ->
  sets_of_modifiers_are_the_same (length A) (mods_of_feedback A) num_B B
  = Some (bool_decide (length A = length ms /\ Forall (fun a => a ∈ ms) A)).
Proof.
  intros Hread ->. unfold sets_of_modifiers_are_the_same.
  case_bool_decide as Hlen.
  - rewrite (all_found_spec A B ms) by (done || lia).
    rewrite drop_0. f_equal. apply bool_decide_ext. tauto.
  - f_equal. symmetry. apply bool_decide_eq_false_2. tauto.
Qed.

(** With no modifier twice in A, the test decides equality of the sets. *)
Lemma same_sets_permutation (A ms : list Z) :
  NoDup A ->
  length A = length ms /\ Forall (fun a => a ∈ ms) A ->
  A ≡ₚ ms.
Proof.
  intros Hnd [Hlen Hall].
  apply submseteq_length_Permutation; [|lia].
  apply NoDup_submseteq; [done|].
  intros x Hx. exact (proj1 (Forall_forall _ _) Hall x Hx).
Qed.

Lemma modifiers_at_commit_read c ms :
  modifiers_at_commit c = Some ms ->
  (forall k,
     read_modifier (after_dmabuf_feedback_fini (drm_modifiers c)) k = ms !! k)
  /\ num_drm_modifiers c = length ms.
Proof.
  unfold modifiers_at_commit.
  destruct (drm_modifiers c) as [|ms'|ms'|]; try done;
    case_bool_decide; intros; simplify_eq; done.
Qed.

(** [pick_format_from_tranches] answers with the entry of the first tranche,
    in the order of the array, that lists the format. *)
Lemma pick_format_first_tranche ts format f :
  pick_format_from_tranches ts format = Some f <->
  exists i t k,
    ts !! i = Some t /\
    find_format (formats t) format = Some (k, f) /\
    forall j t', (j < i)%nat -> ts !! j = Some t' ->
                 find_format (formats t') format = None.
Proof.
  revert f. induction ts as [|t ts IH]; intros f; simpl.
  - split; [done|]. by intros (i & t & k & ? & _).
  - destruct (find_format (formats t) format) as [[k e]|] eqn:Hfind.
    + split.
      * intros ?; simplify_eq. exists 0%nat, t, k. split_and!; try done.
        intros j t' Hj. lia.
      * intros (i & t0 & k0 & Hi & Hf & Hfirst).
        destruct i as [|i]; simpl in Hi; simplify_eq; [done|].
        specialize (Hfirst 0%nat t ltac:(lia) eq_refl). congruence.
    + rewrite IH. split.
      * intros (i & t0 & k0 & Hi & Hf & Hfirst).
        exists (S i), t0, k0. split_and!; try done.
        intros [|j] t' Hj; simpl; intros; simplify_eq; [done|].
        eapply Hfirst; [|done]. lia.
      * intros (i & t0 & k0 & Hi & Hf & Hfirst).
        destruct i as [|i]; simpl in Hi; simplify_eq.
        exists i, t0, k0. split_and!; try done.
        intros j t' Hj Hl. apply (Hfirst (S j) t'); [lia|done].
Qed.

(** C2, as the code has it.  A commit whose comparison reads modifiers that
    are still allocated completes.  When the new feedback has no main device
    or no tranche lists the swapchain's format, [suboptimal] is left as it
    was.  Otherwise, for the entry [f] of the first tranche that lists the
    format: if its modifiers (none of them twice) and the modifiers of the
    last allocation differ as sets, [suboptimal] becomes true; if one list
    is a permutation of the other, [suboptimal] is left as it was. *)
Theorem commit_marks_suboptimal w ms :
  modifiers_at_commit (chain w) = Some ms ->
  exists w',
    surface_dmabuf_feedback_done w = Some w' /\
    dmabuf_feedback w' = pending_dmabuf_feedback w /\
    (main_device (pending_dmabuf_feedback w) = 0 ->
     suboptimal (chain w') = suboptimal (chain w)) /\
    (pick_format_from_tranches (tranches (pending_dmabuf_feedback w))
       (chain_vk_format (chain w)) = None ->
     suboptimal (chain w') = suboptimal (chain w)) /\
    (forall f,
       main_device (pending_dmabuf_feedback w) <> 0 ->
       pick_format_from_tranches (tranches (pending_dmabuf_feedback w))
         (chain_vk_format (chain w)) = Some f ->
       (NoDup (modifiers f) ->
        ~ (forall m, m ∈ modifiers f <-> m ∈ ms) ->
        suboptimal (chain w') = true) /\
       (modifiers f ≡ₚ ms -> suboptimal (chain w') = suboptimal (chain w))).
Proof.
  intros Hlive.
  apply modifiers_at_commit_read in Hlive as [Hread Hnum].
  unfold surface_dmabuf_feedback_done.
  destruct (dmabuf_feedback_init (mem w)) as [[ret pending] h]. simpl.
  unfold pick_format_from_surface_dmabuf_feedback. simpl.
  destruct (Z.eqb_spec (main_device (pending_dmabuf_feedback w)) 0)
    as [Hz|Hnz].
  { eexists. split; [reflexivity|]. simpl. split_and!; try done. }
  destruct (pick_format_from_tranches _ _) as [f|] eqn:Hpick.
  2:{ eexists. split; [reflexivity|]. simpl. split_and!; try done. }
  rewrite (sets_of_modifiers_are_the_same_spec (modifiers f) _ ms)
    by done.
  simpl. case_bool_decide as Hsame.
  - eexists. split; [reflexivity|]. simpl. split_and!; try done.
    intros f' _ ?; simplify_eq. split; [|done].
    intros Hnd Hdiff. exfalso. apply Hdiff.
    intros m. by rewrite (same_sets_permutation _ _ Hnd Hsame).
  - eexists. split; [reflexivity|]. simpl. split_and!; try done.
    intros f' _ ?; simplify_eq. split; [done|].
    intros Hperm. exfalso. apply Hsame. split.
    + by rewrite Hperm.
    + apply Forall_forall. intros m. by rewrite Hperm.
Qed.

Lemma commit_marks_suboptimal_witness :
  modifiers_at_commit (chain sample_with_main_device) = Some [1; 2]
  /\ exists w',
       surface_dmabuf_feedback_done sample_with_main_device = Some w'
       /\ suboptimal (chain sample_with_main_device) = false
       /\ suboptimal (chain w') = true.
Proof.
  assert (H : modifiers_at_commit (chain sample_with_main_device)
              = Some [1; 2]) by reflexivity.
  refine (conj H _).
  destruct (commit_marks_suboptimal _ _ H) as (w' & Hd & _ & _ & _ & Hf).
  exists w'. refine (conj Hd (conj eq_refl _)).
  refine (proj1 (Hf {| vk_format := VK_FORMAT_B8G8R8A8_UNORM;
                       flags := both; modifiers := [7] |} _ eq_refl) _ _).
  - simpl. lia.
  - simpl. apply NoDup_singleton.
  - simpl. intros Heq.
    pose proof (proj1 (Heq 7) ltac:(by left)) as Hin.
    apply elem_of_cons in Hin as [?|Hin]; [done|].
    apply list_elem_of_singleton in Hin. done.
Defined.

(** C2, as stated, fails: the feedback committed here has no main device;
    its only tranche lists the swapchain's format with modifier 7 while the
    swapchain was allocated with modifiers 1 and 2, and [suboptimal] stays
    false. *)
Lemma commit_without_main_device_keeps_flag :
  exists w',
    surface_dmabuf_feedback_done sample_without_main_device = Some w'
    /\ pick_format_from_tranches (tranches (dmabuf_feedback w'))
         (chain_vk_format (chain w'))
       = Some {| vk_format := VK_FORMAT_B8G8R8A8_UNORM;
                 flags := both; modifiers := [7] |}
    /\ drm_modifiers (chain w') = mods_of_display [1; 2]
    /\ suboptimal (chain w') = false.
Proof. eexists. split_and!; reflexivity. Qed.

(** A swapchain that took its modifiers from the committed feedback keeps a
    pointer into vectors that the next commit releases before it compares:
    with equal counts the comparison reads them. *)
Example commit_reads_released_modifiers :
  surface_dmabuf_feedback_done
    (set_chain
       {| frame := None; chain_vk_format := VK_FORMAT_B8G8R8A8_UNORM;
          buffer_type := WSI_WL_BUFFER_NATIVE; suboptimal := false;
          num_drm_modifiers := 1%nat; drm_modifiers := mods_of_feedback [7];
          present_mode := VK_PRESENT_MODE_FIFO_KHR; fifo_ready := true;
          images := [] |}
       sample_with_main_device) = None.
Proof. reflexivity. Qed.

(** ** The catalog *)

Lemma find_format_Some fs format i e :
  find_format fs format = Some (i, e) <->
  fs !! i = Some e /\ vk_format e = format /\
  forall j e', fs !! j = Some e' -> (j < i)%nat -> vk_format e' <> format.
Proof.
  unfold find_format.
  exact (list_find_Some (fun f => vk_format f = format) fs i e).
Qed.

Lemma find_format_None fs format :
  find_format fs format = None <-> format ∉ vk_format <$> fs.
Proof.
  unfold find_format. rewrite list_find_None, Forall_forall, list_elem_of_fmap.
  split.
  - intros H (e & -> & He). by apply (H e).
  - intros H e He Heq. apply H. by exists e.
Qed.

Lemma entries_of_absent fs format :
  format ∉ vk_format <$> fs -> entries_of format fs = [].
Proof.
  intros Hnotin. unfold entries_of.
  destruct (filter _ fs) as [|e l] eqn:Hf; [done|].
  assert (He : e ∈ filter (fun f => vk_format f = format) fs)
    by (rewrite Hf; by left).
  apply list_elem_of_filter in He as [Heq He].
  exfalso. apply Hnotin, list_elem_of_fmap. by exists e.
Qed.

(** In a catalog with one entry per format, the entry [find_format] returns
    is the only one of its format. *)
Lemma entries_of_unique fs : forall i e,
  NoDup (vk_format <$> fs) ->
  fs !! i = Some e ->
  entries_of (vk_format e) fs = [e].
Proof.
  unfold entries_of.
  induction fs as [|f fs IH]; intros i e Hnd Hi; [done|].
  rewrite fmap_cons in Hnd. apply NoDup_cons in Hnd as [Hnotin Hnd].
  destruct i as [|i]; simpl in Hi; simplify_eq.
  - rewrite filter_cons_True by done. f_equal.
    by apply entries_of_absent.
  - rewrite filter_cons_False; [by eapply IH|].
    intros Heq. apply Hnotin. rewrite Heq.
    apply list_elem_of_fmap. exists e. split; [done|].
    by eapply list_elem_of_lookup_2.
Qed.

Lemma existsb_eqb_elem_of (m : Z) (mods : list Z) :
  existsb (Z.eqb m) mods = true <-> m ∈ mods.
Proof.
  rewrite existsb_exists. split.
  - intros (x & Hin & ->%Z.eqb_eq). by apply list_elem_of_In.
  - intros Hin. exists m. split; [by apply list_elem_of_In | apply Z.eqb_refl].
Qed.

Lemma with_modifier_ok m mods :
  NoDup mods -> DRM_FORMAT_MOD_INVALID ∉ mods ->
  NoDup (with_modifier m mods) /\
  (DRM_FORMAT_MOD_INVALID ∉ with_modifier m mods) /\
  (m <> DRM_FORMAT_MOD_INVALID -> m ∈ with_modifier m mods) /\
  with_modifier m (with_modifier m mods) = with_modifier m mods.
Proof.
  intros Hnd Hinv. unfold with_modifier.
  destruct (Z.eqb_spec m DRM_FORMAT_MOD_INVALID) as [->|Hne]; simpl.
  { split_and!; try done. }
  destruct (existsb (Z.eqb m) mods) eqn:Hex.
  - rewrite Hex. split_and!; try done.
    intros _. by apply existsb_eqb_elem_of.
  - assert (Hnotin : m ∉ mods).
    { intros Hin%existsb_eqb_elem_of. congruence. }
    assert (Hnow : existsb (Z.eqb m) (mods ++ [m]) = true).
    { apply existsb_eqb_elem_of, elem_of_app. right. by left. }
    rewrite Hnow. split_and!; try done.
    + apply NoDup_app. split_and!; [done| |apply NoDup_singleton].
      intros x Hx ->%list_elem_of_singleton. done.
    + rewrite elem_of_app, list_elem_of_singleton. intros [?|?]; done.
    + intros _. apply elem_of_app. right. by left.
Qed.

Lemma malloc_plentiful h :
  plentiful h -> exists h', malloc h = (true, h') /\ plentiful h'.
Proof.
  destruct h as [|granted h]; simpl.
  - intros _. exists []. split; [done | constructor].
  - intros [-> Hp]%Forall_cons_1. by exists h.
Qed.

Lemma add_modifier_plentiful e m h :
  plentiful h ->
  exists h',
    wsi_wl_format_add_modifier e m h
    = ({| vk_format := vk_format e; flags := flags e;
          modifiers := with_modifier m (modifiers e) |}, h')
    /\ plentiful h'.
Proof.
  intros Hp. unfold wsi_wl_format_add_modifier, with_modifier.
  destruct (m =? DRM_FORMAT_MOD_INVALID); simpl.
  { exists h. by destruct e. }
  destruct (existsb (Z.eqb m) (modifiers e)); simpl.
  { exists h. by destruct e. }
  destruct (malloc_plentiful h Hp) as (h' & Hm & Hp').
  exists h'. unfold u_vector_add, mbind, M_bind, mret, M_ret.
  by rewrite Hm.
Qed.

Section insertion.

Context (dev : wsi_device).

(** Adding to a format that the catalog lists: flags are or-ed into its
    entry, and the modifier joins the entry's modifiers. *)
Lemma add_present fs format fl m h i e :
  find_format fs format = Some (i, e) ->
  plentiful h ->
  exists h',
    wsi_wl_display_add_vk_format_modifier dev fs format fl m h
    = (<[i := {| vk_format := vk_format e; flags := Z.lor (flags e) fl;
                 modifiers := with_modifier m (modifiers e) |}]> fs, h')
    /\ plentiful h'.
Proof.
  intros Hfind Hp.
  pose proof (proj1 (find_format_Some _ _ _ _) Hfind) as (Hi & _ & _).
  unfold wsi_wl_display_add_vk_format_modifier, wsi_wl_display_add_vk_format.
  rewrite Hfind. unfold mbind, M_bind, mret, M_ret. simpl.
  rewrite list_lookup_alter, decide_True by done. rewrite Hi. simpl.
  destruct (add_modifier_plentiful (or_flags fl e) m h Hp) as (h' & -> & Hp').
  exists h'. split; [|done]. f_equal. simpl.
  apply list_eq. intros k.
  rewrite !list_lookup_insert, length_alter, list_lookup_alter.
  destruct (decide (i = k)) as [->|Hne].
  - by rewrite !decide_True
      by (split; [done | by eapply lookup_lt_Some]).
  - done.
Qed.

(** Adding a renderable format that the catalog does not list yet. *)
Lemma add_absent fs format fl m h :
  find_format fs format = None ->
  renderable dev format ->
  plentiful h ->
  exists h',
    wsi_wl_display_add_vk_format_modifier dev fs format fl m h
    = (fs ++ [ {| vk_format := format; flags := fl;
                  modifiers := with_modifier m [] |} ], h')
    /\ plentiful h'.
Proof.
  intros Hfind Hr Hp.
  unfold wsi_wl_display_add_vk_format_modifier, wsi_wl_display_add_vk_format.
  rewrite Hfind. unfold renderable in Hr.
  rewrite (proj2 (Z.eqb_neq _ _) Hr).
  destruct (malloc_plentiful h Hp) as (h1 & Hm1 & Hp1).
  destruct (malloc_plentiful h1 Hp1) as (h2 & Hm2 & Hp2).
  unfold u_vector_add, mbind, M_bind, mret, M_ret. rewrite Hm1. simpl.
  rewrite Hm2. simpl.
  rewrite lookup_app_r, Nat.sub_diag by done. simpl.
  destruct (add_modifier_plentiful
              {| vk_format := format; flags := fl; modifiers := [] |} m h2 Hp2)
    as (h' & Hadd & Hp').
  unfold mbind, M_bind, mret, M_ret in Hadd.
  rewrite Hadd. simpl.
  exists h'. split; [|done]. f_equal.
  rewrite <- (Nat.add_0_r (length fs)) at 1.
  by rewrite insert_app_r.
Qed.

Lemma find_format_insert fs format i e e' :
  find_format fs format = Some (i, e) ->
  vk_format e' = format ->
  find_format (<[i := e']> fs) format = Some (i, e').
Proof.
  intros (Hi & He & Hfirst)%find_format_Some He'.
  apply find_format_Some. split_and!; [|done|].
  - apply list_lookup_insert_eq. by eapply lookup_lt_Some.
  - intros j e'' Hj Hlt. rewrite list_lookup_insert_ne in Hj by lia.
    by eapply Hfirst.
Qed.

Lemma find_format_app_new fs format e' :
  find_format fs format = None ->
  vk_format e' = format ->
  find_format (fs ++ [e']) format = Some (length fs, e').
Proof.
  intros Hnone He'. apply find_format_Some. split_and!; [|done|].
  - by rewrite lookup_app_r, Nat.sub_diag.
  - intros j e'' Hj Hlt. rewrite lookup_app_l in Hj by done.
    apply find_format_None in Hnone. intros Heq. apply Hnone.
    apply list_elem_of_fmap. exists e''. split; [done|].
    by eapply list_elem_of_lookup_2.
Qed.

Lemma catalog_ok_insert fs i e e' :
  catalog_ok fs ->
  fs !! i = Some e ->
  vk_format e' = vk_format e ->
  NoDup (modifiers e') ->
  DRM_FORMAT_MOD_INVALID ∉ modifiers e' ->
  catalog_ok (<[i := e']> fs).
Proof.
  intros [Hnd Hall] Hi Hf Hnd' Hinv. split.
  - rewrite list_fmap_insert, Hf.
    rewrite list_insert_id; [done|]. by rewrite list_lookup_fmap, Hi.
  - by apply Forall_insert.
Qed.

Lemma catalog_ok_app fs e' :
  catalog_ok fs ->
  find_format fs (vk_format e') = None ->
  NoDup (modifiers e') ->
  DRM_FORMAT_MOD_INVALID ∉ modifiers e' ->
  catalog_ok (fs ++ [e']).
Proof.
  intros [Hnd Hall] Hnone Hnd' Hinv. split.
  - rewrite fmap_app. apply NoDup_app. split_and!; [done| |].
    + intros x Hx ->%list_elem_of_singleton.
      by apply find_format_None in Hnone.
    + apply NoDup_singleton.
  - apply Forall_app. split; [done|]. by repeat constructor.
Qed.

(** What [wsi_wl_format_add_modifier] may do to an entry, whatever the
    allocator answers. *)
Lemma add_modifier_cases e m h :
  vk_format (wsi_wl_format_add_modifier e m h).1 = vk_format e /\
  flags (wsi_wl_format_add_modifier e m h).1 = flags e /\
  (modifiers (wsi_wl_format_add_modifier e m h).1 = modifiers e \/
   modifiers (wsi_wl_format_add_modifier e m h).1
   = with_modifier m (modifiers e)).
Proof.
  unfold wsi_wl_format_add_modifier, with_modifier.
  destruct (m =? DRM_FORMAT_MOD_INVALID); simpl; [auto|].
  destruct (existsb (Z.eqb m) (modifiers e)); simpl; [auto|].
  unfold u_vector_add, mbind, M_bind, mret, M_ret.
  destruct (malloc h) as [[] h']; simpl; auto.
Qed.

Lemma add_modifier_ok e m h :
  NoDup (modifiers e) -> DRM_FORMAT_MOD_INVALID ∉ modifiers e ->
  NoDup (modifiers (wsi_wl_format_add_modifier e m h).1) /\
  DRM_FORMAT_MOD_INVALID ∉ modifiers (wsi_wl_format_add_modifier e m h).1.
Proof.
  intros Hnd Hinv.
  destruct (add_modifier_cases e m h) as (_ & _ & [-> | ->]); [done|].
  destruct (with_modifier_ok m _ Hnd Hinv) as (? & ? & _). done.
Qed.

(** Whatever the allocator answers and whether or not the format can be
    rendered to, an insertion keeps the invariant of the catalog. *)
Lemma add_keeps_catalog_ok fs format fl m h :
  catalog_ok fs ->
  catalog_ok (wsi_wl_display_add_vk_format_modifier dev fs format fl m h).1.
Proof.
  intros Hok.
  unfold wsi_wl_display_add_vk_format_modifier, wsi_wl_display_add_vk_format.
  destruct (find_format fs format) as [[i e]|] eqn:Hfind.
  - pose proof (proj1 (find_format_Some _ _ _ _) Hfind) as (Hi & He & _).
    unfold mbind, M_bind, mret, M_ret. simpl.
    rewrite list_lookup_alter, decide_True by done. rewrite Hi. simpl.
    pose proof (add_modifier_cases (or_flags fl e) m h) as (Hf & _ & _).
    destruct Hok as [Hnd Hall].
    pose proof (Forall_lookup_1 _ _ _ _ Hall Hi) as [Hnde Hinve].
    pose proof (add_modifier_ok (or_flags fl e) m h Hnde Hinve) as [? ?].
    destruct (wsi_wl_format_add_modifier (or_flags fl e) m h) as [e' h'].
    simpl in *.
    apply (catalog_ok_insert _ i (or_flags fl e)); try done.
    + apply (catalog_ok_insert fs i e (or_flags fl e)) in Hi as Hok';
        try done.
      assert (Heq : alter (or_flags fl) i fs = <[i := or_flags fl e]> fs).
      { apply list_eq. intros k.
        rewrite list_lookup_alter, list_lookup_insert.
        destruct (decide (i = k)) as [->|Hne].
        - rewrite Hi. simpl.
          by rewrite decide_True
            by (split; [done | by eapply lookup_lt_Some]).
        - rewrite decide_False; [done|]. by intros [? _]. }
      by rewrite Heq.
    + by rewrite list_lookup_alter, decide_True, Hi.
  - unfold mbind, M_bind, mret, M_ret.
    destruct (_ =? 0); simpl; [done|].
    unfold u_vector_add, mbind, M_bind, mret, M_ret.
    destruct (malloc h) as [[] h1]; simpl; [|done].
    destruct (malloc h1) as [[] h2]; simpl; [|done].
    rewrite lookup_app_r, Nat.sub_diag by done. simpl.
    set (new := {| vk_format := format; flags := fl; modifiers := [] |}).
    pose proof (add_modifier_cases new m h2) as (Hf & _ & _).
    pose proof (add_modifier_ok new m h2 (NoDup_nil_2)
                  ltac:(by intros ?%elem_of_nil)) as [? ?].
    destruct (wsi_wl_format_add_modifier new m h2) as [e' h']. simpl in *.
    rewrite <- (Nat.add_0_r (length fs)) at 1. rewrite insert_app_r. simpl.
    apply catalog_ok_app; try done. by rewrite Hf.
Qed.

(** In a catalog with one entry per format, a format has one entry at
    most. *)
Lemma entries_of_at_most_one fs format :
  NoDup (vk_format <$> fs) -> (length (entries_of format fs) <= 1)%nat.
Proof.
  intros Hnd.
  destruct (find_format fs format) as [[i e]|] eqn:Hfind.
  - apply find_format_Some in Hfind as (Hi & <- & _).
    rewrite (entries_of_unique fs i e Hnd Hi). simpl. lia.
  - apply find_format_None in Hfind.
    rewrite (entries_of_absent fs format Hfind). simpl. lia.
Qed.

(** Two insertions of a format that can be rendered to or is listed, with
    an allocator that grants. *)
Lemma add_twice_granted fs format fl1 fl2 m h :
  catalog_ok fs ->
  plentiful h ->
  renderable dev format \/ is_Some (find_format fs format) ->
  exists fs1 h1 fs2 h2 e,
    wsi_wl_display_add_vk_format_modifier dev fs format fl1 m h = (fs1, h1) /\
    wsi_wl_display_add_vk_format_modifier dev fs1 format fl2 m h1 = (fs2, h2)
    /\ catalog_ok fs2 /\
    entries_of format fs2 = [e] /\
    flags e = Z.lor (Z.lor (flags_of format fs) fl1) fl2 /\
    NoDup (modifiers e) /\
    (DRM_FORMAT_MOD_INVALID ∉ modifiers e) /\
    (m <> DRM_FORMAT_MOD_INVALID -> m ∈ modifiers e) /\
    (fl1 = fl2 -> fs2 = fs1).
Proof.
  intros Hok Hp Hcan.
  assert (Hfirst : exists fs1 h1 i e1 mods0,
    wsi_wl_display_add_vk_format_modifier dev fs format fl1 m h = (fs1, h1) /\
    plentiful h1 /\
    find_format fs1 format = Some (i, e1) /\
    vk_format e1 = format /\
    flags e1 = Z.lor (flags_of format fs) fl1 /\
    modifiers e1 = with_modifier m mods0 /\
    NoDup mods0 /\ DRM_FORMAT_MOD_INVALID ∉ mods0).
  { destruct (find_format fs format) as [[i e0]|] eqn:Hfind.
    - destruct (add_present fs format fl1 m h i e0 Hfind Hp)
        as (h1 & Hadd & Hp1).
      pose proof (proj1 (find_format_Some _ _ _ _) Hfind) as (Hi & He & _).
      destruct Hok as [_ Hall].
      pose proof (Forall_lookup_1 _ _ _ _ Hall Hi) as [Hnd0 Hinv0].
      exists (<[i := {| vk_format := vk_format e0;
                        flags := Z.lor (flags e0) fl1;
                        modifiers := with_modifier m (modifiers e0) |}]> fs),
        h1, i,
        {| vk_format := vk_format e0; flags := Z.lor (flags e0) fl1;
           modifiers := with_modifier m (modifiers e0) |},
        (modifiers e0).
      split; [exact Hadd|].
      split_and!; try done.
      + by apply (find_format_insert fs format i e0).
      + unfold flags_of. by rewrite Hfind.
    - destruct Hcan as [Hr|[? ?]]; [|done].
      destruct (add_absent fs format fl1 m h Hfind Hr Hp)
        as (h1 & Hadd & Hp1).
      exists (fs ++ [ {| vk_format := format; flags := fl1;
                         modifiers := with_modifier m [] |} ]),
        h1, (length fs),
        {| vk_format := format; flags := fl1;
           modifiers := with_modifier m [] |}, [].
      split; [exact Hadd|].
      split_and!; try done.
      + by apply find_format_app_new.
      + unfold flags_of. by rewrite Hfind.
      + apply NoDup_nil_2.
      + by intros ?%elem_of_nil. }
  destruct Hfirst
    as (fs1 & h1 & i & e1 & mods0 & Hadd1 & Hp1 & Hfind1 & Hf1 & Hfl1 & Hm1
        & Hnd0 & Hinv0).
  destruct (add_present fs1 format fl2 m h1 i e1 Hfind1 Hp1)
    as (h2 & Hadd2 & Hp2).
  pose proof (proj1 (find_format_Some _ _ _ _) Hfind1) as (Hi1 & _ & _).
  destruct (with_modifier_ok m mods0 Hnd0 Hinv0) as (Hnd1 & Hinv1 & Hin1 & Hid).
  assert (Hok2 :
    catalog_ok (<[i := {| vk_format := vk_format e1;
                          flags := Z.lor (flags e1) fl2;
                          modifiers := with_modifier m (modifiers e1) |}]>
                  fs1)).
  { pose proof (add_keeps_catalog_ok fs format fl1 m h Hok) as Hok1.
    rewrite Hadd1 in Hok1. simpl in Hok1.
    pose proof (add_keeps_catalog_ok fs1 format fl2 m h1 Hok1) as Hok2.
    by rewrite Hadd2 in Hok2. }
  set (e2 := {| vk_format := vk_format e1; flags := Z.lor (flags e1) fl2;
                modifiers := with_modifier m (modifiers e1) |}) in *.
  assert (Hi2 : <[i := e2]> fs1 !! i = Some e2)
    by (apply list_lookup_insert_eq; by eapply lookup_lt_Some).
  exists fs1, h1, (<[i := e2]> fs1), h2, e2.
  split; [exact Hadd1|]. split; [exact Hadd2|]. split; [exact Hok2|].
  assert (Hmods : modifiers e2 = with_modifier m mods0)
    by (unfold e2; simpl; by rewrite Hm1, Hid).
  rewrite Hmods. split_and!; try done.
  - rewrite <- Hf1.
    apply (entries_of_unique _ i e2); [apply Hok2 | exact Hi2].
  - unfold e2. simpl. by rewrite Hfl1.
  - intros <-. apply list_insert_id. rewrite Hi1. f_equal.
    unfold e2. destruct e1 as [f1 g1 ms1]. simpl in *. subst.
    f_equal; [|done]. by rewrite <- Z.lor_assoc, Z.lor_diag.
Qed.


(** A format that cannot be rendered to and is not listed is rejected: the
    catalog and the allocator are left as they were. *)
Lemma add_rejected fs format fl m h :
  ~ renderable dev format ->
  find_format fs format = None ->
  wsi_wl_display_add_vk_format_modifier dev fs format fl m h = (fs, h).
Proof.
  intros Hnr Hfind.
  unfold wsi_wl_display_add_vk_format_modifier, wsi_wl_display_add_vk_format.
  rewrite Hfind. unfold renderable in Hnr. apply dec_stable in Hnr.
  by rewrite (proj2 (Z.eqb_eq _ _) Hnr).
Qed.

(** An entry whose vector of modifiers, or whose place in the catalog, the
    allocator refuses is not created. *)
Lemma add_refused fs format fl m h h' :
  renderable dev format ->
  find_format fs format = None ->
  h = false :: h' \/ h = true :: false :: h' ->
  wsi_wl_display_add_vk_format_modifier dev fs format fl m h = (fs, h').
Proof.
  intros Hr Hfind Hh.
  unfold wsi_wl_display_add_vk_format_modifier, wsi_wl_display_add_vk_format.
  rewrite Hfind. unfold renderable in Hr.
  rewrite (proj2 (Z.eqb_neq _ _) Hr).
  by destruct Hh as [-> | ->].
Qed.

(** C7, as the code has it.  In a catalog that holds one entry per format,
    two insertions of the same format and modifier, whatever the format,
    the flags, the modifier and the answers of the allocator, leave a
    catalog with one entry per format, hence one entry at most for the
    format, in which no entry lists a modifier twice or lists the invalid
    modifier.  With an allocator that grants every request, when the format
    can be rendered to or is listed already, there is exactly one entry for
    the format; its flags are the union of the flags the catalog held for
    the format and of the flags of the two insertions; the modifier is in
    the entry, once, unless it is the invalid modifier; with the same flags
    the second insertion changes nothing.  A format that cannot be rendered
    to and is not listed is rejected: each insertion leaves the catalog and
    the allocator as they were, and there is no entry for the format.  An
    insertion that the allocator refuses is not recorded: when the vector of
    modifiers of the new entry or the place of the entry in the catalog is
    refused, the catalog is as it was; and when the place of a modifier in a
    listed entry is refused, the entry gets the flags and not the
    modifier. *)
Theorem catalog_add_twice fs format fl1 fl2 m h :
  catalog_ok fs ->
  (catalog_ok (add_twice dev fs format fl1 fl2 m h).1 /\
   (length (entries_of format (add_twice dev fs format fl1 fl2 m h).1)
    <= 1)%nat /\
   forall e, e ∈ (add_twice dev fs format fl1 fl2 m h).1 ->
             NoDup (modifiers e) /\ DRM_FORMAT_MOD_INVALID ∉ modifiers e) /\
  (plentiful h ->
   renderable dev format \/ is_Some (find_format fs format) ->
   exists fs1 h1 fs2 h2 e,
     wsi_wl_display_add_vk_format_modifier dev fs format fl1 m h = (fs1, h1)
     /\
     wsi_wl_display_add_vk_format_modifier dev fs1 format fl2 m h1
     = (fs2, h2) /\
     entries_of format fs2 = [e] /\
     flags e = Z.lor (Z.lor (flags_of format fs) fl1) fl2 /\
     NoDup (modifiers e) /\
     (DRM_FORMAT_MOD_INVALID ∉ modifiers e) /\
     (m <> DRM_FORMAT_MOD_INVALID -> m ∈ modifiers e) /\
     (fl1 = fl2 -> fs2 = fs1)) /\
  (~ renderable dev format -> find_format fs format = None ->
   wsi_wl_display_add_vk_format_modifier dev fs format fl1 m h = (fs, h) /\
   add_twice dev fs format fl1 fl2 m h = (fs, h) /\
   entries_of format fs = []) /\
  (renderable dev format -> find_format fs format = None ->
   (forall h',
      h = false :: h' \/ h = true :: false :: h' ->
      wsi_wl_display_add_vk_format_modifier dev fs format fl1 m h = (fs, h'))
   /\
   (forall h',
      h = false :: false :: h' ->
      add_twice dev fs format fl1 fl2 m h = (fs, h') /\
      entries_of format fs = [])) /\
  (forall i e h',
     find_format fs format = Some (i, e) ->
     m <> DRM_FORMAT_MOD_INVALID -> m ∉ modifiers e ->
     h = false :: h' ->
     wsi_wl_display_add_vk_format_modifier dev fs format fl1 m h
     = (<[i := {| vk_format := vk_format e;
                  flags := Z.lor (flags e) fl1;
                  modifiers := modifiers e |}]> fs, h')).
Proof.
  intros Hok. split; [|split; [|split; [|split]]].
  - assert (Hok2 : catalog_ok (add_twice dev fs format fl1 fl2 m h).1).
    { unfold add_twice, mbind, M_bind.
      pose proof (add_keeps_catalog_ok fs format fl1 m h Hok) as Hok1.
      destruct (wsi_wl_display_add_vk_format_modifier dev fs format fl1 m h)
        as [fs1 h1].
      by apply add_keeps_catalog_ok. }
    split; [done|]. destruct Hok2 as [Hnd Hall]. split.
    + by apply entries_of_at_most_one.
    + intros e He. exact (proj1 (Forall_forall _ _) Hall e He).
  - intros Hp Hcan.
    destruct (add_twice_granted fs format fl1 fl2 m h Hok Hp Hcan)
      as (fs1 & h1 & fs2 & h2 & e & H1 & H2 & _ & Hrest).
    by exists fs1, h1, fs2, h2, e.
  - intros Hnr Hfind.
    pose proof (add_rejected fs format fl1 m h Hnr Hfind) as H1.
    split; [done|]. split.
    + unfold add_twice, mbind, M_bind. rewrite H1.
      by apply add_rejected.
    + by apply entries_of_absent, find_format_None.
  - intros Hr Hfind. split.
    + intros h'. by apply add_refused.
    + intros h' ->. split.
      * unfold add_twice, mbind, M_bind.
        rewrite (add_refused fs format fl1 m _ (false :: h') Hr Hfind)
          by (by left).
        apply add_refused; [done..|by left].
      * by apply entries_of_absent, find_format_None.
  - intros i e h' Hfind Hne Hnotin ->.
    pose proof (proj1 (find_format_Some _ _ _ _) Hfind) as (Hi & _ & _).
    unfold wsi_wl_display_add_vk_format_modifier,
      wsi_wl_display_add_vk_format.
    rewrite Hfind. unfold mbind, M_bind, mret, M_ret. simpl.
    rewrite list_lookup_alter, decide_True by done. rewrite Hi. simpl.
    unfold wsi_wl_format_add_modifier. simpl.
    rewrite (proj2 (Z.eqb_neq _ _) Hne).
    assert (Hex : existsb (Z.eqb m) (modifiers e) = false).
    { destruct (existsb (Z.eqb m) (modifiers e)) eqn:Hex; [|done].
      by apply existsb_eqb_elem_of in Hex. }
    rewrite Hex. simpl. f_equal.
    apply list_eq. intros k.
    rewrite !list_lookup_insert, length_alter, list_lookup_alter.
    destruct (decide (i = k)) as [->|Hne']; [|done].
    by rewrite !decide_True
      by (split; [done | by eapply lookup_lt_Some]).
Qed.

End insertion.

Lemma catalog_add_twice_witness :
  catalog_ok []
  /\ plentiful []
  /\ (renderable sample_device VK_FORMAT_B8G8R8A8_UNORM
      \/ is_Some (find_format [] VK_FORMAT_B8G8R8A8_UNORM))
  /\ exists fs2 e,
       (add_twice sample_device [] VK_FORMAT_B8G8R8A8_UNORM
          WSI_WL_FMT_ALPHA WSI_WL_FMT_OPAQUE 7 []).1 = fs2
       /\ entries_of VK_FORMAT_B8G8R8A8_UNORM fs2 = [e]
       /\ flags e = both.
Proof.
  assert (H1 : catalog_ok []).
  { split; [apply NoDup_nil_2 | constructor]. }
  assert (H2 : plentiful []) by constructor.
  assert (H3 : renderable sample_device VK_FORMAT_B8G8R8A8_UNORM
               \/ is_Some (find_format [] VK_FORMAT_B8G8R8A8_UNORM))
    by (left; unfold renderable; simpl; discriminate).
  refine (conj H1 (conj H2 (conj H3 _))).
  destruct (proj1 (proj2 (catalog_add_twice sample_device []
                            VK_FORMAT_B8G8R8A8_UNORM WSI_WL_FMT_ALPHA
                            WSI_WL_FMT_OPAQUE 7 [] H1)) H2 H3)
    as (fs1 & h1 & fs2 & h2 & e & Ha1 & Ha2 & He & Hfl & _).
  exists fs2, e. split_and!; [|exact He|exact Hfl].
  unfold add_twice, mbind, M_bind. rewrite Ha1. by rewrite Ha2.
Defined.

(** C7, as stated, fails.  A format the device cannot render to is
    rejected, so that after two insertions the catalog has no entry for it;
    the same when the allocator refuses the vector of a new entry both
    times.  And the entry of a format listed before keeps the flags it had:
    two insertions with [WSI_WL_FMT_OPAQUE] into an entry that had
    [WSI_WL_FMT_ALPHA] leave both flags, not the union of the flags
    inserted. *)
Lemma catalog_add_twice_not_as_stated :
  entries_of VK_FORMAT_B8G8R8A8_UNORM
    (add_twice blind_device [] VK_FORMAT_B8G8R8A8_UNORM
       WSI_WL_FMT_ALPHA WSI_WL_FMT_OPAQUE 7 []).1 = []
  /\ entries_of VK_FORMAT_B8G8R8A8_UNORM
       (add_twice sample_device [] VK_FORMAT_B8G8R8A8_UNORM
          WSI_WL_FMT_ALPHA WSI_WL_FMT_OPAQUE 7 [false; false]).1 = []
  /\ flags <$>
       entries_of VK_FORMAT_B8G8R8A8_UNORM
         (add_twice sample_device
            [ {| vk_format := VK_FORMAT_B8G8R8A8_UNORM;
                 flags := WSI_WL_FMT_ALPHA; modifiers := [] |} ]
            VK_FORMAT_B8G8R8A8_UNORM
            WSI_WL_FMT_OPAQUE WSI_WL_FMT_OPAQUE 7 []).1
     = [Z.lor WSI_WL_FMT_ALPHA WSI_WL_FMT_OPAQUE]
  /\ Z.lor WSI_WL_FMT_OPAQUE WSI_WL_FMT_OPAQUE
     <> Z.lor WSI_WL_FMT_ALPHA WSI_WL_FMT_OPAQUE.
Proof.
  split_and!; [reflexivity | reflexivity | reflexivity | discriminate].
Qed.

(** ** Catalogs of the states a surface reaches *)

Lemma add_vk_format_modifiers_ok dev calls m : forall fs h,
  catalog_ok fs ->
  catalog_ok (add_vk_format_modifiers dev fs calls m h).1.
Proof.
  induction calls as [|[format fl] calls IH]; intros fs h Hok; simpl; [done|].
  unfold mbind, M_bind.
  pose proof (add_keeps_catalog_ok dev fs format fl m h Hok) as Hok1.
  destruct (wsi_wl_display_add_vk_format_modifier dev fs format fl m h)
    as [fs1 h1].
  by apply IH.
Qed.

Lemma resolve_indices_ok dev region indices : forall fs h fs' h',
  resolve_indices dev region fs indices h = Some (fs', h') ->
  catalog_ok fs -> catalog_ok fs'.
Proof.
  induction indices as [|index indices IH]; intros fs h fs' h'; simpl.
  - by intros; simplify_eq.
  - destruct (region !! N.to_nat index) as [e|]; [|done].
    unfold wsi_wl_display_add_drm_format_modifier.
    pose proof (add_vk_format_modifiers_ok dev
                  (drm_format_cases dev (entry_format e))
                  (entry_modifier e) fs h) as Hstep.
    destruct (add_vk_format_modifiers _ _ _ _ _) as [fs1 h1].
    intros Hr Hok. eapply IH; [exact Hr|]. by apply Hstep.
Qed.

Lemma dmabuf_feedback_init_ok h : feedback_ok (dmabuf_feedback_init h).1.2.
Proof.
  destruct (dmabuf_feedback_init_spec h) as (ret & h' & ->).
  split; [constructor|]. split; [apply NoDup_nil_2 | constructor].
Qed.

(** The listeners keep the catalogs of both feedbacks in order. *)
Lemma dispatch_event_feedback_ok w e w' :
  dispatch_event w e = Some w' ->
  feedback_ok (dmabuf_feedback w) ->
  feedback_ok (pending_dmabuf_feedback w) ->
  feedback_ok (dmabuf_feedback w') /\
  feedback_ok (pending_dmabuf_feedback w').
Proof.
  destruct e; simpl; intros Hd Hcur Hpend; simplify_eq; rewrite ?tranche_done_eq; simpl; try done.
  - assert (Hs : feedback_ok (dmabuf_feedback (steal_format_table w)) /\
                 feedback_ok (pending_dmabuf_feedback (steal_format_table w))).
    { unfold steal_format_table.
      by destruct (table_data (format_table (pending_dmabuf_feedback w))). }
    destruct Hs as [Hcur1 [Hts Hpt]].
    apply tranche_formats_inv in Hd as [[? ->] | (? & fs & ? & _ & _ & Hr & ->)];
      [done|].
    simpl. split; [done|]. split; [done|]. simpl.
    by eapply resolve_indices_ok.
  - destruct Hpend as [Hts Hpt]. split; [done|]. split; simpl.
    + apply Forall_app. split; [done|]. by constructor.
    + destruct (dmabuf_feedback_tranche_init_spec (mem w))
        as (ret & h' & ->).
      split; [apply NoDup_nil_2 | constructor].
  - apply done_inv in Hd as (w1 & -> & [-> | ->]); simpl;
      (split; [done | apply dmabuf_feedback_init_ok]).
Qed.

(** The entry a commit compares has no modifier twice. *)
Lemma pick_format_ok ts format f :
  Forall (fun t => catalog_ok (formats t)) ts ->
  pick_format_from_tranches ts format = Some f ->
  NoDup (modifiers f) /\ DRM_FORMAT_MOD_INVALID ∉ modifiers f.
Proof.
  intros Hall (i & t & k & Hi & Hf & _)%pick_format_first_tranche.
  pose proof (Forall_lookup_1 _ _ _ _ Hall Hi) as [_ Hmods].
  apply find_format_Some in Hf as (Hk & _).
  exact (Forall_lookup_1 _ _ _ _ Hmods Hk).
Qed.

(** What the commit does for a swapchain that took its modifiers from the
    feedback being replaced: the comparison runs after that feedback is
    released, so that it completes only when the counts differ, or when the
    new entry has no modifier at all. *)
Lemma commit_after_release w ms f :
  drm_modifiers (chain w) = mods_of_feedback ms ->
  main_device (pending_dmabuf_feedback w) <> 0 ->
  pick_format_from_tranches (tranches (pending_dmabuf_feedback w))
    (chain_vk_format (chain w)) = Some f ->
  (length (modifiers f) <> num_drm_modifiers (chain w) ->
   exists w', surface_dmabuf_feedback_done w = Some w' /\
              suboptimal (chain w') = true) /\
  (length (modifiers f) = num_drm_modifiers (chain w) ->
   modifiers f <> [] ->
   surface_dmabuf_feedback_done w = None).
Proof.
  intros Hptr Hmain Hpick.
  unfold surface_dmabuf_feedback_done.
  destruct (dmabuf_feedback_init (mem w)) as [[ret pending] h]. simpl.
  unfold pick_format_from_surface_dmabuf_feedback. simpl.
  rewrite (proj2 (Z.eqb_neq _ _) Hmain), Hpick, Hptr. simpl.
  unfold sets_of_modifiers_are_the_same. split.
  - intros Hne. rewrite bool_decide_eq_false_2 by done. simpl. eauto.
  - intros Heq Hnil. rewrite bool_decide_eq_true_2 by done.
    destruct (modifiers f) as [|a mods] eqn:Hm; [done|].
    simpl in Heq. rewrite <- Heq. simpl. done.
Qed.

(** * Further properties of the code *)

(** ** Formats on the wire *)

(** Splits the [switch] over a DRM or Vulkan format in the goal into its
    cases. *)
Ltac switch_cases :=
  repeat match goal with
  | |- context [if ?d =? ?c then _ else _] =>
      destruct (Z.eqb_spec d c) as [->|?]; simpl
  | |- context [(?d =? ?c) || _] =>
      destruct (Z.eqb_spec d c) as [->|?]; simpl
  end.

(** X1.  The two directions of the format mapping agree, except for the
    24-bit BGR formats.  When the catalog derives a Vulkan format with the
    alpha (or opaque) flag from a DRM format, [wl_drm_format_for_vk_format]
    gives back that DRM format for the Vulkan format with (or without)
    alpha.  The exception: the catalog derives [VK_FORMAT_B8G8R8_UNORM] and
    [VK_FORMAT_B8G8R8_SRGB] from [DRM_FORMAT_XRGB8888], while the way back
    gives [DRM_FORMAT_BGRX8888], a format from which the catalog derives
    nothing. *)
Theorem drm_format_round_trip dev drm_format vk fl (alpha : bool) :
  (vk, fl) ∈ drm_format_cases dev drm_format ->
  Z.land fl (if alpha then WSI_WL_FMT_ALPHA else WSI_WL_FMT_OPAQUE) <> 0 ->
  (vk <> VK_FORMAT_B8G8R8_UNORM -> vk <> VK_FORMAT_B8G8R8_SRGB ->
   wl_drm_format_for_vk_format (MESA_LITTLE_ENDIAN dev) vk alpha
   = drm_format) /\
  (vk = VK_FORMAT_B8G8R8_UNORM \/ vk = VK_FORMAT_B8G8R8_SRGB ->
   drm_format = DRM_FORMAT_XRGB8888 /\
   wl_drm_format_for_vk_format (MESA_LITTLE_ENDIAN dev) vk alpha
   = DRM_FORMAT_BGRX8888 /\
   drm_format_cases dev DRM_FORMAT_BGRX8888 = []).
Proof.
  unfold drm_format_cases, wl_drm_format_for_vk_format.
  destruct (MESA_LITTLE_ENDIAN dev); unfold packed_case, unpacked_case;
    switch_cases; intros Hin Hfl;
    repeat (apply elem_of_cons in Hin as [[= -> ->]|Hin]);
    try (by apply elem_of_nil in Hin);
    destruct alpha; vm_compute in Hfl; try done;
    (split; [intros H1 H2; try done; vm_compute; done
            |intros [H|H]; try discriminate H; vm_compute; done]).
Qed.

Lemma drm_format_round_trip_witness :
  (VK_FORMAT_B8G8R8A8_UNORM, WSI_WL_FMT_ALPHA)
    ∈ drm_format_cases sample_device DRM_FORMAT_ARGB8888
  /\ wl_drm_format_for_vk_format true VK_FORMAT_B8G8R8A8_UNORM true
     = DRM_FORMAT_ARGB8888.
Proof.
  assert (Hin : (VK_FORMAT_B8G8R8A8_UNORM, WSI_WL_FMT_ALPHA)
                  ∈ drm_format_cases sample_device DRM_FORMAT_ARGB8888).
  { vm_compute. repeat constructor. }
  refine (conj Hin _).
  refine (proj1 (drm_format_round_trip sample_device DRM_FORMAT_ARGB8888
                   VK_FORMAT_B8G8R8A8_UNORM WSI_WL_FMT_ALPHA true Hin _) _ _);
    vm_compute; discriminate.
Defined.

(** The DRM formats [wl_drm_format_for_vk_format] can return. *)
Lemma wl_drm_format_values little_endian vk alpha :
  wl_drm_format_for_vk_format little_endian vk alpha = DRM_FORMAT_INVALID \/
  wl_drm_format_for_vk_format little_endian vk alpha
    ∈ [ DRM_FORMAT_RGBA4444; DRM_FORMAT_RGBX4444; DRM_FORMAT_BGRA4444;
        DRM_FORMAT_BGRX4444; DRM_FORMAT_RGB565; DRM_FORMAT_BGR565;
        DRM_FORMAT_ARGB1555; DRM_FORMAT_XRGB1555; DRM_FORMAT_RGBA5551;
        DRM_FORMAT_RGBX5551; DRM_FORMAT_BGRA5551; DRM_FORMAT_BGRX5551;
        DRM_FORMAT_ARGB2101010; DRM_FORMAT_XRGB2101010;
        DRM_FORMAT_ABGR2101010; DRM_FORMAT_XBGR2101010;
        DRM_FORMAT_XBGR8888; DRM_FORMAT_ABGR8888; DRM_FORMAT_BGRX8888;
        DRM_FORMAT_XRGB8888; DRM_FORMAT_ARGB8888 ].
Proof.
  unfold wl_drm_format_for_vk_format, packed_drm_format, unpacked_drm_format.
  destruct little_endian, alpha; switch_cases;
    first [by left | right; repeat constructor].
Qed.

(** X2.  The shared-memory format of a swapchain names the DRM format of
    the swapchain: [drm_format_for_wl_shm_format] undoes
    [wl_shm_format_for_vk_format] for every Vulkan format that has a DRM
    format.  For a format that has none, the shared-memory format is 0,
    which is the code of [WL_SHM_FORMAT_ARGB8888]. *)
Theorem shm_format_round_trip little_endian vk alpha :
  (wl_drm_format_for_vk_format little_endian vk alpha <> DRM_FORMAT_INVALID ->
   drm_format_for_wl_shm_format
     (wl_shm_format_for_vk_format little_endian vk alpha)
   = wl_drm_format_for_vk_format little_endian vk alpha) /\
  (wl_drm_format_for_vk_format little_endian vk alpha = DRM_FORMAT_INVALID ->
   wl_shm_format_for_vk_format little_endian vk alpha
   = WL_SHM_FORMAT_ARGB8888 /\
   drm_format_for_wl_shm_format
     (wl_shm_format_for_vk_format little_endian vk alpha)
   = DRM_FORMAT_ARGB8888).
Proof.
  unfold wl_shm_format_for_vk_format, drm_format_for_wl_shm_format.
  destruct (wl_drm_format_values little_endian vk alpha) as [-> | Hin].
  { split; [done | by vm_compute]. }
  revert Hin.
  generalize (wl_drm_format_for_vk_format little_endian vk alpha) as d.
  intros d Hin.
  repeat (apply elem_of_cons in Hin as [->|Hin]);
    try (by apply elem_of_nil in Hin);
    (split; [intros _; by vm_compute
            |intros H; vm_compute in H; discriminate H]).
Qed.

(** ** Growth of a catalog *)

Lemma land_lor_same a b : Z.land a (Z.lor a b) = a.
Proof.
  apply Z.bits_inj'. intros n _. rewrite Z.land_spec, Z.lor_spec.
  by destruct (Z.testbit a n), (Z.testbit b n).
Qed.

Lemma with_modifier_cases m mods :
  with_modifier m mods = mods \/
  with_modifier m mods = mods ++ [m] /\ m <> DRM_FORMAT_MOD_INVALID /\
  m ∉ mods.
Proof.
  unfold with_modifier.
  destruct (Z.eqb_spec m DRM_FORMAT_MOD_INVALID) as [->|Hne]; simpl; [auto|].
  destruct (existsb (Z.eqb m) mods) eqn:Hex; [auto|].
  right. split_and!; [done..|].
  intros Hin%existsb_eqb_elem_of. congruence.
Qed.

Lemma with_modifier_invalid mods :
  with_modifier DRM_FORMAT_MOD_INVALID mods = mods.
Proof. done. Qed.

(** What one insertion does to a catalog, whatever the allocator answers:
    nothing, or it replaces the entry of the format by one with more flags
    and at most one more modifier, or it appends an entry for the
    format. *)
Lemma add_step dev fs format fl m h :
  (wsi_wl_display_add_vk_format_modifier dev fs format fl m h).1 = fs \/
  (exists i e e',
     find_format fs format = Some (i, e) /\
     (wsi_wl_display_add_vk_format_modifier dev fs format fl m h).1
     = <[i := e']> fs /\
     vk_format e' = vk_format e /\
     flags e' = Z.lor (flags e) fl /\
     (modifiers e' = modifiers e \/
      modifiers e' = with_modifier m (modifiers e))) \/
  (exists e',
     find_format fs format = None /\
     renderable dev format /\
     (wsi_wl_display_add_vk_format_modifier dev fs format fl m h).1
     = fs ++ [e'] /\
     vk_format e' = format /\
     flags e' = fl /\
     (modifiers e' = [] \/ modifiers e' = with_modifier m [])).
Proof.
  unfold wsi_wl_display_add_vk_format_modifier, wsi_wl_display_add_vk_format.
  destruct (find_format fs format) as [[i e]|] eqn:Hfind.
  - right. left.
    pose proof (proj1 (find_format_Some _ _ _ _) Hfind) as (Hi & He & _).
    unfold mbind, M_bind, mret, M_ret. simpl.
    rewrite list_lookup_alter, decide_True by done. rewrite Hi. simpl.
    pose proof (add_modifier_cases (or_flags fl e) m h) as (Hf & Hfl & Hm).
    destruct (wsi_wl_format_add_modifier (or_flags fl e) m h) as [e' h'].
    simpl in *. exists i, e, e'. split_and!; try done.
    apply list_eq. intros k.
    rewrite !list_lookup_insert, length_alter, list_lookup_alter.
    destruct (decide (i = k)) as [->|Hne].
    + by rewrite !decide_True
        by (split; [done | by eapply lookup_lt_Some]).
    + rewrite !decide_False; [done | by intros [? _]].
  - unfold mbind, M_bind, mret, M_ret.
    destruct (Z.eqb_spec (Z.land (optimalTilingFeatures dev format)
                            VK_FORMAT_FEATURE_COLOR_ATTACHMENT_BIT) 0)
      as [?|Hr]; simpl; [by left|].
    unfold u_vector_add, mbind, M_bind, mret, M_ret.
    destruct (malloc h) as [[] h1]; simpl; [|by left].
    destruct (malloc h1) as [[] h2]; simpl; [|by left].
    right. right.
    rewrite lookup_app_r, Nat.sub_diag by done. simpl.
    set (new := {| vk_format := format; flags := fl; modifiers := [] |}).
    pose proof (add_modifier_cases new m h2) as (Hf & Hfl & Hm).
    destruct (wsi_wl_format_add_modifier new m h2) as [e' h']. simpl in *.
    exists e'. split_and!; try done.
    rewrite <- (Nat.add_0_r (length fs)) at 1. by rewrite insert_app_r.
Qed.

(** A relation between catalogs that holds across one insertion holds
    across the insertions of a DRM format and across the resolution of a
    list of indices. *)
Section closure.

Context (dev : wsi_device) (R : relation (list wsi_wl_format)).
Context (P : VkFormat -> Z -> Prop).
Context (R_refl : forall fs, R fs fs).
Context (R_trans : forall fs1 fs2 fs3, R fs1 fs2 -> R fs2 fs3 -> R fs1 fs3).
Context (R_step : forall fs format fl m h,
           P format m ->
           R fs (wsi_wl_display_add_vk_format_modifier dev fs format fl m h).1).

Lemma add_vk_format_modifiers_closure calls m : forall fs h,
  Forall (fun c => P c.1 m) calls ->
  R fs (add_vk_format_modifiers dev fs calls m h).1.
Proof using R_refl R_trans R_step.
  induction calls as [|[format fl] calls IH]; intros fs h Hall; simpl.
  { apply R_refl. }
  apply Forall_cons_1 in Hall as [Hc Hall].
  unfold mbind, M_bind.
  pose proof (R_step fs format fl m h Hc) as Hstep.
  destruct (wsi_wl_display_add_vk_format_modifier dev fs format fl m h)
    as [fs1 h1].
  eapply R_trans; [exact Hstep | by apply IH].
Qed.

Lemma add_drm_format_modifier_closure fs drm_format m h :
  (forall vk fl, (vk, fl) ∈ drm_format_cases dev drm_format -> P vk m) ->
  R fs (wsi_wl_display_add_drm_format_modifier dev fs drm_format m h).1.
Proof using R_refl R_trans R_step.
  intros HP. apply add_vk_format_modifiers_closure.
  apply Forall_forall. intros [vk fl] Hin. by eapply HP.
Qed.

Lemma resolve_indices_closure region indices : forall fs h fs' h',
  (forall e vk fl,
     e ∈ region -> (vk, fl) ∈ drm_format_cases dev (entry_format e) ->
     P vk (entry_modifier e)) ->
  resolve_indices dev region fs indices h = Some (fs', h') ->
  R fs fs'.
Proof using R_refl R_trans R_step.
  induction indices as [|index indices IH]; intros fs h fs' h' HP Hres;
    simpl in Hres.
  { simplify_eq. apply R_refl. }
  destruct (region !! N.to_nat index) as [e|] eqn:He; [|done].
  pose proof (add_drm_format_modifier_closure fs (entry_format e)
                (entry_modifier e) h) as Hstep.
  destruct (wsi_wl_display_add_drm_format_modifier dev fs (entry_format e)
              (entry_modifier e) h) as [fs1 h1].
  eapply R_trans; [|by eapply IH].
  apply Hstep. intros vk fl Hin. eapply HP; [|done].
  by eapply list_elem_of_lookup_2.
Qed.

End closure.

Lemma entry_grows_refl e : entry_grows e e.
Proof. split_and!; [done | apply Z.land_diag | done]. Qed.

Lemma entry_grows_trans e1 e2 e3 :
  entry_grows e1 e2 -> entry_grows e2 e3 -> entry_grows e1 e3.
Proof.
  intros (Hf1 & Hfl1 & Hm1) (Hf2 & Hfl2 & Hm2). split_and!.
  - congruence.
  - rewrite <- Hfl1 at 1. rewrite <- Z.land_assoc, Hfl2. done.
  - by etrans.
Qed.

Lemma catalog_grows_refl fs : catalog_grows fs fs.
Proof. intros i e Hi. exists e. split; [done | apply entry_grows_refl]. Qed.

Lemma catalog_grows_trans fs1 fs2 fs3 :
  catalog_grows fs1 fs2 -> catalog_grows fs2 fs3 -> catalog_grows fs1 fs3.
Proof.
  intros H12 H23 i e Hi.
  destruct (H12 i e Hi) as (e2 & Hi2 & Hg2).
  destruct (H23 i e2 Hi2) as (e3 & Hi3 & Hg3).
  exists e3. split; [done | by eapply entry_grows_trans].
Qed.

Lemma catalog_grows_length fs fs' :
  catalog_grows fs fs' -> (length fs <= length fs')%nat.
Proof.
  intros Hg. destruct (decide (length fs <= length fs')%nat) as [|Hlt]; [done|].
  destruct (lookup_lt_is_Some_2 fs (length fs')) as [e He]; [lia|].
  destruct (Hg _ _ He) as (e' & He' & _).
  apply lookup_lt_Some in He'. lia.
Qed.

Lemma catalog_grows_step dev fs format fl m h :
  catalog_grows fs
    (wsi_wl_display_add_vk_format_modifier dev fs format fl m h).1.
Proof.
  destruct (add_step dev fs format fl m h)
    as [-> | [(i & e & e' & Hfind & -> & Hf & Hfl & Hm)
             | (e' & _ & _ & -> & _)]].
  - apply catalog_grows_refl.
  - apply find_format_Some in Hfind as (Hi & _ & _).
    intros j e0 Hj. destruct (decide (i = j)) as [<-|Hne].
    + exists e'. rewrite list_lookup_insert_eq by (by eapply lookup_lt_Some).
      assert (e0 = e) as -> by congruence.
      split; [done|]. split_and!; [done| |].
      * rewrite Hfl. apply land_lor_same.
      * destruct Hm as [-> | ->]; [done|].
        destruct (with_modifier_cases m (modifiers e)) as [-> | [-> _]];
          [done | by exists [m]].
    + exists e0. rewrite list_lookup_insert_ne by done.
      split; [done | apply entry_grows_refl].
  - intros j e0 Hj. exists e0. rewrite lookup_app_l by (by eapply lookup_lt_Some).
    split; [done | apply entry_grows_refl].
Qed.

Lemma only_new_modifier_step dev m fs format fl h :
  only_new_modifier m fs
    (wsi_wl_display_add_vk_format_modifier dev fs format fl m h).1.
Proof.
  destruct (add_step dev fs format fl m h)
    as [-> | [(i & e & e' & Hfind & -> & Hf & Hfl & Hm)
             | (e' & _ & _ & -> & _ & _ & Hm)]];
    intros j e0 x Hj Hx.
  - right. by exists e0.
  - apply find_format_Some in Hfind as (Hi & _ & _).
    destruct (decide (i = j)) as [<-|Hne].
    + rewrite list_lookup_insert_eq in Hj by (by eapply lookup_lt_Some).
      assert (e0 = e') as -> by congruence.
      destruct Hm as [Hm | Hm]; rewrite Hm in Hx; [right; by exists e|].
      destruct (with_modifier_cases m (modifiers e)) as [Hw | [Hw _]];
        rewrite Hw in Hx; [right; by exists e|].
      apply elem_of_app in Hx as [Hx | ->%list_elem_of_singleton];
        [right; by exists e | by left].
    + rewrite list_lookup_insert_ne in Hj by done. right. by exists e0.
  - destruct (decide (j < length fs)%nat) as [Hlt|Hge].
    + rewrite lookup_app_l in Hj by done. right. by exists e0.
    + rewrite lookup_app_r in Hj by lia.
      destruct (j - length fs)%nat; simpl in Hj; [|done]. simplify_eq.
      destruct Hm as [Hm | Hm]; rewrite Hm in Hx;
        [by apply elem_of_nil in Hx|].
      destruct (with_modifier_cases m []) as [Hw | [Hw _]];
        rewrite Hw in Hx; [by apply elem_of_nil in Hx|].
      apply list_elem_of_singleton in Hx. by left.
Qed.

Lemma grown_by_refl Q fs : grown_by Q fs fs.
Proof. split; [apply catalog_grows_refl | congruence]. Qed.

Lemma grown_by_trans Q fs1 fs2 fs3 :
  grown_by Q fs1 fs2 -> grown_by Q fs2 fs3 -> grown_by Q fs1 fs3.
Proof.
  intros [Hg12 Hn12] [Hg23 Hn23]. split; [by eapply catalog_grows_trans|].
  intros i e3 Hi3 Hi1.
  destruct (fs2 !! i) as [e2|] eqn:Hi2; [|by eapply Hn23].
  destruct (Hg23 i e2 Hi2) as (e3' & Hi3' & Hf & _). simplify_eq.
  rewrite Hf. by eapply Hn12.
Qed.

Lemma grown_by_step dev (Q : VkFormat -> Prop) fs format fl m h :
  (renderable dev format -> Q format) ->
  grown_by Q fs
    (wsi_wl_display_add_vk_format_modifier dev fs format fl m h).1.
Proof.
  intros HQ. split; [apply catalog_grows_step|].
  destruct (add_step dev fs format fl m h)
    as [-> | [(i & e & e' & Hfind & -> & _)
             | (e' & _ & Hr & -> & Hf & _)]];
    intros j e0 Hj Hnone.
  - congruence.
  - apply find_format_Some in Hfind as (Hi & _ & _).
    destruct (decide (i = j)) as [<-|Hne]; [congruence|].
    rewrite list_lookup_insert_ne in Hj by done. congruence.
  - apply lookup_ge_None in Hnone.
    rewrite lookup_app_r in Hj by done.
    destruct (j - length fs)%nat; simpl in Hj; [|done]. simplify_eq.
    by apply HQ.
Qed.

Lemma add_drm_format_modifier_only_new dev fs drm_format m h :
  only_new_modifier m fs
    (wsi_wl_display_add_drm_format_modifier dev fs drm_format m h).1.
Proof.
  apply (add_drm_format_modifier_closure dev (only_new_modifier m)
           (fun _ m' => m' = m)); [| | |done].
  - intros fs0 i e' x Hi Hx. right. by exists e'.
  - intros fs1 fs2 fs3 H12 H23 i e3 x Hi3 Hx.
    destruct (H23 i e3 x Hi3 Hx) as [?|(e2 & Hi2 & Hx2)]; [by left|].
    by eapply H12.
  - intros fs0 format fl m' h' ->. apply only_new_modifier_step.
Qed.

(** X3.  Whatever a DRM format and modifier are and whatever the allocator
    answers, [wsi_wl_display_add_drm_format_modifier] only lets a catalog
    grow: every entry stays at its index with its format, loses no flag and
    keeps its modifiers as a prefix of its new ones; the only modifier that
    can be new in an entry is the one being added; and an entry that is new
    has a format that the device can render to and that the [switch]
    derives from the DRM format. *)
Theorem catalog_only_grows dev fs drm_format m h :
  catalog_grows fs
    (wsi_wl_display_add_drm_format_modifier dev fs drm_format m h).1 /\
  (forall i e' x,
     (wsi_wl_display_add_drm_format_modifier dev fs drm_format m h).1 !! i
     = Some e' ->
     x ∈ modifiers e' ->
     x = m \/ exists e, fs !! i = Some e /\ x ∈ modifiers e) /\
  (forall i e',
     (wsi_wl_display_add_drm_format_modifier dev fs drm_format m h).1 !! i
     = Some e' ->
     fs !! i = None ->
     renderable dev (vk_format e') /\
     exists fl, (vk_format e', fl) ∈ drm_format_cases dev drm_format).
Proof.
  split_and!.
  - apply (add_drm_format_modifier_closure dev catalog_grows
             (fun _ _ => True)); [apply catalog_grows_refl
                                 |apply catalog_grows_trans| |done].
    intros. apply catalog_grows_step.
  - apply add_drm_format_modifier_only_new.
  - pose (Q := fun vk => renderable dev vk /\
                         exists fl, (vk, fl) ∈ drm_format_cases dev drm_format).
    apply (add_drm_format_modifier_closure dev (grown_by Q)
             (fun vk _ => exists fl, (vk, fl) ∈ drm_format_cases dev drm_format));
      [apply grown_by_refl | apply grown_by_trans | | by eauto].
    intros fs0 format fl m' h' Hin. apply grown_by_step.
    intros Hr. by split.
Qed.

Lemma keeps_modifiers_refl fs : keeps_modifiers fs fs.
Proof. split; [done|]. intros i e' ->. done. Qed.

Lemma keeps_modifiers_trans fs1 fs2 fs3 :
  keeps_modifiers fs1 fs2 -> keeps_modifiers fs2 fs3 ->
  keeps_modifiers fs1 fs3.
Proof.
  intros [Hl12 H12] [Hl23 H23]. split; [lia|].
  intros i e3 Hi3. rewrite (H23 i e3 Hi3).
  destruct (fs2 !! i) as [e2|] eqn:Hi2; simpl; [by apply H12|].
  apply lookup_ge_None in Hi2.
  by rewrite (proj2 (lookup_ge_None fs1 i)) by lia.
Qed.

Lemma keeps_modifiers_step dev fs format fl h :
  keeps_modifiers fs
    (wsi_wl_display_add_vk_format_modifier dev fs format fl
       DRM_FORMAT_MOD_INVALID h).1.
Proof.
  destruct (add_step dev fs format fl DRM_FORMAT_MOD_INVALID h)
    as [-> | [(i & e & e' & Hfind & -> & Hf & Hfl & Hm)
             | (e' & _ & _ & -> & _ & _ & Hm)]].
  - apply keeps_modifiers_refl.
  - apply find_format_Some in Hfind as (Hi & _ & _).
    split; [by rewrite length_insert|].
    intros j e0 Hj. destruct (decide (i = j)) as [<-|Hne].
    + rewrite list_lookup_insert_eq in Hj by (by eapply lookup_lt_Some).
      assert (e0 = e') as -> by congruence. rewrite Hi. simpl.
      by destruct Hm as [-> | ->].
    + rewrite list_lookup_insert_ne in Hj by done. by rewrite Hj.
  - split; [rewrite length_app; lia|].
    intros j e0 Hj. destruct (decide (j < length fs)%nat) as [Hlt|Hge].
    + rewrite lookup_app_l in Hj by done. by rewrite Hj.
    + rewrite lookup_app_r in Hj by lia.
      rewrite (proj2 (lookup_ge_None fs j)) by lia. simpl.
      destruct (j - length fs)%nat; simpl in Hj; [|done].
      assert (e0 = e') as -> by congruence.
      by destruct Hm as [-> | ->].
Qed.

Lemma add_wl_shm_format_keeps_modifiers dev fs shm_format h :
  keeps_modifiers fs (wsi_wl_display_add_wl_shm_format dev fs shm_format h).1.
Proof.
  unfold wsi_wl_display_add_wl_shm_format.
  apply (add_drm_format_modifier_closure dev keeps_modifiers
           (fun _ m => m = DRM_FORMAT_MOD_INVALID));
    [apply keeps_modifiers_refl | apply keeps_modifiers_trans | | done].
  intros fs0 format fl m h' ->. apply keeps_modifiers_step.
Qed.

(** X4.  A format advertised by [wl_shm] never brings a modifier:
    [wsi_wl_display_add_wl_shm_format] leaves every entry of the catalog
    with the modifiers it had, and the entries it adds have none; no entry
    is removed.  This holds for every format code and every allocator. *)
Theorem shm_format_adds_no_modifier dev fs shm_format h :
  (length fs
   <= length (wsi_wl_display_add_wl_shm_format dev fs shm_format h).1)%nat /\
  forall i e',
    (wsi_wl_display_add_wl_shm_format dev fs shm_format h).1 !! i = Some e' ->
    modifiers e' = from_option modifiers [] (fs !! i).
Proof. apply add_wl_shm_format_keeps_modifiers. Qed.

(** X5.  The invariant of a catalog (one entry per format, no modifier
    twice in an entry, the invalid modifier in none) is kept by every way
    the file has of adding to it: a DRM format with a modifier, a [wl_shm]
    format, and the resolution of a list of indices against a format table,
    with any device, any format code, any modifier and any allocator,
    failing or not. *)
Theorem catalog_ok_is_kept dev fs :
  catalog_ok fs ->
  (forall drm_format m h,
     catalog_ok
       (wsi_wl_display_add_drm_format_modifier dev fs drm_format m h).1) /\
  (forall shm_format h,
     catalog_ok (wsi_wl_display_add_wl_shm_format dev fs shm_format h).1) /\
  (forall region indices h fs' h',
     resolve_indices dev region fs indices h = Some (fs', h') ->
     catalog_ok fs').
Proof.
  intros Hok. split_and!.
  - intros. by apply add_vk_format_modifiers_ok.
  - intros. by apply add_vk_format_modifiers_ok.
  - intros region indices h fs' h' Hres. by eapply resolve_indices_ok.
Qed.

Lemma catalog_ok_is_kept_witness :
  catalog_ok []
  /\ catalog_ok
       (wsi_wl_display_add_drm_format_modifier sample_device []
          DRM_FORMAT_XRGB8888 7 [true; false; true]).1.
Proof.
  assert (Hok : catalog_ok []).
  { split; [apply NoDup_nil_2 | constructor]. }
  refine (conj Hok _).
  exact (proj1 (catalog_ok_is_kept sample_device [] Hok)
           DRM_FORMAT_XRGB8888 7 [true; false; true]).
Defined.

(** ** Resolution through a format table *)

Lemma add_vk_format_modifier_plentiful dev fs format fl m h :
  plentiful h ->
  plentiful (wsi_wl_display_add_vk_format_modifier dev fs format fl m h).2.
Proof.
  intros Hp.
  destruct (find_format fs format) as [[i e]|] eqn:Hfind.
  - by destruct (add_present dev fs format fl m h i e Hfind Hp)
      as (h' & -> & Hp').
  - destruct (decide (renderable dev format)) as [Hr|Hnr].
    + by destruct (add_absent dev fs format fl m h Hfind Hr Hp)
        as (h' & -> & Hp').
    + unfold wsi_wl_display_add_vk_format_modifier,
        wsi_wl_display_add_vk_format.
      rewrite Hfind. unfold renderable in Hnr.
      apply dec_stable in Hnr. by rewrite (proj2 (Z.eqb_eq _ _) Hnr).
Qed.

Lemma with_modifier_elem m mods :
  m <> DRM_FORMAT_MOD_INVALID -> m ∈ with_modifier m mods.
Proof.
  intros Hne. unfold with_modifier.
  rewrite (proj2 (Z.eqb_neq _ _) Hne). simpl.
  destruct (existsb (Z.eqb m) mods) eqn:Hex.
  - by apply existsb_eqb_elem_of.
  - apply elem_of_app. right. by left.
Qed.

(** With an allocator that grants, an insertion of a format that can be
    rendered to is recorded. *)
Lemma add_vk_format_modifier_lists dev fs format fl m h :
  plentiful h ->
  renderable dev format ->
  lists (wsi_wl_display_add_vk_format_modifier dev fs format fl m h).1
    format fl m.
Proof.
  intros Hp Hr.
  destruct (find_format fs format) as [[i e]|] eqn:Hfind.
  - destruct (add_present dev fs format fl m h i e Hfind Hp)
      as (h' & -> & _).
    apply find_format_Some in Hfind as (Hi & He & _).
    eexists i, _. simpl. split_and!.
    + apply list_lookup_insert_eq. by eapply lookup_lt_Some.
    + done.
    + simpl. by rewrite Z.lor_comm, land_lor_same.
    + simpl. apply with_modifier_elem.
  - destruct (add_absent dev fs format fl m h Hfind Hr Hp)
      as (h' & -> & _).
    eexists (length fs), _. simpl. split_and!.
    + by rewrite lookup_app_r, Nat.sub_diag.
    + done.
    + simpl. apply Z.land_diag.
    + simpl. apply with_modifier_elem.
Qed.

Lemma lists_grows fs fs' vk fl m :
  catalog_grows fs fs' -> lists fs vk fl m -> lists fs' vk fl m.
Proof.
  intros Hg (i & e & Hi & Hvk & Hfl & Hm).
  destruct (Hg i e Hi) as (e' & Hi' & Hvk' & Hfl' & Hpre).
  exists i, e'. split_and!; [done|congruence| |].
  - rewrite <- Hfl, <- Z.land_assoc. by rewrite Hfl'.
  - intros Hne. eapply elem_of_prefix; [|exact Hpre]. by apply Hm.
Qed.

Lemma add_vk_format_modifiers_grows dev calls m fs h :
  catalog_grows fs (add_vk_format_modifiers dev fs calls m h).1.
Proof.
  apply (add_vk_format_modifiers_closure dev catalog_grows
           (fun _ _ => True));
    [apply catalog_grows_refl | apply catalog_grows_trans | |].
  - intros. apply catalog_grows_step.
  - by apply Forall_forall.
Qed.

Lemma add_vk_format_modifiers_lists dev calls m : forall fs h,
  plentiful h ->
  plentiful (add_vk_format_modifiers dev fs calls m h).2 /\
  forall vk fl,
    (vk, fl) ∈ calls -> renderable dev vk ->
    lists (add_vk_format_modifiers dev fs calls m h).1 vk fl m.
Proof.
  induction calls as [|[format fl0] calls IH]; intros fs h Hp; simpl.
  - split; [done|]. by intros vk fl ?%elem_of_nil.
  - unfold mbind, M_bind.
    pose proof (add_vk_format_modifier_plentiful dev fs format fl0 m h Hp)
      as Hp1.
    pose proof (add_vk_format_modifier_lists dev fs format fl0 m h Hp)
      as Hl1.
    destruct (wsi_wl_display_add_vk_format_modifier dev fs format fl0 m h)
      as [fs1 h1]. simpl in *.
    destruct (IH fs1 h1 Hp1) as [Hp2 Hl2]. split; [done|].
    intros vk fl [Heq|Hin]%elem_of_cons Hr; [|by apply Hl2].
    injection Heq as -> ->.
    eapply lists_grows; [apply add_vk_format_modifiers_grows|by apply Hl1].
Qed.

Lemma resolve_indices_grows dev region indices : forall fs h fs' h',
  resolve_indices dev region fs indices h = Some (fs', h') ->
  catalog_grows fs fs'.
Proof.
  intros fs h fs' h'.
  apply (resolve_indices_closure dev catalog_grows (fun _ _ => True));
    [apply catalog_grows_refl | apply catalog_grows_trans | | done].
  intros. apply catalog_grows_step.
Qed.

(** With an allocator that grants, every record that an index selects is
    recorded, for each format its case derives that can be rendered to. *)
Lemma resolve_indices_lists dev region indices : forall fs h fs' h',
  resolve_indices dev region fs indices h = Some (fs', h') ->
  plentiful h ->
  forall index e vk fl,
    index ∈ indices ->
    region !! N.to_nat index = Some e ->
    (vk, fl) ∈ drm_format_cases dev (entry_format e) ->
    renderable dev vk ->
    lists fs' vk fl (entry_modifier e).
Proof.
  induction indices as [|index0 indices IH]; intros fs h fs' h'; simpl.
  - intros _ _ index e vk fl ?%elem_of_nil. done.
  - destruct (region !! N.to_nat index0) as [e0|] eqn:He0; [|done].
    unfold wsi_wl_display_add_drm_format_modifier.
    intros Hres Hp index e vk fl Hin He Hcase Hr.
    destruct (add_vk_format_modifiers_lists dev
                (drm_format_cases dev (entry_format e0))
                (entry_modifier e0) fs h Hp) as [Hp1 Hl1].
    destruct (add_vk_format_modifiers dev fs _ _ h) as [fs1 h1].
    simpl in *.
    apply elem_of_cons in Hin as [->|Hin].
    + assert (e0 = e) as -> by congruence.
      eapply lists_grows; [by eapply resolve_indices_grows|].
      by apply Hl1.
    + by eapply (IH fs1 h1 fs' h' Hres Hp1).
Qed.

(** The entries that a resolution adds have a format that the device can
    render to and that the case of some record of the table derives. *)
Lemma resolve_indices_grown dev region indices fs h fs' h' :
  resolve_indices dev region fs indices h = Some (fs', h') ->
  grown_by (fun vk => renderable dev vk /\
                      exists e fl, e ∈ region /\
                        (vk, fl) ∈ drm_format_cases dev (entry_format e))
    fs fs'.
Proof.
  apply (resolve_indices_closure dev
           (grown_by (fun vk => renderable dev vk /\
                        exists e fl, e ∈ region /\
                          (vk, fl) ∈ drm_format_cases dev (entry_format e)))
           (fun vk _ => exists e fl, e ∈ region /\
                          (vk, fl) ∈ drm_format_cases dev (entry_format e)));
    [apply grown_by_refl | apply grown_by_trans | | by eauto].
  intros fs0 format fl m h0 Hin. apply grown_by_step. by split.
Qed.

(** C3.  In a cycle that has delivered no format table (the pending
    feedback had none when the cycle started, as [dmabuf_feedback_init]
    leaves it, and no [format_table] event has run since), a
    [tranche_formats] event that completes leaves the pending feedback with
    the table pointer of the last commit and the committed slot zeroed.
    When that table is mapped, the pending feedback holds it whole and the
    indices are resolved through it: the pending tranche keeps what it
    listed; with a vector that is allocated and an allocator that grants,
    it lists, for the record of each index, every format that the record's
    case derives and the device can render to, with the flags of the case
    and the modifier of the record; and every entry that is new has a
    format that the case of some record of that table derives.  With all
    indices inside that table and the vector of the pending tranche
    allocated, the listener completes. *)
Theorem tranche_formats_steals_committed_table w events w1 indices :
  table_data (format_table (pending_dmabuf_feedback w)) = NULL ->
  Forall cycle_event events ->
  dispatch_events w events = Some w1 ->
  (forall w2,
     surface_dmabuf_feedback_tranche_formats w1 indices = Some w2 ->
     table_data (format_table (pending_dmabuf_feedback w2))
     = table_data (format_table (dmabuf_feedback w)) /\
     format_table (dmabuf_feedback w2) = dmabuf_feedback_format_table_init /\
     forall region,
       table_data (format_table (dmabuf_feedback w)) = mapped region ->
       format_table (pending_dmabuf_feedback w2)
       = format_table (dmabuf_feedback w) /\
       catalog_grows
         (formats (pending_tranche (pending_dmabuf_feedback w1)))
         (formats (pending_tranche (pending_dmabuf_feedback w2))) /\
       (formats_data (pending_tranche (pending_dmabuf_feedback w1)) = true ->
        plentiful (mem w1) ->
        forall index e vk fl,
          index ∈ indices ->
          region !! N.to_nat index = Some e ->
          (vk, fl) ∈ drm_format_cases (wsi w) (entry_format e) ->
          renderable (wsi w) vk ->
          lists (formats (pending_tranche (pending_dmabuf_feedback w2)))
            vk fl (entry_modifier e)) /\
       (forall i f,
          formats (pending_tranche (pending_dmabuf_feedback w2)) !! i
          = Some f ->
          formats (pending_tranche (pending_dmabuf_feedback w1)) !! i = None ->
          renderable (wsi w) (vk_format f) /\
          exists e fl,
            e ∈ region /\
            (vk_format f, fl) ∈ drm_format_cases (wsi w) (entry_format e))) /\
  (forall region,
     table_data (format_table (dmabuf_feedback w)) = mapped region ->
     Forall (fun index => (N.to_nat index < length region)%nat) indices ->
     formats_data (pending_tranche (pending_dmabuf_feedback w1)) = true ->
     is_Some (surface_dmabuf_feedback_tranche_formats w1 indices)).
Proof.
  intros Hinit Hcycle Hd.
  set (stolen := format_table (dmabuf_feedback w)).
  assert (Hstart : table_kept_or_stolen stolen w) by (by left).
  destruct (cycle_events_tables stolen _ _ _ Hcycle Hd Hstart)
    as [Hinv Hwsi].
  destruct (steal_format_table_tables _ _ Hinv)
    as (Hcur & Hdata & Hfull & Htr).
  destruct (steal_format_table_frame w1) as (_ & _ & _ & Hmem & Hwsi1).
  unfold surface_dmabuf_feedback_tranche_formats.
  set (ws := steal_format_table w1) in *. clearbody ws.
  rewrite Hdata, Hwsi1, Hwsi, Htr, Hmem.
  split.
  - intros w2.
    destruct (table_data stolen) as [| |region] eqn:Ht.
    + intros; by simplify_eq.
    + intros; by simplify_eq.
    + destruct (formats_data (pending_tranche (pending_dmabuf_feedback w1)))
        eqn:Hstorage.
      * destruct (resolve_indices _ _ _ _ _) as [[fs h]|] eqn:Hr;
          simpl; [|done].
        intros; simplify_eq. simpl.
        split_and!; try done.
        intros region' ?; simplify_eq. split_and!.
        -- by apply Hfull.
        -- by eapply resolve_indices_grows.
        -- intros _ Hp. by eapply resolve_indices_lists.
        -- intros i f Hi Hnew.
           apply resolve_indices_grown in Hr as [_ Hr]. by eapply Hr.
      * destruct (resolve_indices_no_data _ _ _ _) as [h|] eqn:Hr;
          simpl; [|done].
        intros; simplify_eq. simpl. rewrite Htr.
        split_and!; try done.
        intros region' ?; simplify_eq. split_and!.
        -- by apply Hfull.
        -- apply catalog_grows_refl.
        -- done.
        -- intros i f Hi Hnew. congruence.
  - intros region Ht Hin Hstorage. rewrite Ht, Hstorage.
    destruct (resolve_indices (wsi w) region
                (formats (pending_tranche (pending_dmabuf_feedback w1)))
                indices (mem w1)) as [[fs h]|] eqn:Hr; simpl; [done|].
    apply resolve_indices_undefined in Hr.
    apply Exists_exists in Hr as (index & Hi & Hge).
    pose proof (proj1 (Forall_forall _ _) Hin index Hi). simpl in *. lia.
Qed.

Lemma tranche_formats_steals_committed_table_witness :
  let events := [main_device_event 1; tranche_target_device_event 1;
                 tranche_flags_event 0] in
  let w1 := surface_dmabuf_feedback_tranche_flags
              (surface_dmabuf_feedback_tranche_target_device
                 (surface_dmabuf_feedback_main_device sample_surface 1) 1) 0 in
  table_data (format_table (pending_dmabuf_feedback sample_surface)) = NULL
  /\ Forall cycle_event events
  /\ dispatch_events sample_surface events = Some w1
  /\ exists w2,
       surface_dmabuf_feedback_tranche_formats w1 [1%N; 0%N] = Some w2
       /\ lists (formats (pending_tranche (pending_dmabuf_feedback w2)))
            VK_FORMAT_B8G8R8A8_UNORM WSI_WL_FMT_ALPHA 7.
Proof.
  intros events w1.
  assert (H1 : table_data (format_table (pending_dmabuf_feedback
                                           sample_surface)) = NULL)
    by reflexivity.
  assert (H2 : Forall cycle_event events) by (repeat constructor).
  assert (H3 : dispatch_events sample_surface events = Some w1)
    by reflexivity.
  refine (conj H1 (conj H2 (conj H3 _))).
  destruct (surface_dmabuf_feedback_tranche_formats w1 [1%N; 0%N])
    as [w2|] eqn:Hw2; [|discriminate Hw2].
  exists w2. refine (conj eq_refl _).
  destruct (proj1 (tranche_formats_steals_committed_table sample_surface
                     events w1 [1%N; 0%N] H1 H2 H3) w2 Hw2)
    as (_ & _ & Hres).
  destruct (Hres _ eq_refl) as (_ & _ & Hlists & _).
  refine (Hlists eq_refl _ 0%N
            {| entry_format := DRM_FORMAT_ARGB8888;
               entry_padding := 0; entry_modifier := 7 |}
            VK_FORMAT_B8G8R8A8_UNORM WSI_WL_FMT_ALPHA _ eq_refl _ _).
  - constructor.
  - apply elem_of_cons. right. by left.
  - apply elem_of_cons. right. apply elem_of_cons. by left.
  - unfold renderable. simpl. discriminate.
Defined.

(** ** Feedback of a surface *)

Lemma dispatch_events_feedback_ok events : forall w w',
  dispatch_events w events = Some w' ->
  feedback_ok (dmabuf_feedback w) ->
  feedback_ok (pending_dmabuf_feedback w) ->
  feedback_ok (dmabuf_feedback w') /\
  feedback_ok (pending_dmabuf_feedback w').
Proof.
  induction events as [|e events IH]; intros w w' Hd Hcur Hpend;
    simpl in Hd; [by simplify_eq|].
  destruct (dispatch_event w e) as [w1|] eqn:He; [|done]. simpl in Hd.
  destruct (dispatch_event_feedback_ok _ _ _ He Hcur Hpend) as [Hcur1 Hpend1].
  by eapply IH.
Qed.

Lemma dmabuf_feedback_init_allocated h :
  feedback_allocated (dmabuf_feedback_init h).1.2.
Proof.
  destruct (dmabuf_feedback_init_spec h) as (ret & h' & ->).
  split; [constructor|done].
Qed.

(** No listener leaves a format in a tranche whose vector could not be
    allocated. *)
Lemma dispatch_event_allocated w e w' :
  dispatch_event w e = Some w' ->
  feedback_allocated (dmabuf_feedback w) ->
  feedback_allocated (pending_dmabuf_feedback w) ->
  feedback_allocated (dmabuf_feedback w') /\
  feedback_allocated (pending_dmabuf_feedback w').
Proof.
  destruct e; simpl; intros Hd Hcur Hpend; simplify_eq;
    rewrite ?tranche_done_eq; simpl; try done.
  - assert (Hs : feedback_allocated (dmabuf_feedback (steal_format_table w))
                 /\ feedback_allocated
                      (pending_dmabuf_feedback (steal_format_table w))).
    { unfold steal_format_table.
      by destruct (table_data (format_table (pending_dmabuf_feedback w))). }
    destruct Hs as [Hcur1 [Hts Hpt]].
    apply tranche_formats_inv in Hd
      as [[? ->] | (? & fs & ? & Hdata & _ & _ & ->)]; [done|].
    simpl. split; [done|]. split; [done|]. simpl. congruence.
  - destruct Hpend as [Hts Hpt]. split; [done|]. split; simpl.
    + apply Forall_app. split; [done|]. by constructor.
    + by destruct (dmabuf_feedback_tranche_init_spec (mem w))
        as (ret & h' & ->).
  - apply done_inv in Hd as (w1 & -> & [-> | ->]); simpl;
      (split; [done | apply dmabuf_feedback_init_allocated]).
Qed.

Lemma dispatch_events_allocated events : forall w w',
  dispatch_events w events = Some w' ->
  feedback_allocated (dmabuf_feedback w) ->
  feedback_allocated (pending_dmabuf_feedback w) ->
  feedback_allocated (dmabuf_feedback w') /\
  feedback_allocated (pending_dmabuf_feedback w').
Proof.
  induction events as [|e events IH]; intros w w' Hd Hcur Hpend;
    simpl in Hd; [by simplify_eq|].
  destruct (dispatch_event w e) as [w1|] eqn:He; [|done]. simpl in Hd.
  destruct (dispatch_event_allocated _ _ _ He Hcur Hpend) as [Hcur1 Hpend1].
  by eapply IH.
Qed.

(** X6.  The catalogs of a surface's feedback stay well formed as long as
    the listeners' behaviour is defined: if they are well formed before a
    list of events is dispatched (as they are when the surface has just been
    bound to its feedback), they are after it, in the committed and in the
    pending feedback, whatever the events and whatever the allocator
    answers, also to the initialisations whose result the listeners ignore;
    so the entry that a commit or a swapchain creation picks from the
    committed feedback lists no modifier twice and never the invalid
    modifier.  A tranche whose vector could not be allocated never lists a
    format: an insertion into it is undefined behaviour, and the events
    dispatched then have no state to be well formed. *)
Theorem feedback_catalogs_stay_well_formed events w w' :
  dispatch_events w events = Some w' ->
  feedback_ok (dmabuf_feedback w) ->
  feedback_ok (pending_dmabuf_feedback w) ->
  feedback_ok (dmabuf_feedback w') /\
  feedback_ok (pending_dmabuf_feedback w') /\
  (forall format f,
     pick_format_from_surface_dmabuf_feedback (dmabuf_feedback w') format
     = Some f ->
     NoDup (modifiers f) /\ DRM_FORMAT_MOD_INVALID ∉ modifiers f) /\
  (feedback_allocated (dmabuf_feedback w) ->
   feedback_allocated (pending_dmabuf_feedback w) ->
   feedback_allocated (dmabuf_feedback w') /\
   feedback_allocated (pending_dmabuf_feedback w')).
Proof.
  intros Hd Hcur Hpend.
  destruct (dispatch_events_feedback_ok _ _ _ Hd Hcur Hpend)
    as [Hcur' Hpend'].
  split_and!; [done..| |].
  - intros format f. unfold pick_format_from_surface_dmabuf_feedback.
    destruct (main_device (dmabuf_feedback w') =? 0); [done|].
    apply pick_format_ok. by destruct Hcur'.
  - intros Ha Hb. by eapply dispatch_events_allocated.
Qed.

Lemma feedback_catalogs_stay_well_formed_witness :
  let w := set_mem [false] sample_surface in
  let events := [tranche_done_event; tranche_formats_event [];
                 tranche_done_event; done_event] in
  feedback_ok (dmabuf_feedback w)
  /\ feedback_ok (pending_dmabuf_feedback w)
  /\ exists w',
       dispatch_events w events = Some w'
       /\ formats_data <$> tranches (dmabuf_feedback w') = [true; false]
       /\ feedback_ok (dmabuf_feedback w').
Proof.
  intros w events.
  assert (H1 : feedback_ok (dmabuf_feedback w)).
  { split; [|split; [apply NoDup_nil_2 | constructor]].
    constructor; [|constructor]. split; simpl.
    - apply NoDup_singleton.
    - constructor; [|constructor]. simpl. split.
      + apply NoDup_cons. split; [|apply NoDup_singleton].
        intros Hin. apply list_elem_of_singleton in Hin. discriminate Hin.
      + intros Hin.
        repeat (apply elem_of_cons in Hin as [Hin|Hin]; [discriminate Hin|]).
        by apply elem_of_nil in Hin. }
  assert (H2 : feedback_ok (pending_dmabuf_feedback w))
    by apply (dmabuf_feedback_init_ok []).
  refine (conj H1 (conj H2 _)).
  destruct (dispatch_events w events) as [w'|] eqn:Hd; [|discriminate Hd].
  exists w'. refine (conj eq_refl _).
  split.
  - vm_compute in Hd. injection Hd as <-. reflexivity.
  - exact (proj1 (feedback_catalogs_stay_well_formed events w w' Hd H1 H2)).
Defined.

Lemma mmap_failed fd size :
  fd = None \/ size <= 0 -> mmap size fd = MAP_FAILED.
Proof.
  intros [-> | Hsize]; [done|]. unfold mmap. destruct fd; [|done].
  by rewrite (proj2 (Z.leb_le _ _) Hsize).
Qed.

Lemma pick_format_empty ts format :
  Forall (fun t => formats t = []) ts ->
  pick_format_from_tranches ts format = None.
Proof.
  induction 1 as [|t ts Ht _ IH]; simpl; [done|]. by rewrite Ht.
Qed.

(** Inside a cycle whose table failed to map, a listener changes neither
    the table nor what the tranches list nor the swapchain's flag, and is
    never undefined. *)
Lemma unmapped_cycle_event w e :
  cycle_event e ->
  table_data (format_table (pending_dmabuf_feedback w)) = MAP_FAILED ->
  empty_tranches (pending_dmabuf_feedback w) ->
  exists w',
    dispatch_event w e = Some w' /\
    table_data (format_table (pending_dmabuf_feedback w')) = MAP_FAILED /\
    empty_tranches (pending_dmabuf_feedback w') /\
    chain_vk_format (chain w') = chain_vk_format (chain w) /\
    suboptimal (chain w') = suboptimal (chain w).
Proof.
  intros Hc Htable [Hts Hpt].
  destruct e; try done; simpl; try (eexists; split_and!; done).
  - unfold surface_dmabuf_feedback_tranche_formats, steal_format_table.
    rewrite Htable. simpl. rewrite Htable.
    exists w. by split_and!.
  - exists (surface_dmabuf_feedback_tranche_done w).
    split; [done|]. rewrite tranche_done_eq.
    destruct (dmabuf_feedback_tranche_init_spec (mem w)) as (ret & h' & ->).
    split; [done|]. split; [|done]. split; [|done].
    simpl. apply Forall_app. split; [done|]. by constructor.
Qed.

Lemma unmapped_cycle_events rest : forall w,
  Forall cycle_event rest ->
  table_data (format_table (pending_dmabuf_feedback w)) = MAP_FAILED ->
  empty_tranches (pending_dmabuf_feedback w) ->
  exists w',
    dispatch_events w rest = Some w' /\
    empty_tranches (pending_dmabuf_feedback w') /\
    chain_vk_format (chain w') = chain_vk_format (chain w) /\
    suboptimal (chain w') = suboptimal (chain w).
Proof.
  induction rest as [|e rest IH]; intros w Hall Htable Hempty; simpl.
  { by exists w. }
  apply Forall_cons_1 in Hall as [Hc Hall].
  destruct (unmapped_cycle_event w e Hc Htable Hempty)
    as (w1 & -> & Htable1 & Hempty1 & Hf1 & Hs1). simpl.
  destruct (IH w1 Hall Htable1 Hempty1) as (w' & -> & Hempty' & Hf' & Hs').
  exists w'. split_and!; [done..| |]; congruence.
Qed.

(** X7.  When the format table of a feedback cycle cannot be mapped (no
    file behind the descriptor, or a size that is not positive), the
    listeners ignore every [tranche_formats] event of the cycle, whatever
    its indices, without reading anything: the cycle commits tranches that
    list no format, no format can be picked from the committed feedback,
    and the [suboptimal] flag of the swapchain is left as it was, whatever
    the allocator answered when the pending feedback was initialised and
    whatever it answers during the cycle.  The listener of the
    connection-wide feedback ignores the indices in the same way. *)
Theorem unmapped_table_commits_nothing w h0 fd size rest :
  fd = None \/ size <= 0 ->
  pending_dmabuf_feedback w = (dmabuf_feedback_init h0).1.2 ->
  Forall cycle_event rest ->
  (exists w',
     dispatch_events w (format_table_event fd size :: rest ++ [done_event])
     = Some w' /\
     Forall (fun t => formats t = []) (tranches (dmabuf_feedback w')) /\
     (forall format,
        pick_format_from_surface_dmabuf_feedback (dmabuf_feedback w') format
        = None) /\
     suboptimal (chain w') = suboptimal (chain w)) /\
  (forall dev fs indices h,
     default_dmabuf_feedback_tranche_formats dev
       {| table_size := size; table_data := mmap size fd |} fs indices h
     = Some (fs, h)).
Proof.
  intros Hfail Hinit Hrest. pose proof (mmap_failed fd size Hfail) as Hmap.
  split.
  - change (format_table_event fd size :: rest ++ [done_event])
      with ([format_table_event fd size] ++ rest ++ [done_event]).
    rewrite dispatch_events_app. simpl.
    set (w0 := surface_dmabuf_feedback_format_table w fd size).
    destruct (unmapped_cycle_events rest w0 Hrest)
      as (w1 & Hd1 & [Hts Hpt] & Hf1 & Hs1).
    { unfold w0. simpl. by rewrite Hmap. }
    { unfold w0. simpl. rewrite Hinit.
      destruct (dmabuf_feedback_init_spec h0) as (ret & h' & ->).
      by split. }
    rewrite dispatch_events_app, Hd1. simpl.
    unfold surface_dmabuf_feedback_done.
    destruct (dmabuf_feedback_init (mem w1)) as [[ret pending] h]. simpl.
    unfold pick_format_from_surface_dmabuf_feedback. simpl.
    rewrite (pick_format_empty _ _ Hts).
    destruct (main_device (pending_dmabuf_feedback w1) =? 0) eqn:Hmain;
      simpl; (eexists; split; [done|]; simpl; split_and!; [done| |done]);
      intros format; rewrite Hmain; [done | by apply pick_format_empty].
  - intros dev fs indices h.
    unfold default_dmabuf_feedback_tranche_formats. simpl. by rewrite Hmap.
Qed.

Lemma unmapped_table_commits_nothing_witness :
  let rest := [main_device_event 1; tranche_formats_event [40000%N];
               tranche_done_event] in
  ((None : option (list table_entry)) = None \/ 16 <= 0)
  /\ pending_dmabuf_feedback sample_world = (dmabuf_feedback_init []).1.2
  /\ Forall cycle_event rest
  /\ exists w',
       dispatch_events sample_world
         (format_table_event None 16 :: rest ++ [done_event]) = Some w'
       /\ suboptimal (chain w') = suboptimal (chain sample_world).
Proof.
  intros rest.
  assert (H1 : (None : option (list table_entry)) = None \/ 16 <= 0)
    by (by left).
  assert (H2 : pending_dmabuf_feedback sample_world
               = (dmabuf_feedback_init []).1.2)
    by reflexivity.
  assert (H3 : Forall cycle_event rest) by (repeat constructor).
  refine (conj H1 (conj H2 (conj H3 _))).
  destruct (proj1 (unmapped_table_commits_nothing sample_world [] None 16
                     rest H1 H2 H3)) as (w' & Hd & _ & _ & Hs).
  exists w'. exact (conj Hd Hs).
Defined.

(** X8.  What [sets_of_modifiers_are_the_same] computes, on arrays that
    are live: it returns true exactly when the two counts are equal and
    every modifier of the first array occurs in the second.  When the first
    array has no modifier twice, this is the case exactly when the second
    array is a rearrangement of the first.  Without that, the result need
    not tell whether the sets are equal, and it depends on the order of the
    arguments: [a; a] against [a; b] gives true, [a; b] against [a; a]
    gives false. *)
Theorem modifier_sets_comparison (A ms : list Z) :
  sets_of_modifiers_are_the_same (length A) (mods_of_feedback A)
    (length ms) (mods_of_display ms)
  = Some (bool_decide (length A = length ms /\ Forall (fun a => a ∈ ms) A))
  /\
  (NoDup A ->
   (sets_of_modifiers_are_the_same (length A) (mods_of_feedback A)
      (length ms) (mods_of_display ms) = Some true
    <-> A ≡ₚ ms)) /\
  (forall a b,
     sets_of_modifiers_are_the_same 2 (mods_of_feedback [a; a])
       2 (mods_of_display [a; b]) = Some true) /\
  (forall a b,
     a <> b ->
     sets_of_modifiers_are_the_same 2 (mods_of_feedback [a; b])
       2 (mods_of_display [a; a]) = Some false).
Proof.
  assert (Hspec : forall A ms : list Z,
    sets_of_modifiers_are_the_same (length A) (mods_of_feedback A)
      (length ms) (mods_of_display ms)
    = Some (bool_decide (length A = length ms /\
                         Forall (fun a => a ∈ ms) A))).
  { intros A0 ms0. by apply sets_of_modifiers_are_the_same_spec. }
  split_and!.
  - apply Hspec.
  - intros Hnd. rewrite Hspec. split.
    + intros [= Hb]. apply bool_decide_eq_true_1 in Hb.
      by apply same_sets_permutation.
    + intros Hperm. f_equal. apply bool_decide_eq_true_2. split.
      * by rewrite Hperm.
      * apply Forall_forall. intros m. by rewrite Hperm.
  - intros a b. etrans; [exact (Hspec [a; a] [a; b])|]. f_equal.
    apply bool_decide_eq_true_2. split; [done|]. repeat constructor.
  - intros a b Hne. etrans; [exact (Hspec [a; b] [a; a])|]. f_equal.
    apply bool_decide_eq_false_2. intros [_ Hall].
    apply Forall_cons_1 in Hall as [_ Hall].
    apply Forall_cons_1 in Hall as [Hb _].
    apply elem_of_cons in Hb as [->|Hb]; [done|].
    apply elem_of_cons in Hb as [->|Hb]; [done|].
    by apply elem_of_nil in Hb.
Qed.

(** X9.  Which entry a feedback offers for a format: none when the
    feedback has no main device; otherwise the entry of the first tranche,
    in the order the tranches were closed, that lists the format, whatever
    later tranches list. *)
Theorem feedback_pick_prefers_first_tranche fb format f :
  pick_format_from_surface_dmabuf_feedback fb format = Some f <->
  main_device fb <> 0 /\
  exists i t k,
    tranches fb !! i = Some t /\
    find_format (formats t) format = Some (k, f) /\
    forall j t', (j < i)%nat -> tranches fb !! j = Some t' ->
                 format ∉ vk_format <$> formats t'.
Proof.
  unfold pick_format_from_surface_dmabuf_feedback.
  destruct (Z.eqb_spec (main_device fb) 0) as [Hz|Hnz].
  { split; [done | by intros [? _]]. }
  rewrite pick_format_first_tranche. split.
  - intros (i & t & k & Hi & Hf & Hfirst). split; [done|].
    exists i, t, k. split_and!; [done..|].
    intros j t' Hlt Hj. apply find_format_None. by eapply Hfirst.
  - intros (_ & i & t & k & Hi & Hf & Hfirst).
    exists i, t, k. split_and!; [done..|].
    intros j t' Hlt Hj. apply find_format_None. by eapply Hfirst.
Qed.

(** ** Acquire and present *)

(** X10.  What a return of [wsi_wl_swapchain_acquire_next_image] means,
    however many turns its loop took.  An index is returned only with
    [VK_SUCCESS] or [VK_SUBOPTIMAL_KHR], the latter exactly when the
    swapchain's flag is set, and the image of that index is then busy.
    Without an index, the result is [VK_NOT_READY] or
    [VK_ERROR_OUT_OF_DATE_KHR]; [VK_NOT_READY] is returned only when every
    image is busy and a reading of the clock was past the deadline.  The
    number of images never changes. *)
Theorem acquire_result_sound end_time its w r idx w' :
  acquire_loop w end_time its = Returns (r, idx, w') ->
  length (images (chain w')) = length (images (chain w)) /\
  match idx with
  | Some i =>
      (exists img, images (chain w') !! i = Some img /\ busy img = true) /\
      r = (if suboptimal (chain w') then VK_SUBOPTIMAL_KHR else VK_SUCCESS)
  | None =>
      (r = VK_NOT_READY \/ r = VK_ERROR_OUT_OF_DATE_KHR) /\
      (r = VK_NOT_READY ->
       Forall (fun img => busy img = true) (images (chain w')) /\
       exists it, it ∈ its /\
                  timespec_after (clock_gettime it) end_time = true)
  end.
Proof.
  revert w. induction its as [|it its IH]; intros w; simpl; [done|].
  destruct (dispatch_queue_pending it) as [|evs].
  { intros ?; simplify_eq. split; [done|]. split; [by right | done]. }
  destruct (dispatch_events w evs) as [w1|] eqn:Hd; [|done].
  apply dispatch_events_chain in Hd as (_ & _ & _ & Hlen & _).
  assert (Hrec : acquire_loop w1 end_time its = Returns (r, idx, w') ->
    length (images (chain w')) = length (images (chain w)) /\
    match idx with
    | Some i =>
        (exists img, images (chain w') !! i = Some img /\ busy img = true) /\
        r = (if suboptimal (chain w') then VK_SUBOPTIMAL_KHR else VK_SUCCESS)
    | None =>
        (r = VK_NOT_READY \/ r = VK_ERROR_OUT_OF_DATE_KHR) /\
        (r = VK_NOT_READY ->
         Forall (fun img => busy img = true) (images (chain w')) /\
         exists it0, it0 ∈ it :: its /\
                     timespec_after (clock_gettime it0) end_time = true)
    end).
  { intros Hr. destruct (IH w1 Hr) as [Hl Hm]. split; [congruence|].
    destruct idx; [done|]. destruct Hm as [Hor Hnr]. split; [done|].
    intros Hn. destruct (Hnr Hn) as [Hb (it' & Hin & Ht)]. split; [done|].
    exists it'. split; [by right | done]. }
  destruct (find_free_image (chain w1)) as [[i img]|] eqn:Hfree.
  { intros ?; simplify_eq. simpl. rewrite length_alter. split; [done|].
    apply list_find_Some in Hfree as (Hi & Hb & _). split; [|done].
    exists (set_busy true img).
    by rewrite list_lookup_alter, decide_True, Hi by done. }
  destruct (timespec_after (clock_gettime it) end_time) eqn:Ht.
  { intros ?; simplify_eq. split; [done|]. split; [by left|]. intros _. split.
    - apply list_find_None in Hfree. eapply Forall_impl; [done|].
      intros img Hb. simpl in Hb. by destruct (busy img).
    - exists it. split; [by left | done]. }
  destruct (prepare_read_queue it) as [ret errno].
  destruct (ppoll it) as [pret perrno].
  repeat case_match; try exact Hrec; intros ?; simplify_eq;
    (split; [done|]; split; [by right | done]).
Qed.

Lemma acquire_result_sound_witness :
  acquire_loop sample_world 0 [sample_iteration (dispatch_ok [])]
  = Returns (VK_SUCCESS, Some 1%nat,
             set_chain
               (set_images
                  (alter (set_busy true) 1%nat (images sample_chain))
                  sample_chain) sample_world)
  /\ exists img,
       alter (set_busy true) 1%nat (images sample_chain) !! 1%nat = Some img
       /\ busy img = true.
Proof.
  refine (conj eq_refl _).
  exact (proj1 (proj2 (acquire_result_sound 0
                         [sample_iteration (dispatch_ok [])] sample_world
                         VK_SUCCESS (Some 1%nat) _ eq_refl))).
Defined.

Lemma fmap_buffer_alter b i (imgs : list wsi_wl_image) :
  buffer <$> alter (set_busy b) i imgs = buffer <$> imgs.
Proof.
  apply list_eq. intros k.
  rewrite !list_lookup_fmap, list_lookup_alter.
  case_decide; [subst|done]. by destruct (imgs !! k).
Qed.

(** A listener other than the one of a buffer's release leaves the images
    of the swapchain as they are. *)
Lemma dispatch_event_images w e w' :
  dispatch_event w e = Some w' ->
  (forall image, e <> buffer_release_event image) ->
  images (chain w') = images (chain w).
Proof.
  destruct e; simpl; intros Hd Hne; simplify_eq; rewrite ?tranche_done_eq; simpl; try done.
  - destruct (steal_format_table_frame w) as (Hc & _).
    apply tranche_formats_inv in Hd as [[? ->] | (? & ? & ? & _ & _ & _ & ->)];
      simpl; by rewrite Hc.
  - by apply done_inv in Hd as (w1 & -> & [-> | ->]).
  - by destruct (Hne image).
Qed.

Lemma dispatch_events_images events : forall w w',
  dispatch_events w events = Some w' ->
  (forall image, buffer_release_event image ∉ events) ->
  images (chain w') = images (chain w).
Proof.
  induction events as [|e events IH]; intros w w' Hd Hne; simpl in Hd;
    [by simplify_eq|].
  destruct (dispatch_event w e) as [w1|] eqn:He; [|done]. simpl in Hd.
  rewrite (IH w1 w' Hd).
  - apply (dispatch_event_images _ _ _ He).
    intros image ->. apply (Hne image). by left.
  - intros image Hin. apply (Hne image). by right.
Qed.

Lemma all_busy_no_free_image c :
  Forall (fun img => busy img = true) (images c) ->
  find_free_image c = None.
Proof.
  intros Hall. apply list_find_None. eapply Forall_impl; [done|].
  simpl. intros img ->. done.
Qed.

(** X11.  An image that is busy stays busy until the compositor releases
    its buffer: when every image of the swapchain is busy and no turn of
    the acquire loop dispatches the release of a buffer, the call returns
    no index, whatever else is dispatched and however the waits end, and
    every image is still busy when it returns. *)
Theorem acquire_starves_without_release end_time its w r idx w' :
  Forall (fun img => busy img = true) (images (chain w)) ->
  Forall no_release its ->
  acquire_loop w end_time its = Returns (r, idx, w') ->
  idx = None /\
  Forall (fun img => busy img = true) (images (chain w')).
Proof.
  revert w. induction its as [|it its IH]; intros w Hbusy Hall; simpl;
    [done|].
  apply Forall_cons_1 in Hall as [Hit Hall]. unfold no_release in Hit.
  destruct (dispatch_queue_pending it) as [|evs].
  { intros ?; by simplify_eq. }
  destruct (dispatch_events w evs) as [w1|] eqn:Hd; [|done].
  pose proof (dispatch_events_images _ _ _ Hd Hit) as Himgs.
  assert (Hbusy1 : Forall (fun img => busy img = true) (images (chain w1)))
    by (by rewrite Himgs).
  rewrite (all_busy_no_free_image _ Hbusy1).
  destruct (timespec_after (clock_gettime it) end_time).
  { intros ?; by simplify_eq. }
  destruct (prepare_read_queue it) as [ret errno].
  destruct (ppoll it) as [pret perrno].
  repeat case_match; try (by apply IH); intros ?; by simplify_eq.
Qed.

Lemma acquire_starves_without_release_witness :
  let w := set_chain
             (set_images [ {| buffer := 10%nat; busy := true |} ] sample_chain)
             sample_world in
  let its := [ {| dispatch_queue_pending := dispatch_ok [frame_done_event];
                  clock_gettime := 5;
                  prepare_read_queue := (0, 0);
                  ppoll := (0, 0);
                  read_events := 0 |};
               sample_iteration dispatch_error ] in
  Forall (fun img => busy img = true) (images (chain w))
  /\ Forall no_release its
  /\ exists r w',
       acquire_loop w 7 its = Returns (r, None, w').
Proof.
  intros w its.
  assert (H1 : Forall (fun img => busy img = true) (images (chain w)))
    by (repeat constructor).
  assert (H2 : Forall no_release its).
  { repeat constructor. intros image Hin.
    apply elem_of_cons in Hin as [Hin|Hin]; [discriminate Hin|].
    by apply elem_of_nil in Hin. }
  refine (conj H1 (conj H2 _)).
  destruct (acquire_loop w 7 its) as [[[r idx] w']| |] eqn:Ha;
    [|discriminate Ha..].
  exists r, w'.
  destruct (acquire_starves_without_release 7 its w r idx w' H1 H2 Ha)
    as [-> _].
  reflexivity.
Defined.

(** X12.  A release is honoured at once.  When the dispatch of a turn of
    the acquire loop ends with the release of the buffer of image [i], the
    call returns in that turn, also when the deadline has passed already,
    with an index that is at most [i], and that is [i] when every image was
    busy before the release. *)
Theorem released_image_is_acquired_again
    w end_time it its events w1 (i : nat) :
  dispatch_queue_pending it = dispatch_ok (events ++ [buffer_release_event i])
  ->
  dispatch_events w events = Some w1 ->
  (i < image_count (chain w1))%nat ->
  exists j w',
    (j <= i)%nat /\
    acquire_loop w end_time (it :: its)
    = Returns (if suboptimal (chain w1) then VK_SUBOPTIMAL_KHR
               else VK_SUCCESS, Some j, w') /\
    (Forall (fun img => busy img = true) (images (chain w1)) -> j = i).
Proof.
  intros Hq Hd Hlt. simpl. rewrite Hq, dispatch_events_app, Hd. simpl.
  destruct (lookup_lt_is_Some_2 (images (chain w1)) i Hlt) as [img Hi].
  set (imgs := alter (set_busy false) i (images (chain w1))).
  assert (Hi' : imgs !! i = Some (set_busy false img)).
  { unfold imgs. by rewrite list_lookup_alter, decide_True, Hi by done. }
  unfold find_free_image. simpl. fold imgs.
  destruct (list_find (fun img0 => busy img0 = false) imgs)
    as [[j img']|] eqn:Hfind.
  2:{ apply list_find_None in Hfind.
      by pose proof (Forall_lookup_1 _ _ _ _ Hfind Hi'). }
  apply list_find_Some in Hfind as (Hj & Hfree & Hfirst).
  assert (Hle : (j <= i)%nat).
  { destruct (decide (j <= i)%nat) as [|Hgt]; [done|].
    exfalso. apply (Hfirst i (set_busy false img)); [done | lia | done]. }
  eexists j, _. split_and!; [done | done |].
  intros Hall. destruct (decide (j = i)) as [|Hne]; [done|]. exfalso.
  unfold imgs in Hj. rewrite list_lookup_alter, decide_False in Hj by done.
  pose proof (Forall_lookup_1 _ _ _ _ Hall Hj) as Hb. simpl in Hb.
  congruence.
Qed.

Lemma released_image_is_acquired_again_witness :
  let w := set_chain
             (set_images [ {| buffer := 10%nat; busy := true |};
                           {| buffer := 11%nat; busy := true |} ]
                sample_chain)
             sample_world in
  let it := {| dispatch_queue_pending :=
                 dispatch_ok ([] ++ [buffer_release_event 1]);
               clock_gettime := 9;
               prepare_read_queue := (0, 0);
               ppoll := (0, 0);
               read_events := 0 |} in
  dispatch_queue_pending it = dispatch_ok ([] ++ [buffer_release_event 1])
  /\ dispatch_events w [] = Some w
  /\ (1 < image_count (chain w))%nat
  /\ exists j w',
       acquire_loop w 0 [it] = Returns (VK_SUCCESS, Some j, w').
Proof.
  intros w it.
  assert (H3 : (1 < image_count (chain w))%nat) by (vm_compute; lia).
  refine (conj eq_refl (conj eq_refl (conj H3 _))).
  destruct (released_image_is_acquired_again w 0 it [] [] w 1%nat
              eq_refl eq_refl H3) as (j & w' & _ & Ha & _).
  exists j, w'. exact Ha.
Defined.

Lemma same_swapchain_refl w : same_swapchain w w.
Proof. by split_and!. Qed.

Lemma same_swapchain_trans w1 w2 w3 :
  same_swapchain w1 w2 -> same_swapchain w2 w3 -> same_swapchain w1 w3.
Proof.
  intros (b1 & f1 & n1 & p1 & t1 & v1 & r1 & s1)
         (b2 & f2 & n2 & p2 & t2 & v2 & r2 & s2).
  split_and!; try congruence; [by etrans | auto].
Qed.

Lemma dispatch_event_same w e w' :
  dispatch_event w e = Some w' -> same_swapchain w w'.
Proof.
  intros Hd.
  destruct (dispatch_event_chain _ _ _ Hd)
    as (Hs & Hp & Ht & _ & Hw & Hv & _).
  assert (Hrest : buffer <$> images (chain w') = buffer <$> images (chain w)
                  /\ chain_vk_format (chain w') = chain_vk_format (chain w)
                  /\ num_drm_modifiers (chain w')
                     = num_drm_modifiers (chain w)).
  { destruct e; simpl in Hd; simplify_eq; rewrite ?tranche_done_eq; simpl; try done.
    - destruct (steal_format_table_frame w) as (Hc & _).
      apply tranche_formats_inv in Hd as [[? ->] | (? & ? & ? & _ & _ & _ & ->)];
        simpl; by rewrite Hc.
    - by apply done_inv in Hd as (w1 & -> & [-> | ->]).
    - by rewrite fmap_buffer_alter. }
  destruct Hrest as (Hb & Hf & Hn).
  split_and!; try done. by rewrite Hw.
Qed.

Lemma dispatch_events_same events : forall w w',
  dispatch_events w events = Some w' -> same_swapchain w w'.
Proof.
  induction events as [|e events IH]; intros w w' Hd; simpl in Hd.
  { simplify_eq. apply same_swapchain_refl. }
  destruct (dispatch_event w e) as [w1|] eqn:He; [|done]. simpl in Hd.
  eapply same_swapchain_trans; [by eapply dispatch_event_same | by apply IH].
Qed.

Lemma set_busy_same w i b :
  same_swapchain w
    (set_chain (set_images (alter (set_busy b) i (images (chain w)))
                  (chain w)) w).
Proof. split_and!; simpl; try done. by rewrite fmap_buffer_alter. Qed.

Lemma acquire_loop_same end_time its : forall w r idx w',
  acquire_loop w end_time its = Returns (r, idx, w') -> same_swapchain w w'.
Proof.
  induction its as [|it its IH]; intros w r idx w'; simpl; [done|].
  destruct (dispatch_queue_pending it) as [|evs].
  { intros ?; simplify_eq. apply same_swapchain_refl. }
  destruct (dispatch_events w evs) as [w1|] eqn:Hd; [|done].
  apply dispatch_events_same in Hd.
  destruct (find_free_image (chain w1)) as [[i img]|].
  { intros ?; simplify_eq.
    eapply same_swapchain_trans; [done | apply set_busy_same]. }
  destruct (timespec_after _ _); [by intros ?; simplify_eq|].
  destruct (prepare_read_queue it) as [ret errno].
  destruct (ppoll it) as [pret perrno].
  repeat case_match;
    first [ intros Hr; apply IH in Hr; by eapply same_swapchain_trans
          | by intros ?; simplify_eq ].
Qed.

Lemma wait_fifo_ready_same answers : forall w r w1,
  wait_fifo_ready w answers = Returns (r, w1) -> same_swapchain w w1.
Proof.
  induction answers as [|a answers IH]; intros w r w1; simpl.
  - destruct (fifo_ready (chain w)); [|done].
    intros ?; simplify_eq. apply same_swapchain_refl.
  - destruct (fifo_ready (chain w)).
    { intros ?; simplify_eq. apply same_swapchain_refl. }
    destruct a as [|events].
    { intros ?; simplify_eq. apply same_swapchain_refl. }
    destruct (dispatch_events w events) as [w'|] eqn:He; [|done].
    intros Hr. eapply same_swapchain_trans;
      [by eapply dispatch_events_same | by eapply IH].
Qed.

Lemma send_same rs w : same_swapchain w (send rs w).
Proof. split_and!; simpl; try done. by apply prefix_app_r. Qed.

Lemma set_frame_same cb ready w :
  same_swapchain w (set_chain (set_frame cb ready (chain w)) w).
Proof. by split_and!. Qed.

Lemma submit_same w image_index damage r w' :
  submit w image_index damage = Returns (r, w') ->
  r = VK_SUCCESS /\ same_swapchain w w'.
Proof.
  unfold submit.
  destruct (images (chain w) !! image_index) as [img|]; [|done].
  intros ?; simplify_eq. split; [done|].
  unfold same_swapchain. simpl.
  case_bool_decide; simpl; rewrite fmap_buffer_alter;
    (split_and!; try done); rewrite <- ?app_assoc; by apply prefix_app_r.
Qed.

Lemma copy_to_shm_same w image_index w0 :
  copy_to_shm w image_index = Some w0 -> same_swapchain w w0.
Proof.
  unfold copy_to_shm. intros H.
  repeat case_match; simplify_eq;
    first [apply same_swapchain_refl | apply send_same].
Qed.

Lemma queue_present_same w image_index damage answers r w' :
  wsi_wl_swapchain_queue_present w image_index damage answers
  = Returns (r, w') ->
  same_swapchain w w'.
Proof.
  unfold wsi_wl_swapchain_queue_present.
  destruct (copy_to_shm w image_index) as [w0|] eqn:Hcopy; [|done].
  apply copy_to_shm_same in Hcopy.
  case_bool_decide.
  - destruct (wait_fifo_ready w0 answers) as [[[res|] w1]| |] eqn:Hwait;
      [| |done..].
    + intros ?; simplify_eq.
      eapply same_swapchain_trans; [done | by eapply wait_fifo_ready_same].
    + intros [_ Hs]%submit_same.
      eapply same_swapchain_trans; [done|].
      eapply same_swapchain_trans; [by eapply wait_fifo_ready_same | done].
  - intros [_ Hs]%submit_same. by eapply same_swapchain_trans.
Qed.

(** X13.  However listeners, acquisitions and presents follow one
    another, a swapchain keeps the buffers of its images, in their order,
    its format, its number of modifiers, its present mode and its kind of
    buffers; the surface keeps its version; no request that was sent is
    taken back; and a [suboptimal] flag that is set is never cleared. *)
Theorem swapchain_run_keeps w w' :
  swapchain_run w w' ->
  buffer <$> images (chain w') = buffer <$> images (chain w) /\
  image_count (chain w') = image_count (chain w) /\
  chain_vk_format (chain w') = chain_vk_format (chain w) /\
  num_drm_modifiers (chain w') = num_drm_modifiers (chain w) /\
  present_mode (chain w') = present_mode (chain w) /\
  buffer_type (chain w') = buffer_type (chain w) /\
  wl_surface_version w' = wl_surface_version w /\
  wire w `prefix_of` wire w' /\
  (suboptimal (chain w) = true -> suboptimal (chain w') = true).
Proof.
  intros Hrun.
  assert (Hsame : same_swapchain w w').
  { induction Hrun as [w | w events w1 w2 Hd _ IH
                      | w end_time its r idx w1 w2 Ha _ IH
                      | w image_index damage answers r w1 w2 Hp _ IH].
    - apply same_swapchain_refl.
    - eapply same_swapchain_trans; [by eapply dispatch_events_same | done].
    - eapply same_swapchain_trans; [by eapply acquire_loop_same | done].
    - eapply same_swapchain_trans; [by eapply queue_present_same | done]. }
  destruct Hsame as (Hb & Hf & Hn & Hp & Ht & Hv & Hw & Hs).
  split_and!; try done.
  unfold image_count. by rewrite <- (length_fmap buffer), Hb, length_fmap.
Qed.

Lemma swapchain_run_keeps_witness :
  exists w',
    swapchain_run sample_world w'
    /\ wire w' <> []
    /\ wire sample_world `prefix_of` wire w'
    /\ buffer <$> images (chain w') = [10; 11; 12]%nat.
Proof.
  destruct (wsi_wl_swapchain_queue_present sample_world 1 None
              [dispatch_ok [frame_done_event]])
    as [[r w']| |] eqn:Hp; [|discriminate Hp..].
  assert (Hrun : swapchain_run sample_world w').
  { eapply run_present; [exact Hp | apply run_done]. }
  exists w'.
  destruct (swapchain_run_keeps sample_world w' Hrun)
    as (Hb & _ & _ & _ & _ & _ & _ & Hw & _).
  refine (conj Hrun (conj _ (conj Hw Hb))).
  vm_compute in Hp. injection Hp as _ <-. discriminate.
Defined.

(** X14.  Outside FIFO mode a present never waits and asks for no frame
    callback.  With an image index inside the swapchain it returns
    [VK_SUCCESS] whatever the connection would answer, having sent, in this
    order, the copy to shared memory when the buffers are of that kind, the
    attach of the image's buffer, the damage, the commit and the flush.
    The damage is one request per rectangle when the surface has version 4
    and rectangles were given, with each extent as the [int32_t] it converts
    to (an extent of 2^31 or more goes out negative), and the whole surface
    otherwise.  The image presented is busy when the call returns, with the
    buffer it had; the other images, [fifo_ready] and the frame callback are
    as they were.  With an index outside the swapchain it reads outside the
    array of images. *)
Theorem present_without_fifo_never_waits w image_index damage answers :
  present_mode (chain w) <> VK_PRESENT_MODE_FIFO_KHR ->
  (images (chain w) !! image_index = None ->
   wsi_wl_swapchain_queue_present w image_index damage answers = Undefined)
  /\
  (forall img,
     images (chain w) !! image_index = Some img ->
     exists w',
       wsi_wl_swapchain_queue_present w image_index damage answers
       = Returns (VK_SUCCESS, w') /\
       fifo_ready (chain w') = fifo_ready (chain w) /\
       frame (chain w') = frame (chain w) /\
       (exists img',
          images (chain w') !! image_index = Some img' /\
          busy img' = true /\ buffer img' = buffer img) /\
       (forall k, k <> image_index ->
          images (chain w') !! k = images (chain w) !! k) /\
       wire w'
       = wire w
         ++ match buffer_type (chain w) with
            | WSI_WL_BUFFER_SHM_MEMCPY => [memcpy_shm image_index]
            | _ => []
            end
         ++ wl_surface_attach (buffer img) 0 0
            :: damage_requests (wl_surface_version w) damage
         ++ [wl_surface_commit; wl_display_flush]) /\
  damage_sent (wl_surface_version w) damage
    (damage_requests (wl_surface_version w) damage) /\
  (forall r,
     0 <= extent_width r < 2 ^ 32 -> 0 <= extent_height r < 2 ^ 32 ->
     damage_requests 4 (Some [r])
     = [wl_surface_damage_buffer (offset_x r) (offset_y r)
          (if extent_width r <? 2 ^ 31 then extent_width r
           else extent_width r - 2 ^ 32)
          (if extent_height r <? 2 ^ 31 then extent_height r
           else extent_height r - 2 ^ 32)]).
Proof.
  intros Hmode. unfold wsi_wl_swapchain_queue_present, copy_to_shm.
  split; [|split; [|split; [apply damage_requests_sent|]]].
  - intros Hnone. rewrite Hnone.
    destruct (buffer_type (chain w)); try done;
      (rewrite bool_decide_eq_false_2 by done); unfold submit;
      by rewrite Hnone.
  - intros img Hi. rewrite Hi.
    destruct (alter_set_busy_lookup image_index true img _ Hi)
      as [Hbusy Hrest].
    destruct (buffer_type (chain w)); simpl;
      (rewrite bool_decide_eq_false_2 by done); unfold submit; simpl;
      rewrite Hi; simpl; (rewrite bool_decide_eq_false_2 by done);
      (eexists; split; [done|]); simpl;
      (split_and!; [done | done | done | done |]);
      by rewrite <- ?app_assoc.
  - intros r Hw Hh. simpl.
    by rewrite !int32_of_uint32_values by done.
Qed.

Lemma present_without_fifo_never_waits_witness :
  let w := set_chain
             {| frame := None; chain_vk_format := VK_FORMAT_B8G8R8A8_UNORM;
                buffer_type := WSI_WL_BUFFER_SHM_MEMCPY; suboptimal := false;
                num_drm_modifiers := 0%nat; drm_modifiers := mods_NULL;
                present_mode := VK_PRESENT_MODE_MAILBOX_KHR;
                fifo_ready := true;
                images := [ {| buffer := 10%nat; busy := true |} ] |}
             sample_world in
  let damage := Some [ {| offset_x := 0; offset_y := 0;
                          extent_width := 2 ^ 32 - 1;
                          extent_height := 2 ^ 31; layer := 0 |} ] in
  present_mode (chain w) <> VK_PRESENT_MODE_FIFO_KHR
  /\ exists w',
       wsi_wl_swapchain_queue_present w 0 damage [dispatch_error]
       = Returns (VK_SUCCESS, w')
       /\ wire w' = [ memcpy_shm 0; wl_surface_attach 10 0 0;
                      wl_surface_damage_buffer 0 0 (-1) (-2147483648);
                      wl_surface_commit; wl_display_flush ].
Proof.
  intros w damage.
  assert (H1 : present_mode (chain w) <> VK_PRESENT_MODE_FIFO_KHR)
    by discriminate.
  refine (conj H1 _).
  destruct (proj1 (proj2 (present_without_fifo_never_waits w 0 damage
                            [dispatch_error] H1))
              {| buffer := 10%nat; busy := true |} eq_refl)
    as (w' & Hp & _ & _ & _ & _ & Hw).
  exists w'. exact (conj Hp Hw).
Defined.

(** X15.  Under FIFO, presents are paced by frame completions and by
    nothing else.  After a present that succeeded, the next present goes
    through without waiting once the listeners have run for events that
    include the frame completion; as long as the events dispatched include
    none, the next present finds nothing to go on and waits. *)
Theorem frame_done_unblocks_next_present
    v image_index damage answers v' events v'' :
  present_mode (chain v) = VK_PRESENT_MODE_FIFO_KHR ->
  wsi_wl_swapchain_queue_present v image_index damage answers
  = Returns (VK_SUCCESS, v') ->
  dispatch_events v' events = Some v'' ->
  (frame_done_event ∈ events ->
   forall next_index next_damage next_answers,
     wsi_wl_swapchain_queue_present v'' next_index next_damage next_answers
     = match copy_to_shm v'' next_index with
       | Some w0 => submit w0 next_index next_damage
       | None => Undefined
       end) /\
  (frame_done_event ∉ events ->
   forall next_index next_damage,
     (next_index < image_count (chain v''))%nat ->
     wsi_wl_swapchain_queue_present v'' next_index next_damage [] = Blocked).
Proof.
  intros Hmode Hp Hd.
  destruct (present_fifo_success _ _ _ _ _ Hmode Hp) as [Hready _].
  destruct (queue_present_same _ _ _ _ _ _ Hp) as (_ & _ & _ & Hm1 & _).
  destruct (dispatch_events_same _ _ _ Hd) as (_ & _ & _ & Hm2 & _).
  destruct (dispatch_events_chain _ _ _ Hd)
    as (_ & _ & _ & _ & _ & _ & _ & Hquiet & Hdone).
  split.
  - intros Hin next_index next_damage next_answers.
    apply present_does_not_wait. auto.
  - intros Hnotin next_index next_damage Hlt.
    unfold wsi_wl_swapchain_queue_present.
    destruct (lookup_lt_is_Some_2 (images (chain v'')) next_index Hlt)
      as [img Hi].
    assert (Hcopy : exists w0, copy_to_shm v'' next_index = Some w0).
    { unfold copy_to_shm. rewrite Hi. destruct (buffer_type (chain v''));
        eauto. }
    destruct Hcopy as [w0 Hcopy]. rewrite Hcopy.
    destruct (copy_to_shm_chain _ _ _ Hcopy) as [Hc0 _].
    rewrite Hc0, bool_decide_eq_true_2 by congruence.
    destruct (wait_fifo_ready_quiet [] w0 w0) as (_ & -> & _);
      [rewrite Hc0, Hquiet by done; done | constructor | done | done].
Qed.

Lemma frame_done_unblocks_next_present_witness :
  let v := set_chain (set_frame None true sample_chain) sample_world in
  present_mode (chain v) = VK_PRESENT_MODE_FIFO_KHR
  /\ exists v' v'',
       wsi_wl_swapchain_queue_present v 1 None [] = Returns (VK_SUCCESS, v')
       /\ dispatch_events v' [buffer_release_event 1] = Some v''
       /\ wsi_wl_swapchain_queue_present v'' 1 None [] = Blocked.
Proof.
  intros v.
  assert (H1 : present_mode (chain v) = VK_PRESENT_MODE_FIFO_KHR)
    by reflexivity.
  refine (conj H1 _).
  destruct (wsi_wl_swapchain_queue_present v 1 None [])
    as [[[] v']| |] eqn:Hp; try discriminate Hp.
  destruct (dispatch_events v' [buffer_release_event 1]) as [v''|] eqn:Hd;
    [|discriminate Hd].
  exists v', v''. refine (conj eq_refl (conj Hd _)).
  assert (Hnotin : frame_done_event ∉ [buffer_release_event 1]).
  { intros Hin. apply elem_of_cons in Hin as [Hin|Hin]; [discriminate Hin|].
    by apply elem_of_nil in Hin. }
  assert (Hlt : (1 < image_count (chain v''))%nat).
  { vm_compute in Hp. injection Hp as <-.
    vm_compute in Hd. injection Hd as <-. vm_compute. lia. }
  exact (proj2 (frame_done_unblocks_next_present v 1 None [] v'
                  [buffer_release_event 1] v'' H1 Hp Hd) Hnotin 1%nat None
           Hlt).
Defined.

(** ** Creation of a swapchain *)

Lemma drm_format_cases_defined dev drm_format vk fl :
  (vk, fl) ∈ drm_format_cases dev drm_format -> vk <> VK_FORMAT_UNDEFINED.
Proof.
  unfold drm_format_cases.
  destruct (MESA_LITTLE_ENDIAN dev); unfold packed_case, unpacked_case;
    switch_cases; intros Hin;
    repeat (apply elem_of_cons in Hin as [[= -> ->]|Hin]);
    try (by apply elem_of_nil in Hin); discriminate.
Qed.

Lemma defined_formats_step dev fs format fl m h :
  format <> VK_FORMAT_UNDEFINED ->
  defined_formats fs ->
  defined_formats
    (wsi_wl_display_add_vk_format_modifier dev fs format fl m h).1.
Proof.
  intros Hne Hdef.
  destruct (add_step dev fs format fl m h)
    as [-> | [(i & e & e' & Hfind & -> & Hf & _)
             | (e' & _ & _ & -> & Hf & _)]]; [done| |].
  - apply find_format_Some in Hfind as (Hi & _ & _).
    apply Forall_insert; [done|]. rewrite Hf.
    exact (Forall_lookup_1 _ _ _ _ Hdef Hi).
  - apply Forall_app. split; [done|]. constructor; [congruence | constructor].
Qed.

Lemma resolve_indices_defined dev region indices fs h fs' h' :
  resolve_indices dev region fs indices h = Some (fs', h') ->
  defined_formats fs -> defined_formats fs'.
Proof.
  apply (resolve_indices_closure dev
           (fun fs1 fs2 => defined_formats fs1 -> defined_formats fs2)
           (fun vk _ => vk <> VK_FORMAT_UNDEFINED)); [auto..| |].
  - intros fs0 format fl m h0 Hne. by apply defined_formats_step.
  - intros e vk fl _ Hin. by eapply drm_format_cases_defined.
Qed.

Lemma dmabuf_feedback_init_defined h :
  feedback_defined (dmabuf_feedback_init h).1.2.
Proof.
  destruct (dmabuf_feedback_init_spec h) as (ret & h' & ->).
  split; constructor.
Qed.

Lemma pick_format_undefined ts :
  Forall (fun t => defined_formats (formats t)) ts ->
  pick_format_from_tranches ts VK_FORMAT_UNDEFINED = None.
Proof.
  induction 1 as [|t ts Ht _ IH]; simpl; [done|].
  rewrite (proj2 (find_format_None (formats t) VK_FORMAT_UNDEFINED)); [done|].
  intros (f & Hf & Hin)%list_elem_of_fmap.
  by apply (proj1 (Forall_forall _ _) Ht f Hin).
Qed.

(** What a listener does while the surface's swapchain is still as
    [vk_zalloc] returned it, with format [VK_FORMAT_UNDEFINED]: no entry of
    the feedback is for that format, so that a commit finds nothing to
    compare and the flag of the swapchain is left alone. *)
Lemma zeroed_chain_event w e w' :
  dispatch_event w e = Some w' ->
  chain_vk_format (chain w) = VK_FORMAT_UNDEFINED ->
  feedback_defined (dmabuf_feedback w) ->
  feedback_defined (pending_dmabuf_feedback w) ->
  suboptimal (chain w') = suboptimal (chain w) /\
  chain_vk_format (chain w') = VK_FORMAT_UNDEFINED /\
  feedback_defined (dmabuf_feedback w') /\
  feedback_defined (pending_dmabuf_feedback w').
Proof.
  destruct e; simpl; intros Hd Hfmt Hcur Hpend; simplify_eq;
    rewrite ?tranche_done_eq; simpl;
    try done.
  - assert (Hs : feedback_defined (dmabuf_feedback (steal_format_table w)) /\
                 feedback_defined
                   (pending_dmabuf_feedback (steal_format_table w))).
    { unfold steal_format_table.
      by destruct (table_data (format_table (pending_dmabuf_feedback w))). }
    destruct Hs as [Hcur1 [Hts Hpt]].
    destruct (steal_format_table_frame w) as (Hc & _).
    apply tranche_formats_inv in Hd as [[? ->] | (? & fs & ? & _ & _ & Hr & ->)];
      simpl; rewrite Hc; [done|].
    split_and!; [done..|]. split; [done|]. simpl.
    by eapply resolve_indices_defined.
  - destruct Hpend as [Hts Hpt]. split_and!; [done..|]. split; simpl.
    + apply Forall_app. split; [done|]. by constructor.
    + destruct (dmabuf_feedback_tranche_init_spec (mem w))
        as (ret & h' & ->).
      constructor.
  - unfold surface_dmabuf_feedback_done in Hd.
    pose proof (dmabuf_feedback_init_defined (mem w)) as Hinit.
    destruct (dmabuf_feedback_init (mem w)) as [[ret pending] h].
    simpl in Hd, Hinit.
    unfold pick_format_from_surface_dmabuf_feedback in Hd. simpl in Hd.
    rewrite Hfmt, (pick_format_undefined _ (proj1 Hpend)) in Hd.
    destruct (main_device (pending_dmabuf_feedback w) =? 0);
      simplify_eq; simpl; (split_and!; done).
Qed.

Lemma zeroed_chain_events events : forall w w',
  dispatch_events w events = Some w' ->
  chain_vk_format (chain w) = VK_FORMAT_UNDEFINED ->
  feedback_defined (dmabuf_feedback w) ->
  feedback_defined (pending_dmabuf_feedback w) ->
  suboptimal (chain w') = suboptimal (chain w).
Proof.
  induction events as [|e events IH]; intros w w' Hd Hfmt Hcur Hpend;
    simpl in Hd; [by simplify_eq|].
  destruct (dispatch_event w e) as [w1|] eqn:He; [|done]. simpl in Hd.
  destruct (zeroed_chain_event _ _ _ He Hfmt Hcur Hpend)
    as (Hs & Hfmt1 & Hcur1 & Hpend1).
  rewrite <- Hs. by eapply IH.
Qed.

Lemma select_modifiers_agree w format num mods :
  select_modifiers w format = (num, mods) ->
  match mods with
  | mods_NULL => num = 0%nat
  | mods_of_display ms =>
      num = length ms /\ sw (wsi w) = false /\
      exists k f, find_format (display_formats w) format = Some (k, f) /\
                  ms = modifiers f
  | mods_of_feedback ms =>
      num = length ms /\ sw (wsi w) = false /\
      wl_dmabuf_feedback w = true /\
      exists f, pick_format_from_surface_dmabuf_feedback (dmabuf_feedback w)
                  format = Some f /\
                ms = modifiers f
  | mods_released => False
  end.
Proof.
  unfold select_modifiers.
  destruct (sw (wsi w)); [by intros ?; simplify_eq|].
  destruct (wl_dmabuf w && supports_modifiers (wsi w));
    [|by intros ?; simplify_eq].
  destruct (wl_dmabuf_feedback w) eqn:Hfb.
  - destruct (pick_format_from_surface_dmabuf_feedback _ _) as [f|] eqn:Hp.
    { intros ?; simplify_eq. split_and!; [done..|]. by exists f. }
    destruct (find_format _ _) as [[k f]|] eqn:Hf;
      intros ?; simplify_eq; [|done].
    split_and!; [done..|]. by exists k, f.
  - destruct (find_format _ _) as [[k f]|] eqn:Hf;
      intros ?; simplify_eq; [|done].
    split_and!; [done..|]. by exists k, f.
Qed.

(** What a successful creation went through. *)
Lemma create_swapchain_inv w pCreateInfo a w' :
  wsi_wl_surface_create_swapchain w pCreateInfo a
  = Some (VK_SUCCESS, Some w') ->
  exists h w1 imgs,
    wsi_wl_surface_init (set_chain zeroed_chain (set_mem h w))
      (surface_init a) = Some (VK_SUCCESS, w1) /\
    init_images (image_init a) 0 (minImageCount pCreateInfo) = inr imgs /\
    w' = set_chain
           {| frame := frame (chain w1);
              chain_vk_format := imageFormat pCreateInfo;
              buffer_type := select_buffer_type (wsi w1);
              suboptimal := suboptimal (chain w1);
              num_drm_modifiers :=
                (select_modifiers w1 (imageFormat pCreateInfo)).1;
              drm_modifiers :=
                (select_modifiers w1 (imageFormat pCreateInfo)).2;
              present_mode := get_present_mode a;
              fifo_ready := true;
              images := imgs |} w1.
Proof.
  unfold wsi_wl_surface_create_swapchain.
  destruct (malloc (mem w)) as [granted h].
  destruct granted; simpl; [|done].
  destruct (wsi_wl_surface_init _ _) as [[result w1]|] eqn:Hinit;
    simpl; [|done].
  case_bool_decide as Hres; [done|]. subst result.
  destruct (select_modifiers w1 _) as [num mods] eqn:Hsel.
  case_bool_decide; [done|].
  destruct (init_images _ _ _) as [|imgs] eqn:Himgs; [done|].
  intros Hw. simplify_eq. exists h, w1, imgs. by rewrite Hsel.
Qed.

(** The format and the modifiers of a swapchain that creation returns. *)
Lemma create_swapchain_modifiers w pCreateInfo a w' :
  wsi_wl_surface_create_swapchain w pCreateInfo a
  = Some (VK_SUCCESS, Some w') ->
  chain_vk_format (chain w') = imageFormat pCreateInfo /\
  (num_drm_modifiers (chain w'), drm_modifiers (chain w'))
  = select_modifiers w' (imageFormat pCreateInfo) /\
  match drm_modifiers (chain w') with
  | mods_NULL => num_drm_modifiers (chain w') = 0%nat
  | mods_of_display ms =>
      num_drm_modifiers (chain w') = length ms /\ sw (wsi w') = false /\
      exists k f,
        find_format (display_formats w') (imageFormat pCreateInfo)
        = Some (k, f) /\
        ms = modifiers f
  | mods_of_feedback ms =>
      num_drm_modifiers (chain w') = length ms /\ sw (wsi w') = false /\
      wl_dmabuf_feedback w' = true /\
      exists f,
        pick_format_from_surface_dmabuf_feedback (dmabuf_feedback w')
          (imageFormat pCreateInfo) = Some f /\
        ms = modifiers f
  | mods_released => False
  end.
Proof.
  intros (h & w1 & imgs & _ & _ & ->)%create_swapchain_inv. simpl.
  split; [done|].
  destruct (select_modifiers w1 _) as [num mods] eqn:Hsel. simpl.
  split; [done|]. by apply select_modifiers_agree in Hsel.
Qed.

(** The listeners of the round trip of a creation leave the flag of the
    new swapchain clear. *)
Lemma create_swapchain_suboptimal w pCreateInfo a w' :
  wsi_wl_surface_create_swapchain w pCreateInfo a
  = Some (VK_SUCCESS, Some w') ->
  suboptimal (chain w') = false.
Proof.
  intros (h & w1 & imgs & Hinit & _ & ->)%create_swapchain_inv. simpl.
  apply surface_init_inv in Hinit
    as [(Hc & _) | (w2 & roundtrip & h1 & h2 & Hd & Hc & Hcur & Hpend)].
  - by rewrite Hc.
  - rewrite (zeroed_chain_events _ _ _ Hd); rewrite ?Hc, ?Hcur, ?Hpend;
      try done; apply dmabuf_feedback_init_defined.
Qed.

(** X16.  What a swapchain that creation returns is made of.  Its
    [suboptimal] flag is clear, whatever feedback arrived while the surface
    was initialised: the listeners ran on a swapchain without format.  It
    has the format and the present mode asked for.  Its count of modifiers
    is the length of the array its pointer leads to.  On a software device,
    without the dma-buf global or without support for modifiers in the
    driver, it has no modifiers.  Otherwise the committed feedback of the
    surface comes first: when the surface has a feedback object and that
    feedback offers an entry for the format, the array is the list of
    modifiers of that entry, whatever the display's catalog holds; only
    failing that is it the list of the entry of the display's catalog; and
    with neither it has no modifiers.  Its buffers are native exactly when
    the device is not a software device. *)
Theorem new_swapchain_parameters w pCreateInfo a w' :
  wsi_wl_surface_create_swapchain w pCreateInfo a
  = Some (VK_SUCCESS, Some w') ->
  suboptimal (chain w') = false /\
  chain_vk_format (chain w') = imageFormat pCreateInfo /\
  present_mode (chain w') = get_present_mode a /\
  match drm_modifiers (chain w') with
  | mods_NULL => num_drm_modifiers (chain w') = 0%nat
  | mods_of_display ms =>
      num_drm_modifiers (chain w') = length ms /\ sw (wsi w') = false /\
      exists k f,
        find_format (display_formats w') (imageFormat pCreateInfo)
        = Some (k, f) /\
        ms = modifiers f
  | mods_of_feedback ms =>
      num_drm_modifiers (chain w') = length ms /\ sw (wsi w') = false /\
      wl_dmabuf_feedback w' = true /\
      exists f,
        pick_format_from_surface_dmabuf_feedback (dmabuf_feedback w')
          (imageFormat pCreateInfo) = Some f /\
        ms = modifiers f
  | mods_released => False
  end /\
  (sw (wsi w') = true \/ wl_dmabuf w' = false \/
   supports_modifiers (wsi w') = false ->
   drm_modifiers (chain w') = mods_NULL) /\
  (sw (wsi w') = false -> wl_dmabuf w' = true ->
   supports_modifiers (wsi w') = true ->
   (forall f,
      wl_dmabuf_feedback w' = true ->
      pick_format_from_surface_dmabuf_feedback (dmabuf_feedback w')
        (imageFormat pCreateInfo) = Some f ->
      drm_modifiers (chain w') = mods_of_feedback (modifiers f)) /\
   (wl_dmabuf_feedback w' = false \/
    pick_format_from_surface_dmabuf_feedback (dmabuf_feedback w')
      (imageFormat pCreateInfo) = None ->
    match find_format (display_formats w') (imageFormat pCreateInfo) with
    | Some (_, f) => drm_modifiers (chain w') = mods_of_display (modifiers f)
    | None => drm_modifiers (chain w') = mods_NULL
    end)) /\
  (buffer_type (chain w') = WSI_WL_BUFFER_NATIVE <-> sw (wsi w') = false).
Proof.
  intros Hcreate.
  pose proof (create_swapchain_suboptimal _ _ _ _ Hcreate) as Hsub.
  destruct (create_swapchain_modifiers _ _ _ _ Hcreate)
    as (Hfmt & Hsel & Hagree).
  apply create_swapchain_inv in Hcreate as (h & w1 & imgs & _ & _ & ->).
  simpl in *.
  clear Hsel.
  split_and!; try done.
  - unfold select_modifiers.
    intros [-> | [-> | Hsup]]; [done| |].
    + by destruct (sw (wsi w1)).
    + rewrite Hsup, andb_false_r. by destruct (sw (wsi w1)).
  - intros Hsw Hdmabuf Hsup. unfold select_modifiers.
    rewrite Hsw, Hdmabuf, Hsup. simpl. split.
    + intros f Hfb Hpick. by rewrite Hfb, Hpick.
    + intros [-> | Hpick].
      * by destruct (find_format _ _) as [[k f]|].
      * rewrite Hpick.
        destruct (wl_dmabuf_feedback w1);
          by destruct (find_format _ _) as [[k f]|].
  - unfold select_buffer_type.
    destruct (sw (wsi w1)); [|done].
    destruct (has_import_memory_host (wsi w1) && _); split; intros [=].
Qed.

Lemma new_swapchain_parameters_witness :
  wsi_wl_surface_create_swapchain sample_world sample_create_info
    sample_create_answers = Some (VK_SUCCESS, Some sample_new_world)
  /\ suboptimal (chain sample_new_world) = false
  /\ num_drm_modifiers (chain sample_new_world) = 2%nat.
Proof.
  refine (conj eq_refl _).
  destruct (new_swapchain_parameters sample_world sample_create_info
              sample_create_answers sample_new_world eq_refl)
    as (Hs & _ & _ & Hm & _).
  refine (conj Hs _). simpl in Hm. exact (proj1 Hm).
Defined.

(** A listener other than the one of the commit leaves the swapchain's
    pointer to its modifiers as it is. *)
Lemma dispatch_event_modifiers w e w' :
  dispatch_event w e = Some w' ->
  e <> done_event ->
  drm_modifiers (chain w') = drm_modifiers (chain w).
Proof.
  destruct e; simpl; intros Hd Hne; simplify_eq; rewrite ?tranche_done_eq; simpl; try done.
  destruct (steal_format_table_frame w) as (Hc & _).
  apply tranche_formats_inv in Hd as [[? ->] | (? & ? & ? & _ & _ & _ & ->)];
    simpl; by rewrite Hc.
Qed.

Lemma dispatch_events_modifiers events : forall w w',
  dispatch_events w events = Some w' ->
  done_event ∉ events ->
  drm_modifiers (chain w') = drm_modifiers (chain w).
Proof.
  induction events as [|e events IH]; intros w w' Hd Hne; simpl in Hd;
    [by simplify_eq|].
  destruct (dispatch_event w e) as [w1|] eqn:He; [|done]. simpl in Hd.
  rewrite (IH w1 w' Hd).
  - apply (dispatch_event_modifiers _ _ _ He). intros ->. apply Hne. by left.
  - intros Hin. apply Hne. by right.
Qed.

(** X17.  A swapchain created with the modifiers of the surface's
    committed feedback borrows the array of that feedback, which the next
    commit releases before it compares.  At the first commit after the
    creation, with a pending feedback that has a main device and offers
    the swapchain's format: if the entry offered has as many modifiers as
    the swapchain was created with, and that is at least one, the
    comparison reads the released array, which is undefined behaviour; if
    the numbers differ, nothing is read and the swapchain is marked
    suboptimal. *)
Theorem feedback_modifiers_dangle_at_commit
    w pCreateInfo a w' ms events w1 f :
  wsi_wl_surface_create_swapchain w pCreateInfo a
  = Some (VK_SUCCESS, Some w') ->
  drm_modifiers (chain w') = mods_of_feedback ms ->
  done_event ∉ events ->
  dispatch_events w' events = Some w1 ->
  main_device (pending_dmabuf_feedback w1) <> 0 ->
  pick_format_from_tranches (tranches (pending_dmabuf_feedback w1))
    (imageFormat pCreateInfo) = Some f ->
  (length (modifiers f) = length ms -> ms <> [] ->
   dispatch_event w1 done_event = None) /\
  (length (modifiers f) <> length ms ->
   exists w2, dispatch_event w1 done_event = Some w2 /\
              suboptimal (chain w2) = true).
Proof.
  intros Hcreate Hptr Hne Hd Hmain Hpick.
  destruct (create_swapchain_modifiers _ _ _ _ Hcreate)
    as (Hfmt & _ & Hagree).
  rewrite Hptr in Hagree. destruct Hagree as (Hnum & _).
  destruct (dispatch_events_same _ _ _ Hd) as (_ & Hfmt1 & Hnum1 & _).
  pose proof (dispatch_events_modifiers _ _ _ Hd Hne) as Hptr1.
  rewrite Hptr in Hptr1.
  assert (Hpick1 : pick_format_from_tranches
                     (tranches (pending_dmabuf_feedback w1))
                     (chain_vk_format (chain w1)) = Some f)
    by (by rewrite Hfmt1, Hfmt).
  destruct (commit_after_release w1 ms f Hptr1 Hmain Hpick1) as [Hdiff Hsame].
  simpl. split.
  - intros Hlen Hnil. apply Hsame; [congruence|].
    intros Hf. rewrite Hf in Hlen. by destruct ms.
  - intros Hlen. apply Hdiff. congruence.
Qed.

Lemma feedback_modifiers_dangle_at_commit_witness :
  let events := [ format_table_event
                    (Some [ {| entry_format := DRM_FORMAT_ARGB8888;
                               entry_padding := 0; entry_modifier := 7 |} ])
                    16;
                  main_device_event 1;
                  tranche_formats_event [0%N];
                  tranche_done_event ] in
  (done_event ∉ events)
  /\ exists w' w1 w2,
       wsi_wl_surface_create_swapchain sample_surface sample_create_info
         sample_create_answers = Some (VK_SUCCESS, Some w')
       /\ drm_modifiers (chain w') = mods_of_feedback [1; 2]
       /\ dispatch_events w' events = Some w1
       /\ dispatch_event w1 done_event = Some w2
       /\ suboptimal (chain w2) = true.
Proof.
  intros events.
  assert (Hne : done_event ∉ events).
  { intros Hin. repeat (apply elem_of_cons in Hin as [Hin|Hin];
                        [discriminate Hin|]).
    by apply elem_of_nil in Hin. }
  refine (conj Hne _).
  destruct (wsi_wl_surface_create_swapchain sample_surface sample_create_info
              sample_create_answers) as [[[] [w'|]]|] eqn:Hc;
    try discriminate Hc.
  assert (Hptr : drm_modifiers (chain w') = mods_of_feedback [1; 2]).
  { vm_compute in Hc. injection Hc as <-. reflexivity. }
  destruct (dispatch_events w' events) as [w1|] eqn:Hd.
  2:{ exfalso. vm_compute in Hc. injection Hc as <-. discriminate Hd. }
  assert (Hw1 : main_device (pending_dmabuf_feedback w1) <> 0
                /\ exists f,
                     pick_format_from_tranches
                       (tranches (pending_dmabuf_feedback w1))
                       (imageFormat sample_create_info) = Some f
                     /\ length (modifiers f) <> length [1; 2]).
  { vm_compute in Hc. injection Hc as <-.
    vm_compute in Hd. injection Hd as <-.
    split; [discriminate|]. eexists. split; [reflexivity|]. discriminate. }
  destruct Hw1 as (Hmain & f & Hpick & Hlen).
  destruct (proj2 (feedback_modifiers_dangle_at_commit sample_surface
                     sample_create_info sample_create_answers w' [1; 2]
                     events w1 f Hc Hptr Hne Hd Hmain Hpick) Hlen)
    as (w2 & Hdone & Hsub).
  exists w', w1, w2.
  exact (conj eq_refl (conj Hptr (conj Hd (conj Hdone Hsub)))).
Defined.

(** ** The display *)

Ltac unfold_display_listeners H :=
  unfold shm_handle_format, dmabuf_handle_modifier, dmabuf_handle_format,
    default_dmabuf_feedback_format_table, mbind, M_bind, mret, M_ret in H.

(** A listener other than the registry's changes nothing but the catalog
    and the format table. *)
Lemma display_event_fields d e h d' h' :
  display_dispatch_event d e h = Some (d', h') ->
  (forall interface version, e <> global_event interface version) ->
  display.wl_shm d' = display.wl_shm d /\
  display.wl_dmabuf d' = display.wl_dmabuf d /\
  display.wl_dmabuf_feedback d' = display.wl_dmabuf_feedback d /\
  display.sw d' = display.sw d /\
  display.wsi d' = display.wsi d.
Proof.
  destruct e; simpl; intros Hd Hne; try (by destruct (Hne interface version));
    unfold_display_listeners Hd; repeat case_match; simplify_eq; try done.
  destruct (default_dmabuf_feedback_tranche_formats _ _ _ _ _)
    as [[fs h1]|]; simpl in Hd; by simplify_eq.
Qed.

(** What one event does to the globals of a display. *)
Lemma display_event_globals d e h d' h' :
  display_dispatch_event d e h = Some (d', h') ->
  display.sw d' = display.sw d /\
  display.wsi d' = display.wsi d /\
  display.wl_dmabuf_feedback d' = display.wl_dmabuf_feedback d /\
  (has_global d' <-> has_global d \/ usable_global (display.sw d) e) /\
  (display.sw d = true -> display.wl_dmabuf d = None ->
   display.wl_dmabuf d' = None) /\
  (display.sw d = false -> display.wl_shm d = false ->
   display.wl_shm d' = false) /\
  (forall v, display.wl_dmabuf d' = Some v ->
             display.wl_dmabuf d = Some v \/ 3 <= v <= 4).
Proof.
  intros Hd.
  assert (Hcase : (exists interface version,
                     e = global_event interface version)
                  \/ forall interface version,
                       e <> global_event interface version).
  { destruct e; [left; eauto | right; intros; discriminate ..]. }
  destruct Hcase as [(interface & version & ->)|Hne].
  - simpl in Hd. simplify_eq. unfold registry_handle_global, has_global.
    destruct (display.sw d) eqn:Hsw.
    + destruct interface; simpl; rewrite ?Hsw;
        (split_and!; try done; try (by auto)); try (by intuition);
        intuition (try done; try congruence; auto).
    + destruct interface; simpl; rewrite ?Hsw;
        try (split_and!; try done; try (by auto); by intuition).
      destruct (Z.leb_spec 3 version) as [Hge|Hlt]; simpl; rewrite ?Hsw.
      * split_and!; try done; try (by auto).
        -- split; [intros _; by right | intros _; right; by eexists].
        -- intros v [= <-].
           unfold ZWP_LINUX_DMABUF_V1_GET_DEFAULT_FEEDBACK_SINCE_VERSION.
           right. lia.
      * split_and!; try done; try (by auto).
        split; [by left | intros [?|[_ ?]]; [done | lia]].
  - destruct (display_event_fields _ _ _ _ _ Hd Hne)
      as (Hshm & Hdma & Hfb & Hsw & Hwsi).
    unfold has_global. rewrite Hshm, Hdma.
    split_and!; try done; try (by auto).
    + split; [by left|]. intros [?|Hu]; [done|].
      destruct e; try done. by destruct (Hne interface version).
Qed.

Lemma display_event_total d e h :
  display.wl_dmabuf_feedback d = false ->
  is_Some (display_dispatch_event d e h).
Proof.
  intros Hfb. destruct e; simpl; rewrite ?Hfb; repeat case_match;
    by eexists.
Qed.

Lemma display_events_total events : forall d h,
  display.wl_dmabuf_feedback d = false ->
  is_Some (display_dispatch_events d events h).
Proof.
  induction events as [|e events IH]; intros d h Hfb; simpl; [by eexists|].
  destruct (display_event_total d e h Hfb) as [[d1 h1] He]. rewrite He.
  simpl. apply IH.
  by destruct (display_event_globals _ _ _ _ _ He) as (_ & _ & -> & _).
Qed.

Lemma display_events_globals events : forall d h d' h',
  display_dispatch_events d events h = Some (d', h') ->
  display.sw d' = display.sw d /\
  display.wsi d' = display.wsi d /\
  display.wl_dmabuf_feedback d' = display.wl_dmabuf_feedback d /\
  (has_global d' <->
   has_global d \/ Exists (usable_global (display.sw d)) events) /\
  (display.sw d = true -> display.wl_dmabuf d = None ->
   display.wl_dmabuf d' = None) /\
  (display.sw d = false -> display.wl_shm d = false ->
   display.wl_shm d' = false) /\
  (forall v, display.wl_dmabuf d' = Some v ->
             display.wl_dmabuf d = Some v \/ 3 <= v <= 4).
Proof.
  induction events as [|e events IH]; intros d h d' h' Hd; simpl in Hd.
  { simplify_eq. split_and!; try done; try (by auto).
    rewrite Exists_nil. intuition. }
  destruct (display_dispatch_event d e h) as [[d1 h1]|] eqn:He; [|done].
  simpl in Hd.
  destruct (display_event_globals _ _ _ _ _ He)
    as (Hsw1 & Hwsi1 & Hfb1 & Hg1 & Hd1 & Hs1 & Hv1).
  destruct (IH _ _ _ _ Hd) as (Hsw & Hwsi & Hfb & Hg & Hd2 & Hs2 & Hv2).
  rewrite Hsw1 in *.
  split_and!; try congruence.
  - rewrite Hg, Hg1, Exists_cons. intuition.
  - auto.
  - auto.
  - intros v Hv. destruct (Hv2 v Hv) as [Hv'|?]; [|by right]. by apply Hv1.
Qed.

(** Where the catalog of a display comes from after an event. *)
Lemma display_event_formats d e h d' h' :
  display_dispatch_event d e h = Some (d', h') ->
  display.formats d' = display.formats d \/
  (display.wl_shm d = true /\
   exists shm_format h0,
     display.formats d'
     = (wsi_wl_display_add_wl_shm_format (display.wsi d) (display.formats d)
          shm_format h0).1) \/
  (is_Some (display.wl_dmabuf d) /\
   exists drm_format m h0,
     display.formats d'
     = (wsi_wl_display_add_drm_format_modifier (display.wsi d)
          (display.formats d) drm_format m h0).1) \/
  (display.wl_dmabuf_feedback d = true /\
   exists region indices h0 h1,
     resolve_indices (display.wsi d) region (display.formats d) indices h0
     = Some (display.formats d', h1)).
Proof.
  destruct e; simpl; intros Hd.
  - simplify_eq. left. unfold registry_handle_global.
    by repeat case_match.
  - simplify_eq. by left.
  - destruct (display.wl_shm d) eqn:Hshm; [|simplify_eq; by left].
    right. left. split; [done|]. exists format, h.
    unfold_display_listeners Hd.
    destruct (wsi_wl_display_add_wl_shm_format _ _ _ _) as [fs h1].
    by simplify_eq.
  - simplify_eq. by left.
  - destruct (display.wl_dmabuf d) as [v|] eqn:Hdma; [|simplify_eq; by left].
    unfold_display_listeners Hd.
    destruct (display.wl_dmabuf_feedback d); [simplify_eq; by left|].
    right. right. left. split; [by eexists|].
    exists format, (Z.lor (Z.shiftl modifier_hi 32) modifier_lo), h.
    destruct (wsi_wl_display_add_drm_format_modifier _ _ _ _ _) as [fs h1].
    by simplify_eq.
  - destruct (display.wl_dmabuf_feedback d); simplify_eq; by left.
  - simplify_eq. by left.
  - simplify_eq. by left.
  - simplify_eq. by left.
  - destruct (display.wl_dmabuf_feedback d) eqn:Hfb; [|simplify_eq; by left].
    unfold default_dmabuf_feedback_tranche_formats in Hd.
    destruct (table_data (display.format_table d)) as [| |region];
      simpl in Hd; simplify_eq; try (by left).
    destruct (resolve_indices _ _ _ _ _) as [[fs h1]|] eqn:Hr;
      simpl in Hd; simplify_eq.
    right. right. right. split; [done|]. simpl. by exists region, indices, h, h'.
  - simplify_eq. by left.
  - simplify_eq. by left.
Qed.

Lemma display_event_catalog d e h d' h' :
  display_dispatch_event d e h = Some (d', h') ->
  catalog_ok (display.formats d) -> catalog_ok (display.formats d').
Proof.
  intros Hd Hok.
  destruct (display_event_formats _ _ _ _ _ Hd)
    as [-> | [(_ & ? & ? & ->) | [(_ & ? & ? & ? & ->)
                                  | (_ & ? & ? & ? & ? & Hr)]]]; [done|..].
  - by apply add_vk_format_modifiers_ok.
  - by apply add_vk_format_modifiers_ok.
  - by eapply resolve_indices_ok.
Qed.

(** On a display that has neither the dma-buf global nor a feedback, no
    event gives a modifier to an entry. *)
Lemma display_event_no_modifier d e h d' h' :
  display_dispatch_event d e h = Some (d', h') ->
  display.wl_dmabuf d = None ->
  display.wl_dmabuf_feedback d = false ->
  Forall (fun f => modifiers f = []) (display.formats d) ->
  Forall (fun f => modifiers f = []) (display.formats d').
Proof.
  intros Hd Hdma Hfb Hall.
  destruct (display_event_formats _ _ _ _ _ Hd)
    as [-> | [(_ & shm_format & h0 & ->)
             | [([? ?] & _) | (? & _)]]]; [done| |congruence..].
  destruct (add_wl_shm_format_keeps_modifiers (display.wsi d)
              (display.formats d) shm_format h0) as [_ Hkeep].
  apply Forall_lookup. intros i e' Hi. rewrite (Hkeep i e' Hi).
  destruct (display.formats d !! i) as [e0|] eqn:Hi0; simpl; [|done].
  exact (Forall_lookup_1 _ _ _ _ Hall Hi0).
Qed.

Lemma display_events_catalog events : forall d h d' h',
  display_dispatch_events d events h = Some (d', h') ->
  (catalog_ok (display.formats d) -> catalog_ok (display.formats d')) /\
  (display.sw d = true ->
   display.wl_dmabuf d = None ->
   display.wl_dmabuf_feedback d = false ->
   Forall (fun f => modifiers f = []) (display.formats d) ->
   Forall (fun f => modifiers f = []) (display.formats d')).
Proof.
  induction events as [|e events IH]; intros d h d' h' Hd; simpl in Hd.
  { by simplify_eq. }
  destruct (display_dispatch_event d e h) as [[d1 h1]|] eqn:He; [|done].
  simpl in Hd.
  destruct (display_event_globals _ _ _ _ _ He)
    as (Hsw1 & _ & Hfb1 & _ & Hd1 & _).
  destruct (IH _ _ _ _ Hd) as [Hok Hnone]. split.
  - intros ?. apply Hok. by eapply display_event_catalog.
  - intros Hsw Hdma Hfb Hall. apply Hnone; [congruence | auto | congruence|].
    by eapply display_event_no_modifier.
Qed.

Lemma display_dispatch_events_app events1 events2 : forall d h,
  display_dispatch_events d (events1 ++ events2) h
  = '(d', h') ← display_dispatch_events d events1 h;
    display_dispatch_events d' events2 h'.
Proof.
  induction events1 as [|e events1 IH]; intros d h; simpl; [done|].
  destruct (display_dispatch_event d e h) as [[d1 h1]|]; simpl; [|done].
  apply IH.
Qed.

(** An event that announces no global the display can use leaves the
    globals it has bound. *)
Lemma display_event_not_usable d e h d' h' :
  display_dispatch_event d e h = Some (d', h') ->
  ~ usable_global (display.sw d) e ->
  display.wl_shm d' = display.wl_shm d /\
  display.wl_dmabuf d' = display.wl_dmabuf d.
Proof.
  intros Hd Hnot.
  assert (Hcase : (exists interface version,
                     e = global_event interface version)
                  \/ forall interface version,
                       e <> global_event interface version).
  { destruct e; [left; eauto | right; intros; discriminate ..]. }
  destruct Hcase as [(interface & version & ->)|Hne].
  - simpl in Hd, Hnot. simplify_eq. unfold registry_handle_global.
    destruct (display.sw d) eqn:Hsw.
    + by destruct interface.
    + destruct interface; try done.
      destruct (Z.leb_spec 3 version) as [Hge|Hlt]; [|done].
      by destruct Hnot.
  - by destruct (display_event_fields _ _ _ _ _ Hd Hne) as (-> & -> & _).
Qed.

Lemma display_events_not_usable events : forall d h d' h',
  display_dispatch_events d events h = Some (d', h') ->
  Forall (fun e => ~ usable_global (display.sw d) e) events ->
  display.wl_shm d' = display.wl_shm d /\
  display.wl_dmabuf d' = display.wl_dmabuf d.
Proof.
  induction events as [|e events IH]; intros d h d' h' Hd Hall;
    simpl in Hd; [by simplify_eq|].
  destruct (display_dispatch_event d e h) as [[d1 h1]|] eqn:He; [|done].
  simpl in Hd. apply Forall_cons_1 in Hall as [Hnot Hall].
  destruct (display_event_not_usable _ _ _ _ _ He Hnot) as [<- <-].
  apply (IH _ _ _ _ Hd).
  by destruct (display_event_globals _ _ _ _ _ He) as (-> & _).
Qed.

(** X18.  Which globals a display binds.  From the events of the registry
    a display in software mode binds [wl_shm] and nothing else; otherwise it
    binds [zwp_linux_dmabuf_v1], when the compositor offers version 3 or
    later, and nothing else.  The version it binds is the smaller of the
    version offered and 4, hence 3 or 4 whatever later version is offered;
    when the global is announced more than once, the last announcement of
    a version from 3 on is the one that stays bound.  After any list of
    events a display has a global exactly when one of the events announced
    a global it can use. *)
Theorem registry_binds_one_global wsi sw events h d h' :
  display_dispatch_events (zeroed_display wsi sw) events h = Some (d, h') ->
  display.sw d = sw /\
  (has_global d <-> Exists (usable_global sw) events) /\
  (sw = true -> display.wl_dmabuf d = None) /\
  (sw = false -> display.wl_shm d = false) /\
  (forall v, display.wl_dmabuf d = Some v -> 3 <= v <= 4) /\
  (sw = false ->
   forall before version after,
     events = before
              ++ global_event zwp_linux_dmabuf_v1_interface version :: after ->
     3 <= version ->
     Forall (fun e => ~ usable_global sw e) after ->
     display.wl_dmabuf d = Some (Z.min version 4)) /\
  (sw = false -> Forall (fun e => ~ usable_global sw e) events ->
   display.wl_dmabuf d = None).
Proof.
  intros Hd.
  destruct (display_events_globals _ _ _ _ _ Hd)
    as (Hsw & _ & _ & Hg & Hdma & Hshm & Hv). simpl in *.
  split_and!; [done| |auto|auto| | |].
  - rewrite Hg. unfold has_global. simpl. split; [|by right].
    intros [[?|[? ?]]|?]; done.
  - intros v Hdv. by destruct (Hv v Hdv).
  - intros -> before version after -> Hge Hafter.
    rewrite display_dispatch_events_app in Hd.
    destruct (display_dispatch_events _ before h) as [[d1 h1]|] eqn:Hd1;
      [|done].
    simpl in Hd.
    destruct (display_events_globals _ _ _ _ _ Hd1) as (Hsw1 & _).
    simpl in Hsw1.
    assert (Hsw2 : display.sw (registry_handle_global d1
                                 zwp_linux_dmabuf_v1_interface version)
                   = false).
    { unfold registry_handle_global. rewrite Hsw1.
      by destruct (3 <=? version). }
    destruct (display_events_not_usable _ _ _ _ _ Hd) as [_ ->].
    + by rewrite Hsw2.
    + unfold registry_handle_global. rewrite Hsw1.
      by rewrite (proj2 (Z.leb_le _ _) Hge).
  - intros -> Hall.
    by destruct (display_events_not_usable _ _ _ _ _ Hd Hall) as [_ ->].
Qed.

Lemma registry_binds_one_global_witness :
  let events := [global_event wl_shm_interface 1;
                 global_event zwp_linux_dmabuf_v1_interface 3;
                 global_event zwp_linux_dmabuf_v1_interface 5;
                 global_event zwp_linux_dmabuf_v1_interface 2] in
  exists d h',
    display_dispatch_events (zeroed_display sample_device false) events []
    = Some (d, h')
    /\ display.wl_shm d = false
    /\ display.wl_dmabuf d = Some 4.
Proof.
  intros events.
  destruct (display_dispatch_events (zeroed_display sample_device false)
              events []) as [[d h']|] eqn:Hd; [|discriminate Hd].
  exists d, h'.
  destruct (registry_binds_one_global sample_device false _ [] d h' Hd)
    as (_ & _ & _ & Hshm & _ & Hver & _).
  refine (conj eq_refl (conj (Hshm eq_refl) _)).
  refine (Hver eq_refl [global_event wl_shm_interface 1;
                        global_event zwp_linux_dmabuf_v1_interface 3]
            5 [global_event zwp_linux_dmabuf_v1_interface 2] eq_refl _ _).
  - lia.
  - constructor; [|constructor]. simpl. intros [_ ?]. lia.
Defined.

Lemma swap_Permutation {A} (l : list A) i j x y :
  l !! i = Some x -> l !! j = Some y ->
  <[j := x]> (<[i := y]> l) ≡ₚ l.
Proof.
  intros Hi Hj. apply Permutation_inj. split.
  { by rewrite !length_insert. }
  exists (fun k => if decide (k = j) then i
                   else if decide (k = i) then j else k).
  split.
  - intros k1 k2. repeat case_decide; intros; subst; congruence.
  - intros k. destruct (decide (k = j)) as [->|Hkj].
    + rewrite list_lookup_insert_eq; [done|].
      rewrite length_insert. by eapply lookup_lt_Some.
    + rewrite list_lookup_insert_ne by done.
      destruct (decide (k = i)) as [->|Hki].
      * rewrite list_lookup_insert_eq; [done | by eapply lookup_lt_Some].
      * by rewrite list_lookup_insert_ne.
Qed.

Lemma swap_bgra8_unorm_Permutation u_vector_head fs :
  swap_bgra8_unorm u_vector_head fs ≡ₚ fs.
Proof.
  unfold swap_bgra8_unorm.
  destruct (find_format fs VK_FORMAT_B8G8R8A8_UNORM) as [[i f]|] eqn:Hf;
    [|done].
  destruct (fs !! u_vector_head fs) as [first|] eqn:Hh; [|done].
  apply find_format_Some in Hf as (Hi & _).
  by apply swap_Permutation.
Qed.

Lemma catalog_ok_Permutation fs fs' :
  fs ≡ₚ fs' -> catalog_ok fs -> catalog_ok fs'.
Proof.
  intros Hp [Hnd Hall]. split; by rewrite <- Hp.
Qed.

Lemma get_default_feedback_fields d :
  display.sw (get_default_feedback d) = display.sw d /\
  display.wsi (get_default_feedback d) = display.wsi d /\
  display.wl_shm (get_default_feedback d) = display.wl_shm d /\
  display.wl_dmabuf (get_default_feedback d) = display.wl_dmabuf d /\
  display.formats (get_default_feedback d) = display.formats d /\
  (display.wl_dmabuf d = None ->
   display.wl_dmabuf_feedback (get_default_feedback d)
   = display.wl_dmabuf_feedback d).
Proof.
  unfold get_default_feedback.
  destruct (display.wl_dmabuf d) as [v|] eqn:Hv; [|done].
  by destruct (_ <=? v).
Qed.

(** X19.  What [wsi_wl_display_init] returns.  Its result is
    [VK_SUCCESS], [VK_ERROR_OUT_OF_HOST_MEMORY] or
    [VK_ERROR_SURFACE_LOST_KHR]; the last only when the first round trip
    announced no global the display can use, the second only when the
    vector, the queue, the wrapper or the registry could not be had.  A
    display it returns has a global; it keeps no default feedback, which
    was sampled during the call at most; its catalog has one entry per
    format, with no modifier twice and never the invalid one, whatever the
    events were; in software mode it has no dma-buf global and no entry of
    its catalog has a modifier; otherwise it has no [wl_shm]. *)
Theorem display_init_result
    u_vector_head wsi force_bgra8_unorm_first get_format_list sw a h
    r od h' :
  wsi_wl_display_init u_vector_head wsi force_bgra8_unorm_first
    get_format_list sw a h = Some (r, od, h') ->
  (r = VK_SUCCESS \/ r = VK_ERROR_OUT_OF_HOST_MEMORY \/
   r = VK_ERROR_SURFACE_LOST_KHR) /\
  (r = VK_ERROR_SURFACE_LOST_KHR ->
   ~ Exists (usable_global sw) (roundtrip_globals a)) /\
  (r = VK_ERROR_OUT_OF_HOST_MEMORY ->
   (malloc h).1 = false \/ create_queue a = false \/
   create_wrapper a = false \/ get_registry a = false) /\
  match od with
  | None => r <> VK_SUCCESS
  | Some d =>
      r = VK_SUCCESS /\
      display.sw d = sw /\
      display.wsi d = wsi /\
      display.wl_dmabuf_feedback d = false /\
      has_global d /\
      catalog_ok (display.formats d) /\
      (forall v, display.wl_dmabuf d = Some v -> 3 <= v <= 4) /\
      (sw = true ->
       display.wl_dmabuf d = None /\
       Forall (fun f => modifiers f = []) (display.formats d)) /\
      (sw = false -> display.wl_shm d = false)
  end.
Proof.
  unfold wsi_wl_display_init.
  destruct (malloc h) as [granted h0] eqn:Hm.
  destruct granted; simpl;
    [|intros ?; simplify_eq; by split_and!; auto].
  destruct (create_queue a) eqn:Hq; simpl;
    [|intros ?; simplify_eq; by split_and!; auto].
  destruct (create_wrapper a) eqn:Hwr; simpl;
    [|intros ?; simplify_eq; by split_and!; auto].
  destruct (get_registry a) eqn:Hreg; simpl;
    [|intros ?; simplify_eq; by split_and!; auto].
  destruct (display_dispatch_events (zeroed_display wsi sw)
              (roundtrip_globals a) h0) as [[d1 h1]|] eqn:Hd1;
    simpl; [|done].
  destruct (display_events_globals _ _ _ _ _ Hd1)
    as (Hsw1 & Hwsi1 & Hfb1 & Hg1 & Hdma1 & Hshm1 & Hv1).
  destruct (display_events_catalog _ _ _ _ _ Hd1) as [Hok1 Hnone1].
  simpl in *.
  assert (Hcat1 : catalog_ok (display.formats d1)).
  { apply Hok1. split; [apply NoDup_nil_2 | constructor]. }
  assert (Hglobal : has_global d1 <->
                    Exists (usable_global sw) (roundtrip_globals a)).
  { rewrite Hg1. unfold has_global. simpl. split; [|by right].
    intros [[?|[? ?]]|?]; done. }
  assert (Hver1 : forall v, display.wl_dmabuf d1 = Some v -> 3 <= v <= 4).
  { intros v Hv. by destruct (Hv1 v Hv). }
  destruct (negb (bool_decide (is_Some (display.wl_dmabuf d1)))
            && negb (display.wl_shm d1)) eqn:Hcheck.
  { intros ?; simplify_eq. split_and!; try done; auto.
    intros _ Hex. apply Hglobal in Hex as [Hs|Hs].
    - rewrite Hs in Hcheck. by rewrite andb_false_r in Hcheck.
    - rewrite bool_decide_eq_true_2 in Hcheck by done. done. }
  assert (Hhas : has_global d1).
  { unfold has_global. apply andb_false_iff in Hcheck as [Hc|Hc].
    - right. apply negb_false_iff, bool_decide_eq_true_1 in Hc. done.
    - left. by apply negb_false_iff in Hc. }
  destruct get_format_list; simpl.
  2:{ intros ?; simplify_eq. unfold display_init_out. rewrite Hfb1.
      split_and!; try done; auto. }
  destruct (get_default_feedback_fields d1)
    as (Hsw2 & Hwsi2 & Hshm2 & Hdma2 & Hfs2 & Hfb2).
  rewrite Hfb1 in Hfb2.
  destruct (display_dispatch_events (get_default_feedback d1)
              (roundtrip_formats a) h1)
    as [[d3 h3]|] eqn:Hd3; simpl; [|done].
  destruct (display_events_globals _ _ _ _ _ Hd3)
    as (Hsw3 & Hwsi3 & Hfb3 & Hg3 & Hdma3 & Hshm3 & Hv3).
  destruct (display_events_catalog _ _ _ _ _ Hd3) as [Hok3 Hnone3].
  intros ?; simplify_eq.
  set (d4 := if force_bgra8_unorm_first
             then display.set_formats
                    (swap_bgra8_unorm u_vector_head (display.formats d3)) d3
             else d3).
  assert (Hd4 : display.sw d4 = display.sw d3 /\
                display.wsi d4 = display.wsi d3 /\
                display.wl_shm d4 = display.wl_shm d3 /\
                display.wl_dmabuf d4 = display.wl_dmabuf d3 /\
                display.formats d4 ≡ₚ display.formats d3).
  { unfold d4. destruct force_bgra8_unorm_first; [|done]. simpl.
    split_and!; [done..|]. apply swap_bgra8_unorm_Permutation. }
  destruct Hd4 as (Hsw4 & Hwsi4 & Hshm4 & Hdma4 & Hfs4).
  assert (Hout : forall d0,
            display.sw (display_init_out d0) = display.sw d0 /\
            display.wsi (display_init_out d0) = display.wsi d0 /\
            display.wl_shm (display_init_out d0) = display.wl_shm d0 /\
            display.wl_dmabuf (display_init_out d0) = display.wl_dmabuf d0 /\
            display.formats (display_init_out d0) = display.formats d0 /\
            display.wl_dmabuf_feedback (display_init_out d0) = false).
  { intros d0. unfold display_init_out.
    by destruct (display.wl_dmabuf_feedback d0) eqn:Hfb0. }
  destruct (Hout d4) as (Hsw5 & Hwsi5 & Hshm5 & Hdma5 & Hfs5 & Hfb5).
  unfold has_global. rewrite Hsw5, Hwsi5, Hshm5, Hdma5, Hfs5, Hfb5.
  rewrite Hsw4, Hwsi4, Hshm4, Hdma4.
  split_and!; try done; auto; try congruence.
  - apply Hg3. left. unfold has_global. by rewrite Hshm2, Hdma2.
  - apply (catalog_ok_Permutation (display.formats d3)); [done|].
    apply Hok3. by rewrite Hfs2.
  - intros v Hv. destruct (Hv3 v Hv) as [Hv'|?]; [|done].
    apply Hver1. by rewrite <- Hdma2.
  - intros Hsw. rewrite Hsw in *.
    assert (Hnone : display.wl_dmabuf d1 = None) by auto.
    split.
    + apply Hdma3; [done | by rewrite Hdma2].
    + rewrite Hfs4. apply Hnone3; [done | by rewrite Hdma2 | by apply Hfb2|].
      rewrite Hfs2. by apply Hnone1.
  - intros Hsw. rewrite Hsw in *. apply Hshm3; [done|].
    rewrite Hshm2. by apply Hshm1.
Qed.

Lemma display_init_result_witness :
  exists d h',
    wsi_wl_display_init sample_u_vector_head sample_device true true false
      sample_display_answers [] = Some (VK_SUCCESS, Some d, h')
    /\ catalog_ok (display.formats d)
    /\ display.wl_dmabuf_feedback d = false.
Proof.
  destruct (wsi_wl_display_init sample_u_vector_head sample_device true true
              false sample_display_answers [])
    as [[[[] [d|]] h']|] eqn:Hinit; try discriminate Hinit.
  exists d, h'.
  destruct (display_init_result _ _ _ _ _ _ _ _ _ _ Hinit)
    as (_ & _ & _ & _ & _ & _ & Hfb & _ & Hok & _).
  exact (conj eq_refl (conj Hok Hfb)).
Defined.

(** X20.  [wsi_GetPhysicalDeviceWaylandPresentationSupportKHR] always
    returns, and it answers yes exactly when the display could be set up
    (the vector, the queue, the wrapper and the registry were had) and the
    compositor announced a global the device can use: [wl_shm] for a
    software device, [zwp_linux_dmabuf_v1] of version 3 at least for the
    others.  No format is asked for, so that nothing the compositor sends
    can make the call misbehave. *)
Theorem presentation_support
    u_vector_head wsi force_bgra8_unorm_first a h :
  exists supported h',
    wsi_GetPhysicalDeviceWaylandPresentationSupportKHR u_vector_head wsi
      force_bgra8_unorm_first a h = Some (supported, h') /\
    (supported = true <->
     (malloc h).1 = true /\ create_queue a = true /\
     create_wrapper a = true /\ get_registry a = true /\
     Exists (usable_global (sw wsi)) (roundtrip_globals a)).
Proof.
  unfold wsi_GetPhysicalDeviceWaylandPresentationSupportKHR,
    wsi_wl_display_init.
  destruct (malloc h) as [granted h0] eqn:Hm.
  destruct granted; simpl;
    [|eexists _, _; split; [done|]; split; [done | by intros (? & _)]].
  destruct (create_queue a) eqn:Hq; simpl;
    [|eexists _, _; split; [done|]; split; [done | by intros (_ & ? & _)]].
  destruct (create_wrapper a) eqn:Hwr; simpl;
    [|eexists _, _; split; [done|]; split;
      [done | by intros (_ & _ & ? & _)]].
  destruct (get_registry a) eqn:Hreg; simpl;
    [|eexists _, _; split; [done|]; split;
      [done | by intros (_ & _ & _ & ? & _)]].
  destruct (display_events_total (roundtrip_globals a)
              (zeroed_display wsi (sw wsi)) h0 eq_refl) as [[d1 h1] Hd1].
  rewrite Hd1. simpl.
  destruct (display_events_globals _ _ _ _ _ Hd1) as (_ & _ & _ & Hg1 & _).
  simpl in Hg1.
  assert (Hglobal : has_global d1 <->
                    Exists (usable_global (sw wsi)) (roundtrip_globals a)).
  { rewrite Hg1. unfold has_global. simpl. split; [|by right].
    intros [[?|[? ?]]|?]; done. }
  destruct (negb (bool_decide (is_Some (display.wl_dmabuf d1)))
            && negb (display.wl_shm d1)) eqn:Hcheck; simpl.
  - eexists _, _. split; [done|]. split; [done|].
    intros (_ & _ & _ & _ & Hex). exfalso.
    apply Hglobal in Hex as [Hs|Hs].
    + rewrite Hs in Hcheck. by rewrite andb_false_r in Hcheck.
    + rewrite bool_decide_eq_true_2 in Hcheck by done. done.
  - eexists _, _. split; [done|]. split; [|done].
    intros _. split_and!; [done..|]. apply Hglobal. unfold has_global.
    apply andb_false_iff in Hcheck as [Hc|Hc].
    + right. by apply negb_false_iff, bool_decide_eq_true_1 in Hc.
    + left. by apply negb_false_iff in Hc.
Qed.

(** X21.  What the quirk [force_bgra8_unorm_first] does to the catalog.
    It exchanges the first entry for [VK_FORMAT_B8G8R8A8_UNORM] with the
    entry that [u_vector_head] designates and moves nothing else: the
    catalog keeps its entries, up to their order, and stays well formed;
    the entry for the format ends at the index of [u_vector_head], and the
    entry that was there takes its index.  Without an entry for the format
    the catalog stays as it is. *)
Theorem bgra8_unorm_swap (u_vector_head : list wsi_wl_format -> nat) fs :
  swap_bgra8_unorm u_vector_head fs ≡ₚ fs /\
  (catalog_ok fs -> catalog_ok (swap_bgra8_unorm u_vector_head fs)) /\
  (find_format fs VK_FORMAT_B8G8R8A8_UNORM = None ->
   swap_bgra8_unorm u_vector_head fs = fs) /\
  (forall i f first,
     find_format fs VK_FORMAT_B8G8R8A8_UNORM = Some (i, f) ->
     fs !! u_vector_head fs = Some first ->
     swap_bgra8_unorm u_vector_head fs !! u_vector_head fs = Some f /\
     (i <> u_vector_head fs ->
      swap_bgra8_unorm u_vector_head fs !! i = Some first) /\
     (forall k, k <> i -> k <> u_vector_head fs ->
                swap_bgra8_unorm u_vector_head fs !! k = fs !! k)).
Proof.
  split_and!.
  - apply swap_bgra8_unorm_Permutation.
  - apply catalog_ok_Permutation. symmetry.
    apply swap_bgra8_unorm_Permutation.
  - unfold swap_bgra8_unorm. by intros ->.
  - intros i f first Hf Hh. unfold swap_bgra8_unorm. rewrite Hf, Hh.
    apply find_format_Some in Hf as (Hi & _).
    split_and!.
    + apply list_lookup_insert_eq. rewrite length_insert.
      by eapply lookup_lt_Some.
    + intros Hne. rewrite list_lookup_insert_ne by done.
      apply list_lookup_insert_eq. by eapply lookup_lt_Some.
    + intros k Hki Hkh. by rewrite !list_lookup_insert_ne.
Qed.

Lemma testbit_above_32 a n :
  0 <= a < 2 ^ 32 -> 32 <= n -> Z.testbit a n = false.
Proof.
  intros [Hge Hlt] Hn.
  destruct (decide (a = 0)) as [->|Hne]; [apply Z.bits_0|].
  apply Z.bits_above_log2; [done|].
  assert (Z.log2 a < 32) by (apply Z.log2_lt_pow2; lia). lia.
Qed.

Lemma modifier_of_halves hi lo :
  0 <= hi < 2 ^ 32 -> 0 <= lo < 2 ^ 32 ->
  buffer_params_modifier (Z.lor (Z.shiftl hi 32) lo) = (hi, lo).
Proof.
  intros Hhi Hlo. unfold buffer_params_modifier. f_equal.
  - apply Z.bits_inj'. intros n Hn.
    rewrite Z.shiftr_spec, Z.lor_spec, Z.shiftl_spec by lia.
    replace (n + 32 - 32) with n by lia.
    rewrite (testbit_above_32 lo (n + 32)) by lia. apply orb_false_r.
  - change 0xffffffff with (Z.ones 32).
    apply Z.bits_inj'. intros n Hn.
    rewrite Z.land_spec, Z.lor_spec.
    destruct (decide (n < 32)) as [Hlt|Hge].
    + rewrite Z.shiftl_spec_low, Z.ones_spec_low by lia.
      by rewrite andb_true_r.
    + rewrite Z.ones_spec_high, (testbit_above_32 lo n) by lia.
      by rewrite andb_false_r.
Qed.

Lemma halves_of_modifier m :
  Z.lor (Z.shiftl (buffer_params_modifier m).1 32)
    (buffer_params_modifier m).2 = m.
Proof.
  unfold buffer_params_modifier. simpl.
  change 0xffffffff with (Z.ones 32).
  apply Z.bits_inj'. intros n Hn.
  rewrite Z.lor_spec, Z.land_spec.
  destruct (decide (n < 32)) as [Hlt|Hge].
  - rewrite Z.shiftl_spec_low, Z.ones_spec_low by lia.
    by rewrite andb_true_r.
  - rewrite Z.shiftl_spec, Z.shiftr_spec, Z.ones_spec_high by lia.
    replace (n - 32 + 32) with n by lia.
    by rewrite andb_false_r, orb_false_r.
Qed.

(** X22.  The modifier of a dma-buf travels in two 32-bit halves, and the
    two directions agree.  [dmabuf_handle_modifier] does nothing on a
    display that has a default feedback; on another it adds to the catalog
    the modifier made of the two halves, so that every modifier that is new
    in the catalog is one that [wsi_wl_image_init] sends back to the
    compositor as the same two halves.  Conversely, the halves that
    [wsi_wl_image_init] sends for a 64-bit modifier are 32-bit values that
    make up that modifier again. *)
Theorem dmabuf_modifier_halves d format modifier_hi modifier_lo h :
  0 <= modifier_hi < 2 ^ 32 ->
  0 <= modifier_lo < 2 ^ 32 ->
  (display.wl_dmabuf_feedback d = true ->
   dmabuf_handle_modifier d format modifier_hi modifier_lo h = (d, h)) /\
  (display.wl_dmabuf_feedback d = false ->
   forall i e' x,
     display.formats
       (dmabuf_handle_modifier d format modifier_hi modifier_lo h).1 !! i
     = Some e' ->
     x ∈ modifiers e' ->
     buffer_params_modifier x = (modifier_hi, modifier_lo) \/
     exists e, display.formats d !! i = Some e /\ x ∈ modifiers e) /\
  (forall m,
     0 <= m < 2 ^ 64 ->
     0 <= (buffer_params_modifier m).1 < 2 ^ 32 /\
     0 <= (buffer_params_modifier m).2 < 2 ^ 32 /\
     Z.lor (Z.shiftl (buffer_params_modifier m).1 32)
       (buffer_params_modifier m).2 = m).
Proof.
  intros Hhi Hlo. unfold dmabuf_handle_modifier. split_and!.
  - by intros ->.
  - intros -> i e' x.
    unfold mbind, M_bind, mret, M_ret.
    pose proof (add_drm_format_modifier_only_new (display.wsi d)
                  (display.formats d) format
                  (Z.lor (Z.shiftl modifier_hi 32) modifier_lo) h) as Hnew.
    destruct (wsi_wl_display_add_drm_format_modifier _ _ _ _ _)
      as [fs h1]. simpl in *.
    intros Hi Hx. destruct (Hnew i e' x Hi Hx) as [-> | ?]; [|by right].
    left. by apply modifier_of_halves.
  - intros m [Hge Hlt]. split; [|split].
    + unfold buffer_params_modifier. simpl. rewrite Z.shiftr_div_pow2 by lia.
      split; [apply Z.div_pos; lia | apply Z.div_lt_upper_bound; lia].
    + unfold buffer_params_modifier. simpl.
      change 0xffffffff with (Z.ones 32). rewrite Z.land_ones by lia.
      apply Z.mod_pos_bound. lia.
    + apply halves_of_modifier.
Qed.

Lemma dmabuf_modifier_halves_witness :
  0 <= 1 < 2 ^ 32
  /\ 0 <= 2 < 2 ^ 32
  /\ buffer_params_modifier 0x0000000100000002 = (1, 2)
  /\ Z.lor (Z.shiftl (buffer_params_modifier 0x0000000100000002).1 32)
       (buffer_params_modifier 0x0000000100000002).2
     = 0x0000000100000002.
Proof.
  assert (H1 : 0 <= 1 < 2 ^ 32) by lia.
  assert (H2 : 0 <= 2 < 2 ^ 32) by lia.
  assert (H3 : 0 <= 0x0000000100000002 < 2 ^ 64) by lia.
  refine (conj H1 (conj H2 (conj eq_refl _))).
  exact (proj2 (proj2 (proj2 (proj2 (dmabuf_modifier_halves
           (zeroed_display sample_device false) DRM_FORMAT_ARGB8888 1 2 []
           H1 H2)) 0x0000000100000002 H3))).
Defined.

(** ** Present modes *)

(** X23.  The present modes of a surface, under the two-call idiom.
    Without an array the call stores the count 2 and succeeds.  With an
    array it writes the first modes of [MAILBOX; FIFO], as many as the
    count given allows and 2 at most, leaves the rest of the array alone,
    stores the number written, and returns [VK_INCOMPLETE] exactly when
    that number is less than 2.  With the count of the first call and an
    array of that length the second call succeeds and the array holds the
    two modes.  An array shorter than what is written is written past its
    end. *)
Theorem present_modes_query :
  (forall count,
     wsi_wl_surface_get_present_modes count None
     = Some (VkResult_value VK_SUCCESS, 2%nat, None)) /\
  (forall count array,
     (count `min` 2 <= length array)%nat ->
     exists written,
       wsi_wl_surface_get_present_modes count (Some array)
       = Some (if bool_decide (count < 2)%nat then VK_INCOMPLETE
               else VkResult_value VK_SUCCESS,
               (count `min` 2)%nat, Some written) /\
       take (count `min` 2) written = take count present_modes /\
       drop (count `min` 2) written = drop (count `min` 2) array /\
       length written = length array) /\
  (forall count array,
     (length array < count `min` 2)%nat ->
     wsi_wl_surface_get_present_modes count (Some array) = None) /\
  (forall array count,
     wsi_wl_surface_get_present_modes 0 None
     = Some (VkResult_value VK_SUCCESS, count, None) ->
     length array = count ->
     wsi_wl_surface_get_present_modes count (Some array)
     = Some (VkResult_value VK_SUCCESS, count, Some present_modes)).
Proof.
  split_and!.
  - done.
  - intros count array Hlen. unfold wsi_wl_surface_get_present_modes.
    simpl length. rewrite bool_decide_eq_true_2 by done.
    eexists. split.
    { by rewrite (bool_decide_ext (count `min` 2 < 2)%nat (count < 2)%nat)
        by lia. }
    assert (Hl : length (take (count `min` 2) present_modes)
                 = (count `min` 2)%nat).
    { rewrite length_take. simpl. lia. }
    split_and!.
    + rewrite take_app_length' by done.
      by rewrite <- (take_take present_modes count 2).
    + by rewrite drop_app_length'.
    + rewrite length_app, Hl, length_drop. lia.
  - intros count array Hlen. unfold wsi_wl_surface_get_present_modes.
    simpl length. rewrite bool_decide_eq_false_2 by lia. done.
  - intros array count [= <-] Hlen.
    destruct array as [|a1 [|a2 [|a3 array]]]; try discriminate Hlen.
    done.
Qed.

(** ** Deadline of an acquisition *)

(** X24.  An acquisition does not outlast its deadline by more than the
    turn in which it notices it: if some turn of the loop reads a clock
    that is past the deadline, the call has returned by the end of that
    turn (or has met undefined behaviour in a listener); it is not left
    waiting, whatever the connection answers. *)
Theorem acquire_returns_by_deadline end_time its w :
  Exists (fun it => timespec_after (clock_gettime it) end_time = true) its ->
  acquire_loop w end_time its <> Blocked.
Proof.
  revert w. induction its as [|it its IH]; intros w Hex.
  { by apply Exists_nil in Hex. }
  apply Exists_cons in Hex. simpl.
  destruct (dispatch_queue_pending it) as [|evs]; [done|].
  destruct (dispatch_events w evs) as [w1|]; [|done].
  destruct (find_free_image (chain w1)) as [[i img]|]; [done|].
  destruct (timespec_after (clock_gettime it) end_time) eqn:Ht; [done|].
  destruct Hex as [?|Hex]; [done|].
  destruct (prepare_read_queue it) as [ret errno].
  destruct (ppoll it) as [pret perrno].
  repeat case_match; first [done | by apply IH].
Qed.

Lemma acquire_returns_by_deadline_witness :
  let w := set_chain
             (set_images [ {| buffer := 10%nat; busy := true |} ] sample_chain)
             sample_world in
  let its := [ {| dispatch_queue_pending := dispatch_ok [];
                  clock_gettime := 5;
                  prepare_read_queue := (0, 0);
                  ppoll := (0, 0);
                  read_events := 0 |};
               {| dispatch_queue_pending := dispatch_ok [];
                  clock_gettime := 8;
                  prepare_read_queue := (0, 0);
                  ppoll := (0, 0);
                  read_events := 0 |} ] in
  Exists (fun it => timespec_after (clock_gettime it) 7 = true) its
  /\ acquire_loop w 7 its <> Blocked
  /\ acquire_loop w 7 its = Returns (VK_NOT_READY, None, w).
Proof.
  intros w its.
  assert (H1 : Exists (fun it => timespec_after (clock_gettime it) 7 = true)
                 its).
  { apply Exists_cons_tl, Exists_cons_hd. reflexivity. }
  exact (conj H1 (conj (acquire_returns_by_deadline 7 its w H1) eq_refl)).
Defined.

(** ** Modifiers of a new swapchain *)

(** X25.  The modifiers a swapchain is created with are well formed.
    When the catalog of the display is well formed, and the feedback of
    the surface was so before the creation, the feedback the new swapchain
    finds committed is well formed and the array of modifiers the swapchain
    points to lists no modifier twice and does not list the invalid
    modifier, whether it comes from the display or from the feedback,
    whatever the events of the surface's initialisation were and whatever
    the allocator answered during it, as long as the behaviour of the
    listeners was defined: a tranche whose vector could not be allocated
    lists no format in the committed feedback, an insertion into it being
    undefined behaviour. *)
Theorem new_swapchain_modifiers_well_formed w pCreateInfo a w' :
  wsi_wl_surface_create_swapchain w pCreateInfo a
  = Some (VK_SUCCESS, Some w') ->
  catalog_ok (display_formats w') ->
  feedback_ok (dmabuf_feedback w) ->
  feedback_ok (pending_dmabuf_feedback w) ->
  feedback_ok (dmabuf_feedback w') /\
  (feedback_allocated (dmabuf_feedback w) ->
   feedback_allocated (pending_dmabuf_feedback w) ->
   feedback_allocated (dmabuf_feedback w')) /\
  forall ms,
    drm_modifiers (chain w') = mods_of_display ms \/
    drm_modifiers (chain w') = mods_of_feedback ms ->
    NoDup ms /\ DRM_FORMAT_MOD_INVALID ∉ ms.
Proof.
  intros Hcreate Hcat Hcur Hpend.
  destruct (create_swapchain_modifiers _ _ _ _ Hcreate) as (_ & _ & Hagree).
  assert (Hfb : feedback_ok (dmabuf_feedback w') /\
                (feedback_allocated (dmabuf_feedback w) ->
                 feedback_allocated (pending_dmabuf_feedback w) ->
                 feedback_allocated (dmabuf_feedback w'))).
  { apply create_swapchain_inv in Hcreate
      as (h & w1 & imgs & Hinit & _ & ->). simpl.
    apply surface_init_inv in Hinit
      as [(_ & Hc & _) | (w2 & roundtrip & h1 & h2 & Hd & _ & Hc2 & Hp2)].
    - by rewrite Hc.
    - split.
      + apply (dispatch_events_feedback_ok _ _ _ Hd).
        * rewrite Hc2. apply dmabuf_feedback_init_ok.
        * rewrite Hp2. apply dmabuf_feedback_init_ok.
      + intros _ _. apply (dispatch_events_allocated _ _ _ Hd).
        * rewrite Hc2. apply dmabuf_feedback_init_allocated.
        * rewrite Hp2. apply dmabuf_feedback_init_allocated. }
  destruct Hfb as [Hfb Halloc].
  split; [done|]. split; [done|].
  intros ms [Hm|Hm]; rewrite Hm in Hagree.
  - destruct Hagree as (_ & _ & k & f & Hfind & ->).
    apply find_format_Some in Hfind as (Hk & _).
    destruct Hcat as [_ Hall]. exact (Forall_lookup_1 _ _ _ _ Hall Hk).
  - destruct Hagree as (_ & _ & _ & f & Hpick & ->).
    unfold pick_format_from_surface_dmabuf_feedback in Hpick.
    destruct (main_device (dmabuf_feedback w') =? 0); [done|].
    eapply pick_format_ok; [|done]. by destruct Hfb.
Qed.

Lemma new_swapchain_modifiers_well_formed_witness :
  let w := set_mem (replicate 9 true ++ [false]) sample_world in
  let a := {| surface_init :=
                initialized true (display_formats sample_world) true
                  sample_cycle;
              swapchain_init := VK_SUCCESS;
              get_present_mode := VK_PRESENT_MODE_FIFO_KHR;
              image_init := fun i => (VK_SUCCESS, i) |} in
  exists w',
    wsi_wl_surface_create_swapchain w sample_create_info a
    = Some (VK_SUCCESS, Some w')
    /\ catalog_ok (display_formats w')
    /\ drm_modifiers (chain w') = mods_of_feedback [7]
    /\ formats_data (pending_tranche (dmabuf_feedback w')) = false
    /\ NoDup [7].
Proof.
  intros w a.
  destruct (wsi_wl_surface_create_swapchain w sample_create_info a)
    as [[[] [w'|]]|] eqn:Hc; try discriminate Hc.
  assert (Hw' : display_formats w' = display_formats sample_world
                /\ drm_modifiers (chain w') = mods_of_feedback [7]
                /\ formats_data (pending_tranche (dmabuf_feedback w'))
                   = false).
  { vm_compute in Hc. injection Hc as <-. split_and!; reflexivity. }
  destruct Hw' as (Hfs & Hptr & Hdata).
  assert (Hcat : catalog_ok (display_formats w')).
  { rewrite Hfs. split; simpl.
    - apply NoDup_singleton.
    - constructor; [|constructor]. simpl. split.
      + apply NoDup_cons. split; [|apply NoDup_singleton].
        intros Hin. apply list_elem_of_singleton in Hin. discriminate Hin.
      + intros Hin.
        repeat (apply elem_of_cons in Hin as [Hin|Hin]; [discriminate Hin|]).
        by apply elem_of_nil in Hin. }
  exists w'.
  refine (conj eq_refl (conj Hcat (conj Hptr (conj Hdata _)))).
  exact (proj1 (proj2 (proj2 (new_swapchain_modifiers_well_formed w
                                sample_create_info a w' Hc Hcat
                                (dmabuf_feedback_init_ok [])
                                (dmabuf_feedback_init_ok [])))
                  [7] (or_intror Hptr))).
Defined.

(** ** Global bindings of a Panfrost compute context *)

Lemma le_bytes_length n : forall v, length (le_bytes n v) = n.
Proof. induction n as [|n IH]; intros v; simpl; [done|]. by rewrite IH. Qed.

Lemma le_bytes_range n : forall v,
  Forall (fun b => 0 <= b < 256) (le_bytes n v).
Proof.
  induction n as [|n IH]; intros v; simpl; constructor; [|apply IH].
  apply Z.mod_pos_bound. lia.
Qed.

Lemma le_value_bytes n : forall v,
  le_value (le_bytes n v) = v `mod` 256 ^ Z.of_nat n.
Proof.
  induction n as [|n IH]; intros v; simpl le_bytes; simpl le_value.
  - by rewrite Z.mod_1_r.
  - rewrite IH, Nat2Z.inj_succ, Z.pow_succ_r by lia.
    rewrite Z.rem_mul_r by lia. done.
Qed.

Lemma le_value_range bs :
  Forall (fun b => 0 <= b < 256) bs ->
  0 <= le_value bs < 256 ^ Z.of_nat (length bs).
Proof.
  induction 1 as [|b bs Hb _ IH]; simpl le_value; simpl length; [lia|].
  rewrite Nat2Z.inj_succ, Z.pow_succ_r by lia. lia.
Qed.

Lemma u64_of_bytes_of_u64 little_endian v :
  u64_of_bytes little_endian (bytes_of_u64 little_endian v) = v `mod` 2 ^ 64.
Proof.
  unfold u64_of_bytes, bytes_of_u64.
  destruct little_endian; rewrite ?reverse_involutive;
    by rewrite le_value_bytes.
Qed.

Lemma bytes_of_u64_length little_endian v :
  length (bytes_of_u64 little_endian v) = 8%nat.
Proof.
  unfold bytes_of_u64.
  destruct little_endian; rewrite ?length_reverse; apply le_bytes_length.
Qed.

Lemma bytes_of_u64_range little_endian v :
  Forall (fun b => 0 <= b < 256) (bytes_of_u64 little_endian v).
Proof.
  unfold bytes_of_u64. destruct little_endian;
    [|apply Forall_reverse]; apply le_bytes_range.
Qed.

Lemma read_bytes_lookup m p n k :
  (k < n)%nat -> read_bytes m p n !! k = Some (m (p + Z.of_nat k)).
Proof.
  intros Hk. unfold read_bytes.
  by rewrite list_lookup_fmap, lookup_seq_lt.
Qed.

Lemma read_bytes_length m p n : length (read_bytes m p n) = n.
Proof. unfold read_bytes. by rewrite length_fmap, length_seq. Qed.

Lemma write_bytes_outside m p bs q :
  q < p \/ p + Z.of_nat (length bs) <= q -> write_bytes m p bs q = m q.
Proof.
  intros Hout. unfold write_bytes. case_bool_decide; [|done].
  rewrite (proj2 (lookup_ge_None bs (Z.to_nat (q - p)))); [done|]. lia.
Qed.

Lemma read_write_same m p bs :
  read_bytes (write_bytes m p bs) p (length bs) = bs.
Proof.
  apply list_eq. intros k.
  destruct (decide (k < length bs)%nat) as [Hk|Hk].
  - rewrite read_bytes_lookup by done. unfold write_bytes.
    rewrite bool_decide_eq_true_2 by lia.
    replace (Z.to_nat (p + Z.of_nat k - p)) with k by lia.
    destruct (lookup_lt_is_Some_2 bs k Hk) as [b Hb]. by rewrite Hb.
  - rewrite (proj2 (lookup_ge_None bs k)) by lia.
    apply lookup_ge_None. rewrite read_bytes_length. lia.
Qed.

Lemma read_write_other m p bs q n :
  q + Z.of_nat n <= p \/ p + Z.of_nat (length bs) <= q ->
  read_bytes (write_bytes m p bs) q n = read_bytes m q n.
Proof.
  intros Hout. apply list_eq. intros k.
  destruct (decide (k < n)%nat) as [Hk|Hk].
  - rewrite !read_bytes_lookup by done. f_equal.
    apply write_bytes_outside. lia.
  - rewrite !(proj2 (lookup_ge_None _ k)); [done|..];
      rewrite read_bytes_length; lia.
Qed.

Lemma load_store_same little_endian m p v :
  0 <= v < 2 ^ 64 ->
  load_u64 little_endian (store_u64 little_endian m p v) p = v.
Proof.
  intros Hv. unfold load_u64, store_u64.
  replace 8%nat with (length (bytes_of_u64 little_endian v))
    by apply bytes_of_u64_length.
  rewrite read_write_same, u64_of_bytes_of_u64. by apply Z.mod_small.
Qed.

Lemma load_store_other little_endian m p v q :
  p + 8 <= q \/ q + 8 <= p ->
  load_u64 little_endian (store_u64 little_endian m p v) q
  = load_u64 little_endian m q.
Proof.
  intros Hout. unfold load_u64, store_u64.
  rewrite read_write_other; [done|].
  rewrite bytes_of_u64_length. lia.
Qed.

Lemma load_u64_range little_endian m p :
  (forall q, 0 <= m q < 256) -> 0 <= load_u64 little_endian m p < 2 ^ 64.
Proof.
  intros Hm. unfold load_u64, u64_of_bytes.
  assert (Hbs : Forall (fun b => 0 <= b < 256) (read_bytes m p 8)).
  { unfold read_bytes. apply Forall_fmap, Forall_forall. intros k _. apply Hm. }
  destruct little_endian.
  - pose proof (le_value_range _ Hbs) as Hr.
    by rewrite read_bytes_length in Hr.
  - pose proof (le_value_range _ (proj2 (Forall_reverse _ _) Hbs)) as Hr.
    by rewrite length_reverse, read_bytes_length in Hr.
Qed.

Lemma store_u64_range little_endian m p v :
  (forall q, 0 <= m q < 256) ->
  forall q, 0 <= store_u64 little_endian m p v q < 256.
Proof.
  intros Hm q. unfold store_u64, write_bytes.
  case_bool_decide; [|apply Hm].
  destruct (bytes_of_u64 little_endian v !! Z.to_nat (q - p)) as [b|] eqn:Hb;
    simpl; [|apply Hm].
  exact (Forall_lookup_1 _ _ _ _ (bytes_of_u64_range little_endian v) Hb).
Qed.

(** The loop, for the addresses that each handle of its turns names or
    leaves alone. *)
Lemma global_binding_loop_spec little_endian resources handles n :
  forall i m calls,
  (forall q, 0 <= m q < 256) ->
  (forall k, (i <= k < i + n)%nat ->
             exists rsrc handle, resources !! k = Some (Some rsrc) /\
                                 handles !! k = Some (Some handle)) ->
  exists m' calls',
    global_binding_loop little_endian resources handles i n m calls
    = Some (m', calls') /\
    (forall p,
       (forall k handle, (i <= k < i + n)%nat ->
          handles !! k = Some (Some handle) -> apart handle p) ->
       load_u64 little_endian m' p
       = (load_u64 little_endian m p
          + relocation resources handles p i n) `mod` 2 ^ 64) /\
    (forall q,
       (forall k handle, (i <= k < i + n)%nat ->
          handles !! k = Some (Some handle) ->
          q < handle \/ handle + 8 <= q) ->
       m' q = m q) /\
    (forall q, 0 <= m' q < 256) /\
    calls' = calls ++ binding_calls resources i n.
Proof.
  induction n as [|n IH]; intros i m calls Hm Hdef; simpl.
  { exists m, calls. split_and!; [done| |done|done|by rewrite app_nil_r].
    intros p _. rewrite Z.add_0_r, Z.mod_small; [done|].
    by apply load_u64_range. }
  destruct (Hdef i ltac:(lia)) as (rsrc & handle & Hr & Hh).
  rewrite Hr, Hh.
  set (v := (load_u64 little_endian m handle + ptr_gpu rsrc) `mod` 2 ^ 64).
  assert (Hv : 0 <= v < 2 ^ 64) by (apply Z.mod_pos_bound; lia).
  set (m1 := store_u64 little_endian m handle v).
  destruct (IH (S i) m1
              (calls ++ [panfrost_batch_write_rsrc rsrc;
                         util_range_add rsrc 0 (width0 rsrc)])
              (store_u64_range little_endian m handle v Hm))
    as (m' & calls' & -> & Hreloc & Hout & Hm' & Hlen).
  { intros k Hk. apply Hdef. lia. }
  exists m', calls'. split_and!; [done| | |done|].
  - intros p Hp. rewrite Hreloc by (intros k hk Hk; apply Hp; lia).
    destruct (Hp i handle ltac:(lia) Hh) as [->|Hfar].
    + unfold m1. rewrite load_store_same by done. unfold v.
      rewrite Z.eqb_refl, Z.add_mod_idemp_l by lia. f_equal. lia.
    + unfold m1. rewrite load_store_other by done.
      rewrite (proj2 (Z.eqb_neq handle p)) by lia. done.
  - intros q Hq. rewrite Hout by (intros k hk Hk; apply Hq; lia).
    unfold m1, store_u64. apply write_bytes_outside.
    rewrite bytes_of_u64_length. destruct (Hq i handle ltac:(lia) Hh); lia.
  - by rewrite Hlen, <- app_assoc.
Qed.

Lemma global_binding_loop_undefined little_endian resources handles n :
  forall i m calls,
  (exists k, (i <= k < i + n)%nat /\
             forall rsrc handle, ~ (resources !! k = Some (Some rsrc) /\
                                    handles !! k = Some (Some handle))) ->
  global_binding_loop little_endian resources handles i n m calls = None.
Proof.
  induction n as [|n IH]; intros i m calls (k & Hk & Hbad); simpl; [lia|].
  destruct (resources !! i) as [[rsrc|]|] eqn:Hr; [|done..].
  destruct (handles !! i) as [[handle|]|] eqn:Hh; [|done..].
  apply IH. exists k. split; [|done].
  destruct (decide (k = i)) as [->|]; [|lia].
  exfalso. by apply (Hbad rsrc handle).
Qed.

(** X26.  What [panfrost_set_global_binding] does to the handles, on a
    build of either byte order.  Without resources it does nothing.  With
    resources and handles for every index from [first] to
    [first + count - 1], it adds to the 8 bytes each handle points at the
    GPU address of the resource of the same index, modulo 2^64.  For an
    address that every handle of the range either is or stays 8 bytes away
    from, the 8 bytes there end up increased by the sum of the addresses of
    the resources whose handle is that address; so it is for each handle
    when the handles of the range are pairwise equal or 8 bytes apart.  A
    byte that none of the handles covers is as it was.  (Handles that
    overlap without being equal are not covered: the later relocation then
    reads bytes that the earlier one has rewritten.)  The call marks each of
    the resources as written by the batch and as valid over its whole width.
    When either array lacks an element for an index of that range, it reads
    past the array or through a null pointer.  When [first + count] does not
    fit in 32 bits, the bound of the loop wraps and nothing is relocated. *)
Theorem global_binding_relocates
    little_endian first count resources handles m :
  0 <= first < 2 ^ 32 -> 0 <= count < 2 ^ 32 ->
  (forall q, 0 <= m q < 256) ->
  panfrost_set_global_binding little_endian first count None handles m
  = Some (m, []) /\
  (first + count < 2 ^ 32 ->
   (forall k, (Z.to_nat first <= k < Z.to_nat (first + count))%nat ->
              exists rsrc handle, resources !! k = Some (Some rsrc) /\
                                  handles !! k = Some (Some handle)) ->
   exists m' calls,
     panfrost_set_global_binding little_endian first count (Some resources)
       handles m = Some (m', calls) /\
     (forall p,
        (forall k handle,
           (Z.to_nat first <= k < Z.to_nat (first + count))%nat ->
           handles !! k = Some (Some handle) -> apart handle p) ->
        load_u64 little_endian m' p
        = (load_u64 little_endian m p
           + relocation resources handles p (Z.to_nat first)
               (Z.to_nat count)) `mod` 2 ^ 64) /\
     ((forall j k hj hk,
         (Z.to_nat first <= j < Z.to_nat (first + count))%nat ->
         (Z.to_nat first <= k < Z.to_nat (first + count))%nat ->
         handles !! j = Some (Some hj) -> handles !! k = Some (Some hk) ->
         apart hj hk) ->
      forall k handle,
        (Z.to_nat first <= k < Z.to_nat (first + count))%nat ->
        handles !! k = Some (Some handle) ->
        load_u64 little_endian m' handle
        = (load_u64 little_endian m handle
           + relocation resources handles handle (Z.to_nat first)
               (Z.to_nat count)) `mod` 2 ^ 64) /\
     (forall q,
        (forall k handle,
           (Z.to_nat first <= k < Z.to_nat (first + count))%nat ->
           handles !! k = Some (Some handle) ->
           q < handle \/ handle + 8 <= q) ->
        m' q = m q) /\
     calls = panfrost_get_batch_for_fbo
             :: binding_calls resources (Z.to_nat first) (Z.to_nat count)) /\
  (first + count < 2 ^ 32 ->
   (exists k, (Z.to_nat first <= k < Z.to_nat (first + count))%nat /\
              forall rsrc handle,
                ~ (resources !! k = Some (Some rsrc) /\
                   handles !! k = Some (Some handle))) ->
   panfrost_set_global_binding little_endian first count (Some resources)
     handles m = None) /\
  (2 ^ 32 <= first + count ->
   panfrost_set_global_binding little_endian first count (Some resources)
     handles m = Some (m, [panfrost_get_batch_for_fbo])).
Proof.
  intros Hfirst Hcount Hm. split_and!.
  - done.
  - intros Hfit Hdef. unfold panfrost_set_global_binding.
    rewrite Z.mod_small by lia.
    replace (first + count - first) with count by lia.
    destruct (global_binding_loop_spec little_endian resources handles
                (Z.to_nat count) (Z.to_nat first) m
                [panfrost_get_batch_for_fbo] Hm)
      as (m' & calls & Hloop & Hreloc & Hout & _ & Hlen).
    { intros k Hk. apply Hdef. lia. }
    exists m', calls. split_and!; [done| | | |done].
    + intros p Hp. apply Hreloc. intros k hk Hk. apply Hp. lia.
    + intros Hpair k handle Hk Hh. apply Hreloc.
      intros j hj Hj Hhj. apply (Hpair j k); [lia|done..].
    + intros q Hq. apply Hout. intros k hk Hk. apply Hq. lia.
  - intros Hfit (k & Hk & Hbad). unfold panfrost_set_global_binding.
    rewrite Z.mod_small by lia.
    replace (first + count - first) with count by lia.
    apply global_binding_loop_undefined. exists k. split; [lia | done].
  - intros Hwrap. unfold panfrost_set_global_binding.
    replace ((first + count) `mod` 2 ^ 32) with (first + count - 2 ^ 32).
    2:{ apply Z.mod_unique with (q := 1); lia. }
    replace (Z.to_nat (first + count - 2 ^ 32 - first)) with 0%nat by lia.
    done.
Qed.

Lemma global_binding_relocates_witness :
  let m : memory := fun q => if (64 <=? q) && (q <? 72) then 255 else 0 in
  let resources := [ None;
                     Some {| width0 := 16; ptr_gpu := 4096 |};
                     Some {| width0 := 32; ptr_gpu := 8192 |} ] in
  let handles := [ None; Some 64; Some 64 ] in
  0 <= 1 < 2 ^ 32 /\ 0 <= 2 < 2 ^ 32
  /\ (forall q, 0 <= m q < 256)
  /\ exists m' calls,
       panfrost_set_global_binding true 1 2 (Some resources) handles m
       = Some (m', calls)
       /\ load_u64 true m 64 = 2 ^ 64 - 1
       /\ load_u64 true m' 64 = 12287
       /\ m' 72 = 0.
Proof.
  intros m resources handles.
  assert (H1 : 0 <= 1 < 2 ^ 32) by lia.
  assert (H2 : 0 <= 2 < 2 ^ 32) by lia.
  assert (H3 : forall q, 0 <= m q < 256).
  { intros q. unfold m. destruct ((64 <=? q) && (q <? 72)); lia. }
  refine (conj H1 (conj H2 (conj H3 _))).
  destruct (proj1 (proj2 (global_binding_relocates true 1 2 resources handles
                            m H1 H2 H3)))
    as (m' & calls & Hb & Hreloc & _ & Hout & _).
  - lia.
  - intros k Hk.
    destruct k as [|[|[|k]]]; [lia | | | lia]; simpl; eauto.
  - exists m', calls. refine (conj Hb (conj eq_refl (conj _ _))).
    + rewrite Hreloc; [reflexivity|].
      intros k handle Hk Hh. left.
      destruct k as [|[|[|k]]]; [lia | | | lia]; simpl in Hh; congruence.
    + rewrite Hout; [reflexivity|].
      intros k handle Hk Hh. right.
      destruct k as [|[|[|k]]]; [lia | | | lia]; simpl in Hh;
        injection Hh as <-; lia.
Defined.

(** Two handles 4 bytes apart, on a little-endian build: the second
    relocation adds to 8 bytes of which the first has rewritten 4, and the
    8 bytes at the first handle end up with neither the sum nor the value
    the first relocation stored. *)
Example overlapping_handles_interfere :
  exists m' calls,
    panfrost_set_global_binding true 0 2
      (Some [ Some {| width0 := 16; ptr_gpu := 2 ^ 32 + 1 |};
              Some {| width0 := 16; ptr_gpu := 1 |} ])
      [ Some 0; Some 4 ] (fun _ => 0)
    = Some (m', calls)
    /\ load_u64 true m' 0 = 2 * 2 ^ 32 + 1
    /\ load_u64 true m' 4 = 2.
Proof. eexists _, _. split_and!; reflexivity. Qed.
